(** * pysph.sph.integrator_opencl_helper

    A shallow embedding of [OpenCLIntegrator] and [IntegratorOpenCLHelper]
    (pysph/sph/integrator_opencl_helper.py) and the properties of the staged
    runtime, of the call tables and of kernel generation.

    Conventions of the embedding:
    - a Python [dict] is an association list in insertion order (the order
      [items()] and [keys()] iterate in, CPython 3.7 and later); an
      assignment to an existing key keeps the key's position;
    - a [defaultdict(dict)] lookup of a missing key inserts an empty dict;
    - a particle array object is identified by its name: the device state
      of all arrays lives in one world value, read through the observers
      of [Externals];
    - host floats are an abstract type [T]; [np.asarray(x, dtype=...)] is
      the symbolic value [AScalar dtype x];
    - a raised exception is [Raise e]; calls into collaborators are logged
      as events, and their effect on the world is the parameter
      [call_effect]. *)

From Stdlib Require Import List String Ascii ZArith Bool Lia.
From Stdlib Require Import Sorting.Sorted Sorting.Permutation.
From Stdlib Require Import Relations.Relation_Definitions Classes.RelationClasses.
Import ListNotations.
Local Open Scope string_scope.
Local Open Scope list_scope.

Set Implicit Arguments.

(** ** Exceptions *)

Inductive exn : Type :=
| AttributeError (obj attr : string)
| KeyError (key : string)
| TypeError (what : string)
| IndexError.

Inductive result (A : Type) : Type :=
| Ok (a : A)
| Raise (e : exn).

Arguments Ok {A} a.
Arguments Raise {A} e.

Definition bind {A B : Type} (r : result A) (k : A -> result B) : result B :=
  match r with
  | Ok a => k a
  | Raise e => Raise e
  end.

Notation "x <- c ;; k" := (bind c (fun x => k))
  (at level 61, c at next level, right associativity).
Notation "' pat <- c ;; k" := (bind c (fun x => match x with pat => k end))
  (at level 61, pat pattern, c at next level, right associativity).


(** ** Python containers *)

Section Dict.
Variable V : Type.

Definition dict := list (string * V).

Definition keys (d : dict) : list string := map fst d.
Definition values (d : dict) : list V := map snd d.

(** [d.get(k)] *)
Fixpoint dict_get (k : string) (d : dict) : option V :=
  match d with
  | [] => None
  | (k', v) :: d' => if String.eqb k k' then Some v else dict_get k d'
  end.

(** [d[k]] *)
Definition dict_getitem (k : string) (d : dict) : result V :=
  match dict_get k d with
  | Some v => Ok v
  | None => Raise (KeyError k)
  end.

(** [d[k] = v] *)
Fixpoint dict_set (k : string) (v : V) (d : dict) : dict :=
  match d with
  | [] => [(k, v)]
  | (k', v') :: d' =>
      if String.eqb k k' then (k, v) :: d' else (k', v') :: dict_set k v d'
  end.
End Dict.

Arguments keys {V} d.
Arguments values {V} d.
Arguments dict_get {V} k d.
Arguments dict_getitem {V} k d.
Arguments dict_set {V} k v d.

Section DefaultDict.
Variable V : Type.

(** [defaultdict(dict)] *)
Definition defaultdict := dict (dict V).

(** [dd[k]]: the inner dict, and the table after the lookup. *)
Definition dd_getitem (k : string) (dd : defaultdict) : dict V * defaultdict :=
  match dict_get k dd with
  | Some inner => (inner, dd)
  | None => ([], dd ++ [(k, [])])
  end.

(** [dd[k1][k2] = v] *)
Definition dd_setitem (k1 k2 : string) (v : V) (dd : defaultdict) : defaultdict :=
  let (inner, dd') := dd_getitem k1 dd in
  dict_set k1 (dict_set k2 v inner) dd'.
End DefaultDict.

Arguments dd_getitem {V} k dd.
Arguments dd_setitem {V} k1 k2 v dd.

(** [l[i] = x] on a Python list. *)
Fixpoint list_setitem {A : Type} (l : list A) (i : nat) (x : A) : result (list A) :=
  match l, i with
  | [], _ => Raise IndexError
  | _ :: l', O => Ok (x :: l')
  | a :: l', S i' => l'' <- list_setitem l' i' x ;; Ok (a :: l'')
  end.

(** [l.remove(x)] when [x in l]: the first occurrence goes. *)
Fixpoint list_remove (x : string) (l : list string) : list string :=
  match l with
  | [] => []
  | y :: l' => if String.eqb x y then l' else y :: list_remove x l'
  end.

(** [sep.join(l)] *)
Fixpoint join (sep : string) (l : list string) : string :=
  match l with
  | [] => ""
  | [x] => x
  | x :: l' => (x ++ sep ++ join sep l')%string
  end.

(** [s[n:]] *)
Fixpoint str_drop (n : nat) (s : string) : string :=
  match n, s with
  | O, _ => s
  | S n', String _ s' => str_drop n' s'
  | S _, EmptyString => EmptyString
  end.

(** [sorted(l)] on strings: the order is by code point, [String.leb]. *)
Fixpoint insort (x : string) (l : list string) : list string :=
  match l with
  | [] => [x]
  | y :: l' => if String.leb x y then x :: l else y :: insort x l'
  end.

Definition sorted (l : list string) : list string :=
  fold_right insort [] l.

Definition str_le (a b : string) : Prop := String.leb a b = true.
Definition str_lt (a b : string) : Prop := String.ltb a b = true.


(** ** Data of the program *)

(** [np.float32] and [np.float64] *)
Inductive dtype : Type := float32 | float64.

(** A stepper instance: its class name ([__class__.__name__]) and the names
    of the attributes [hasattr] finds on it. *)
Record Stepper : Type := {
  cls_name : string;
  attrs : list string
}.

Definition hasattr (s : Stepper) (name : string) : bool :=
  existsb (String.eqb name) (attrs s).

(** A bound method [getattr(stepper, method)]. *)
Record PyMeth : Type := {
  im_self : Stepper;
  im_name : string
}.

(** [acceleration_eval_helper]: the attributes this module reads. *)
Record AccelerationEvalHelper : Type := {
  _array_map : list string;
  _queue : Z;
  known_types : list (string * string)
}.

Section Model.

(** Host floating-point numbers. *)
Variable T : Type.

(** The state of the collaborators: device arrays, neighbour lists,
    accelerations. *)
Variable W : Type.

(** A value in a kernel's argument list: the queue, [None], the tuple
    [(n,)], a getter [functools.partial(_getter, dest.gpu, x)] (the device
    helper [dest.gpu] bound at setup is named by its array), a device
    buffer [.dev.data], a scalar [np.asarray(x, dtype=ty)]. *)
Inductive arg : Type :=
| AQueue (q : Z)
| ANone
| AGlobalSize (n : Z)
| AGetter (dest_gpu field : string)
| ABuffer (data : Z)
| AScalar (ty : dtype) (x : T).

(** A call into, or a read from, a collaborator. *)
Inductive event : Type :=
| EvPyMeth (f : PyMeth) (dest : string) (extra_args : list arg)
| EvGetNumberOfParticles (dest : string) (n : Z)
| EvGetter (dest_gpu field : string) (data : Z)
| EvKernel (call : string) (args : list arg)
| EvParallelManagerUpdate (pm : Z)
| EvNNPSUpdate (nnps : Z)
| EvCompute (acceleration_eval : Z) (t dt : T)
| EvPostStageCallback (callback : Z) (t dt : T) (stage : Z).

(** A statement of the body of [one_timestep(self, t, dt)]:
    [self.<method>()], [self.compute_accelerations()] and
    [self.do_post_stage(stage_dt, stage)], where [stage_dt] is an
    expression in the arguments [t] and [dt]. *)
Inductive op : Type :=
| OpStage (method : string)
| OpComputeAccelerations
| OpDoPostStage (stage_dt : T -> T -> T) (stage : Z).

(** [helper.object]: the integrator being compiled. *)
Record Integrator : Type := {
  steppers : dict Stepper;
  integrator_one_timestep : list op
}.

(** What this module takes from its collaborators and from the parts of
    the package that are not in this file. *)
Record Externals : Type := {
  (** [dest.get_number_of_particles(real=True)] *)
  get_number_of_particles : W -> string -> Z;
  (** [getattr(dest.gpu, x).dev.data] *)
  dev_data : W -> string -> string -> Z;
  (** the effect of a logged call on the collaborators *)
  call_effect : event -> W -> W;
  (** [+] on host floats *)
  float_add : T -> T -> T;
  (** [get_config().use_double] *)
  use_double : bool;
  (** [IntegratorCythonHelper.get_stepper_method_wrapper_names] *)
  get_stepper_method_wrapper_names : Integrator -> list string;
  (** [IntegratorCythonHelper.has_stepper_loop] *)
  has_stepper_loop : Integrator -> string -> string -> bool;
  (** [IntegratorCythonHelper.get_args] *)
  get_args : Integrator -> string -> string -> list string;
  (** [equation.get_array_names], its sets in the order [list] gives *)
  get_array_names : list string -> list string * list string;
  (** [acceleration_eval_helper._get_typed_args] *)
  _get_typed_args : list string -> list string;
  (** [acceleration_eval_opencl_helper.get_kernel_definition] *)
  get_kernel_definition : string -> list string -> string;
  (** [acceleration_eval_opencl_helper.wrap_code] with [indent=''] *)
  wrap_code : string -> list string;
  (** [OpenCLConverter(known_types=...).parse_instance] *)
  parse_instance : list (string * string) -> Stepper -> string
}.

Variable X : Externals.

(** An entry of [helper.calls[method]]: [(call, all_args, dest)]. *)
Definition call_entry : Type := (string * list arg * string)%type.

(** An entry of [helper.py_calls[method]]: [(py_meth, dest)]. *)
Definition py_call_entry : Type := (PyMeth * string)%type.

Record IntegratorOpenCLHelper : Type := {
  object : option Integrator;
  acceleration_eval_helper : AccelerationEvalHelper;
  py_data : defaultdict string;
  data : defaultdict (string * list string);
  py_calls : defaultdict py_call_entry;
  calls : defaultdict call_entry;
  program : option (list string)
}.

Definition set_py_data (v : defaultdict string) (h : IntegratorOpenCLHelper) :=
  {| object := object h; acceleration_eval_helper := acceleration_eval_helper h;
     py_data := v; data := data h; py_calls := py_calls h; calls := calls h;
     program := program h |}.

Definition set_data (v : defaultdict (string * list string)) (h : IntegratorOpenCLHelper) :=
  {| object := object h; acceleration_eval_helper := acceleration_eval_helper h;
     py_data := py_data h; data := v; py_calls := py_calls h; calls := calls h;
     program := program h |}.

Definition set_py_calls (v : defaultdict py_call_entry) (h : IntegratorOpenCLHelper) :=
  {| object := object h; acceleration_eval_helper := acceleration_eval_helper h;
     py_data := py_data h; data := data h; py_calls := v; calls := calls h;
     program := program h |}.

Definition set_calls (v : defaultdict call_entry) (h : IntegratorOpenCLHelper) :=
  {| object := object h; acceleration_eval_helper := acceleration_eval_helper h;
     py_data := py_data h; data := data h; py_calls := py_calls h; calls := v;
     program := program h |}.

Definition set_program (v : option (list string)) (h : IntegratorOpenCLHelper) :=
  {| object := object h; acceleration_eval_helper := acceleration_eval_helper h;
     py_data := py_data h; data := data h; py_calls := py_calls h; calls := calls h;
     program := v |}.

(** [IntegratorOpenCLHelper.__init__] *)
Definition helper_init (integrator : option Integrator)
    (aeh : AccelerationEvalHelper) : IntegratorOpenCLHelper :=
  {| object := integrator; acceleration_eval_helper := aeh;
     py_data := []; data := []; py_calls := []; calls := [];
     program := None |}.

(** The attributes of an [OpenCLIntegrator]. [self_t], [self_dt] and
    [self_orig_t] do not exist until [step] assigns them; [methods] are
    the names [_setup_methods] binds to [partial(self._do_stage, name)]. *)
Record OpenCLIntegrator : Type := {
  helper : IntegratorOpenCLHelper;
  acceleration_eval : Z;
  nnps : option Z;
  parallel_manager : option Z;
  _post_stage_callback : option Z;
  _use_double : bool;
  one_timestep : list op;
  methods : list string;
  self_t : option T;
  self_dt : option T;
  self_orig_t : option T
}.

Definition set_helper (v : IntegratorOpenCLHelper) (s : OpenCLIntegrator) :=
  {| helper := v; acceleration_eval := acceleration_eval s; nnps := nnps s;
     parallel_manager := parallel_manager s;
     _post_stage_callback := _post_stage_callback s;
     _use_double := _use_double s; one_timestep := one_timestep s;
     methods := methods s; self_t := self_t s; self_dt := self_dt s;
     self_orig_t := self_orig_t s |}.

Definition set_t (v : T) (s : OpenCLIntegrator) :=
  {| helper := helper s; acceleration_eval := acceleration_eval s; nnps := nnps s;
     parallel_manager := parallel_manager s;
     _post_stage_callback := _post_stage_callback s;
     _use_double := _use_double s; one_timestep := one_timestep s;
     methods := methods s; self_t := Some v; self_dt := self_dt s;
     self_orig_t := self_orig_t s |}.

Definition set_dt (v : T) (s : OpenCLIntegrator) :=
  {| helper := helper s; acceleration_eval := acceleration_eval s; nnps := nnps s;
     parallel_manager := parallel_manager s;
     _post_stage_callback := _post_stage_callback s;
     _use_double := _use_double s; one_timestep := one_timestep s;
     methods := methods s; self_t := self_t s; self_dt := Some v;
     self_orig_t := self_orig_t s |}.

Definition set_orig_t (v : T) (s : OpenCLIntegrator) :=
  {| helper := helper s; acceleration_eval := acceleration_eval s; nnps := nnps s;
     parallel_manager := parallel_manager s;
     _post_stage_callback := _post_stage_callback s;
     _use_double := _use_double s; one_timestep := one_timestep s;
     methods := methods s; self_t := self_t s; self_dt := self_dt s;
     self_orig_t := Some v |}.

(** Reading an attribute that may not have been assigned yet. *)
Definition getattr_self {A : Type} (name : string) (v : option A) : result A :=
  match v with
  | Some a => Ok a
  | None => Raise (AttributeError "OpenCLIntegrator" name)
  end.

(** The outcome of a method of the runtime: the integrator and the world
    after the call, and the calls it made, in order. *)
Definition outcome : Type := (OpenCLIntegrator * W * list event)%type.

(** The world after the calls of a log, in order. Reads change nothing. *)
Definition apply_event (w : W) (e : event) : W :=
  match e with
  | EvGetNumberOfParticles _ _ => w
  | EvGetter _ _ _ => w
  | _ => call_effect X e w
  end.

Definition replay (w : W) (log : list event) : W :=
  fold_left apply_event log w.

(** ** OpenCLIntegrator *)

(** [for name, (py_meth, dest) in py_call_info.items():
       py_meth(dest, *extra_args)] *)
Fixpoint py_loop (extra_args : list arg) (items : dict py_call_entry) (w : W)
    : W * list event :=
  match items with
  | [] => (w, [])
  | (_, (py_meth, dest)) :: items' =>
      let e := EvPyMeth py_meth dest extra_args in
      let (w', log) := py_loop extra_args items' (call_effect X e w) in
      (w', e :: log)
  end.

(** [[x() for x in l]]: every element has to be one of the getters
    [_setup_call_data] made, which reads [getattr(dest_gpu, x).dev.data]
    when it is called. *)
Fixpoint call_getters (w : W) (l : list arg) : result (list arg * list event) :=
  match l with
  | [] => Ok ([], [])
  | AGetter dest_gpu x :: l' =>
      let v := dev_data X w dest_gpu x in
      '(vs, log) <- call_getters w l' ;;
      Ok (ABuffer v :: vs, EvGetter dest_gpu x v :: log)
  | _ :: _ => Raise (TypeError "object is not callable")
  end.

(** [for name, (call, args, dest) in call_info.items(): ...]. The list
    [args] is the one stored in [helper.calls]: [args[1] = (n,)] changes
    the table. *)
Fixpoint kernel_loop (method : string) (extra_args : list arg)
    (items : dict call_entry) (s : OpenCLIntegrator) (w : W) : result outcome :=
  match items with
  | [] => Ok (s, w, [])
  | (name, (call, args, dest)) :: items' =>
      let n := get_number_of_particles X w dest in
      args1 <- list_setitem args 1 (AGlobalSize n) ;;
      let h := helper s in
      let s1 := set_helper
                  (set_calls (dd_setitem method name (call, args1, dest) (calls h)) h) s in
      '(rest, log_rest) <- call_getters w (skipn 3 args1) ;;
      let e := EvKernel call (firstn 3 args1 ++ rest ++ extra_args) in
      '(s2, w2, log) <- kernel_loop method extra_args items' s1 (call_effect X e w) ;;
      Ok (s2, w2, EvGetNumberOfParticles dest n :: log_rest ++ e :: log)
  end.

Definition _do_stage (method : string) (s : OpenCLIntegrator) (w : W)
    : result outcome :=
  let h := helper s in
  let (call_info, calls1) := dd_getitem method (calls h) in
  let (py_call_info, py_calls1) := dd_getitem ("py_" ++ method) (py_calls h) in
  let s1 := set_helper (set_py_calls py_calls1 (set_calls calls1 h)) s in
  let dtype := if _use_double s then float64 else float32 in
  t <- getattr_self "t" (self_t s) ;;
  dt <- getattr_self "dt" (self_dt s) ;;
  let extra_args := [AScalar dtype t; AScalar dtype dt] in
  let (w1, log1) := py_loop extra_args py_call_info w in
  '(s2, w2, log2) <- kernel_loop method extra_args call_info s1 w1 ;;
  Ok (s2, w2, log1 ++ log2).

Definition set_nnps (v : Z) (s : OpenCLIntegrator) : OpenCLIntegrator :=
  {| helper := helper s; acceleration_eval := acceleration_eval s; nnps := Some v;
     parallel_manager := parallel_manager s;
     _post_stage_callback := _post_stage_callback s;
     _use_double := _use_double s; one_timestep := one_timestep s;
     methods := methods s; self_t := self_t s; self_dt := self_dt s;
     self_orig_t := self_orig_t s |}.

Definition set_parallel_manager (pm : Z) (s : OpenCLIntegrator) : OpenCLIntegrator :=
  {| helper := helper s; acceleration_eval := acceleration_eval s; nnps := nnps s;
     parallel_manager := Some pm;
     _post_stage_callback := _post_stage_callback s;
     _use_double := _use_double s; one_timestep := one_timestep s;
     methods := methods s; self_t := self_t s; self_dt := self_dt s;
     self_orig_t := self_orig_t s |}.

Definition set_post_stage_callback (callback : Z) (s : OpenCLIntegrator)
    : OpenCLIntegrator :=
  {| helper := helper s; acceleration_eval := acceleration_eval s; nnps := nnps s;
     parallel_manager := parallel_manager s;
     _post_stage_callback := Some callback;
     _use_double := _use_double s; one_timestep := one_timestep s;
     methods := methods s; self_t := self_t s; self_dt := self_dt s;
     self_orig_t := self_orig_t s |}.

Definition compute_accelerations (s : OpenCLIntegrator) (w : W) : result outcome :=
  let (w1, log1) :=
    match parallel_manager s with
    | Some pm => (call_effect X (EvParallelManagerUpdate pm) w,
                  [EvParallelManagerUpdate pm])
    | None => (w, [])
    end in
  n <- match nnps s with
       | Some n => Ok n
       | None => Raise (AttributeError "NoneType" "update")
       end ;;
  let w2 := call_effect X (EvNNPSUpdate n) w1 in
  t <- getattr_self "t" (self_t s) ;;
  dt <- getattr_self "dt" (self_dt s) ;;
  let e := EvCompute (acceleration_eval s) t dt in
  Ok (s, call_effect X e w2, log1 ++ [EvNNPSUpdate n; e]).

Definition do_post_stage (stage_dt : T) (stage : Z) (s : OpenCLIntegrator) (w : W)
    : result outcome :=
  orig_t <- getattr_self "orig_t" (self_orig_t s) ;;
  let t := float_add X orig_t stage_dt in
  let s1 := set_t t s in
  match _post_stage_callback s1 with
  | Some callback =>
      dt <- getattr_self "dt" (self_dt s1) ;;
      let e := EvPostStageCallback callback t dt stage in
      Ok (s1, call_effect X e w, [e])
  | None => Ok (s1, w, [])
  end.

(** One statement of [one_timestep]; [self.<method>] exists when
    [_setup_methods] has bound it. *)
Definition exec_op (o : op) (t dt : T) (s : OpenCLIntegrator) (w : W)
    : result outcome :=
  match o with
  | OpStage method =>
      if existsb (String.eqb method) (methods s)
      then _do_stage method s w
      else Raise (AttributeError "OpenCLIntegrator" method)
  | OpComputeAccelerations => compute_accelerations s w
  | OpDoPostStage stage_dt stage => do_post_stage (stage_dt t dt) stage s w
  end.

(** [self.one_timestep(t, dt)]: the statements of the captured body, in
    order. *)
Fixpoint exec_ops (ops : list op) (t dt : T) (s : OpenCLIntegrator) (w : W)
    : result outcome :=
  match ops with
  | [] => Ok (s, w, [])
  | o :: ops' =>
      '(s1, w1, log1) <- exec_op o t dt s w ;;
      '(s2, w2, log2) <- exec_ops ops' t dt s1 w1 ;;
      Ok (s2, w2, log1 ++ log2)
  end.

Definition step (t dt : T) (s : OpenCLIntegrator) (w : W) : result outcome :=
  let s1 := set_dt dt (set_t t (set_orig_t t s)) in
  exec_ops (one_timestep s1) t dt s1 w.

(** ** IntegratorOpenCLHelper *)

Fixpoint foldM {A B : Type} (f : A -> B -> result A) (l : list B) (a : A)
    : result A :=
  match l with
  | [] => Ok a
  | b :: l' => a' <- f a b ;; foldM f l' a'
  end.

Definition newline : string := String (ascii_of_nat 10) EmptyString.

(** [self.object.<attr>] *)
Definition getattr_object (h : IntegratorOpenCLHelper) (attr : string)
    : result Integrator :=
  match object h with
  | Some obj => Ok obj
  | None => Raise (AttributeError "NoneType" attr)
  end.

(** [array_map[dest_name]]: the particle array of that name. *)
Definition array_map_getitem (array_map : list string) (dest_name : string)
    : result string :=
  if existsb (String.eqb dest_name) array_map
  then Ok dest_name
  else Raise (KeyError dest_name).

(** [getattr(stepper, method)] *)
Definition getattr_stepper (stepper : Stepper) (method : string) : result PyMeth :=
  if hasattr stepper method
  then Ok {| im_self := stepper; im_name := method |}
  else Raise (AttributeError (cls_name stepper) method).

(** [profile_kernel(getattr(self.program, kernel), ...)]: the kernel of
    that name of the compiled module. *)
Definition getattr_program (prog : option (list string)) (kernel : string)
    : result string :=
  match prog with
  | Some kernels =>
      if existsb (String.eqb kernel) kernels
      then Ok kernel
      else Raise (AttributeError "Program" kernel)
  | None => Raise (AttributeError "NoneType" kernel)
  end.

(** The body of the first loop of [_setup_call_data]. *)
Definition setup_py_call (steppers0 : dict Stepper) (array_map : list string)
    (method : string) (py_calls0 : defaultdict py_call_entry) (dest_name : string)
    : result (defaultdict py_call_entry) :=
  stepper <- dict_getitem dest_name steppers0 ;;
  py_meth <- getattr_stepper stepper method ;;
  dest <- array_map_getitem array_map dest_name ;;
  Ok (dd_setitem method dest (py_meth, dest) py_calls0).

(** The body of the second loop of [_setup_call_data]. *)
Definition setup_call (prog : option (list string)) (array_map : list string)
    (q : Z) (method : string) (calls0 : defaultdict call_entry)
    (item : string * (string * list string)) : result (defaultdict call_entry) :=
  let '(dest_name, (kernel, args)) := item in
  dest <- array_map_getitem array_map dest_name ;;
  let _args := map (fun x => AGetter dest (str_drop 2 x)) args in
  let all_args := [AQueue q; ANone; ANone] ++ _args in
  call <- getattr_program prog kernel ;;
  Ok (dd_setitem method dest (call, all_args, dest) calls0).

Definition _setup_call_data (h : IntegratorOpenCLHelper)
    : result IntegratorOpenCLHelper :=
  let array_map := _array_map (acceleration_eval_helper h) in
  let q := _queue (acceleration_eval_helper h) in
  obj <- getattr_object h "steppers" ;;
  py_calls1 <-
    foldM (fun pc (item : string * dict string) =>
             foldM (setup_py_call (steppers obj) array_map (fst item))
                   (keys (snd item)) pc)
          (py_data h) (py_calls h) ;;
  calls1 <-
    foldM (fun c (item : string * dict (string * list string)) =>
             foldM (setup_call (program h) array_map q (fst item)) (snd item) c)
          (data h) (calls h) ;;
  Ok (set_calls calls1 (set_py_calls py_calls1 h)).

Definition get_py_stage_code (dest method : string) (h : IntegratorOpenCLHelper)
    : result IntegratorOpenCLHelper :=
  obj <- getattr_object h "steppers" ;;
  stepper <- dict_getitem dest (steppers obj) ;;
  let method := ("py_" ++ method)%string in
  if hasattr stepper method
  then Ok (set_py_data (dd_setitem method dest dest (py_data h)) h)
  else Ok h.

(** [self.object.one_timestep], as [inspect] reads it. *)
Definition get_timestep_code (h : IntegratorOpenCLHelper) : result (list op) :=
  obj <- getattr_object h "one_timestep" ;;
  Ok (integrator_one_timestep obj).

(** The dict [classes] of [get_stepper_code]: class name to stepper. *)
Definition stepper_classes (steppers0 : dict Stepper) : dict Stepper :=
  fold_left (fun classes (item : string * Stepper) =>
               dict_set (cls_name (snd item)) (snd item) classes)
            steppers0 [].

(** The instances [get_stepper_code] hands to [parse_instance], in order. *)
Definition parsed_instances (steppers0 : dict Stepper) : list Stepper :=
  let classes := stepper_classes steppers0 in
  flat_map (fun cls => match dict_get cls classes with
                       | Some stepper => [stepper]
                       | None => []
                       end)
           (sorted (keys classes)).

Definition get_stepper_code (h : IntegratorOpenCLHelper) : result string :=
  obj <- getattr_object h "steppers" ;;
  let known := known_types (acceleration_eval_helper h) in
  let wrappers := map (parse_instance X known) (parsed_instances (steppers obj)) in
  Ok (join newline wrappers).

(** The class name [get_stepper_kernel] prints for [dest]. *)
Definition stepper_cls (obj : Integrator) (dest : string) : string :=
  match dict_get dest (steppers obj) with
  | Some stepper => cls_name stepper
  | None => "NoneType"
  end.

(** The argument names of the stage method, without [self]. *)
Definition stepper_kernel_args (obj : Integrator) (dest method : string)
    : list string :=
  let args := get_args X obj dest method in
  if existsb (String.eqb "self") args then list_remove "self" args else args.

(** The body lines of the kernel of [get_stepper_kernel]. *)
Definition stepper_kernel_code (cls method : string) (args : list string)
    : list string :=
  ["int d_idx = get_global_id(0);"]
  ++ wrap_code X (cls ++ "_" ++ method ++ "(" ++ join ", " ("0" :: args) ++ ");")%string.

Definition stepper_kernel_body (cls method : string) (args : list string)
    : string :=
  join newline (map (fun x => ("    " ++ x)%string)
                    (stepper_kernel_code cls method args)).

Definition get_stepper_kernel (dest method : string) (h : IntegratorOpenCLHelper)
    : result (IntegratorOpenCLHelper * string) :=
  let kernel := (method ++ "_" ++ dest)%string in
  obj <- getattr_object h "steppers" ;;
  let cls := stepper_cls obj dest in
  let args := stepper_kernel_args obj dest method in
  let (_, d) := get_array_names X args in
  let all_args := _get_typed_args X (d ++ ["t"; "dt"]) in
  let body := stepper_kernel_body cls method args in
  let h' := set_data (dd_setitem method dest (kernel, d) (data h)) h in
  let sig := get_kernel_definition X kernel all_args in
  Ok (h', (sig ++ newline ++ "{" ++ newline ++ body ++ newline ++ "}" ++ newline)%string).

Definition rule : string :=
  "// ------------------------------------------------------------".

(** The body of the inner loop of the template of [get_code]. *)
Definition render_method (obj : Integrator) (dest : string)
    (acc : IntegratorOpenCLHelper * string) (method : string)
    : result (IntegratorOpenCLHelper * string) :=
  let (h, text) := acc in
  h1 <- get_py_stage_code dest method h ;;
  let text1 := (text ++ newline)%string in
  if has_stepper_loop X obj dest method
  then '(h2, kernel) <- get_stepper_kernel dest method h1 ;;
       Ok (h2, (text1 ++ kernel ++ newline)%string)
  else Ok (h1, text1).

(** The body of the outer loop of the template of [get_code]. *)
Definition render_dest (obj : Integrator)
    (acc : IntegratorOpenCLHelper * string) (dest : string)
    : result (IntegratorOpenCLHelper * string) :=
  let (h, text) := acc in
  foldM (render_method obj dest)
        (get_stepper_method_wrapper_names X obj)
        (h, (text ++ "// Steppers for " ++ dest ++ newline)%string).

Definition get_code (h : IntegratorOpenCLHelper)
    : result (IntegratorOpenCLHelper * string) :=
  match object h with
  | Some obj =>
      stepper_code <- get_stepper_code h ;;
      let head := (newline ++ rule ++ newline
                   ++ "// Integrator steppers." ++ newline
                   ++ stepper_code ++ newline ++ newline
                   ++ rule ++ newline)%string in
      '(h1, text) <- foldM (render_dest obj) (sorted (keys (steppers obj)))
                           (h, head) ;;
      Ok (h1, (text ++ rule ++ newline)%string)
  | None => Ok (h, "")
  end.

(** [OpenCLIntegrator.__init__], with [_setup_methods]. *)
Definition OpenCLIntegrator_init (h : IntegratorOpenCLHelper)
    (c_acceleration_eval : Z) : result OpenCLIntegrator :=
  code <- get_timestep_code h ;;
  obj <- getattr_object h "steppers" ;;
  Ok {| helper := h; acceleration_eval := c_acceleration_eval;
        nnps := None; parallel_manager := None;
        _post_stage_callback := None;
        _use_double := use_double X;
        one_timestep := code;
        methods := get_stepper_method_wrapper_names X obj;
        self_t := None; self_dt := None; self_orig_t := None |}.

(** [setup_compiled_module]; the result is the object it hands to
    [self.object.set_compiled_object]. *)
Definition setup_compiled_module (module : list string) (acceleration_eval0 : Z)
    (h : IntegratorOpenCLHelper) : result OpenCLIntegrator :=
  h1 <- _setup_call_data (set_program (Some module) h) ;;
  OpenCLIntegrator_init h1 acceleration_eval0.

End Model.

Arguments AQueue {T} q.
Arguments ANone {T}.
Arguments AGlobalSize {T} n.
Arguments AGetter {T} dest_gpu field.
Arguments ABuffer {T} data.
Arguments OpStage {T} method.
Arguments OpComputeAccelerations {T}.
Arguments EvPyMeth {T} f dest extra_args.
Arguments EvGetNumberOfParticles {T} dest n.
Arguments EvGetter {T} dest_gpu field data.
Arguments EvKernel {T} call args.
Arguments EvParallelManagerUpdate {T} pm.
Arguments EvNNPSUpdate {T} nnps.

(** ** Observations on tables and logs *)

Section Observations.

Variables T W : Type.

(** The inner dict a stage reads: [table[method]], empty when missing. *)
Definition stage_items {V : Type} (method : string) (table : defaultdict V)
    : dict V :=
  match dict_get method table with
  | Some info => info
  | None => []
  end.

(** The call descriptors and the hook descriptors [_do_stage(method)]
    iterates over. *)
Definition stage_calls (method : string) (s : OpenCLIntegrator T)
    : dict (call_entry T) :=
  stage_items method (calls (helper s)).

Definition stage_py_calls (method : string) (s : OpenCLIntegrator T)
    : dict py_call_entry :=
  stage_items ("py_" ++ method) (py_calls (helper s)).

(** An argument list as [_setup_call_data] builds it: the queue, the two
    launch sizes, then one getter per field, bound to [dest]. The global
    size may hold the count of an earlier launch. *)
Definition is_getter_of (dest : string) (a : arg T) : bool :=
  match a with
  | AGetter dest_gpu _ => String.eqb dest_gpu dest
  | _ => false
  end.

Definition getter_field (a : arg T) : string :=
  match a with
  | AGetter _ x => x
  | _ => ""
  end.

Definition wf_entry (item : string * call_entry T) : bool :=
  let '(key, (_, args, dest)) := item in
  String.eqb key dest
  && match args with
     | AQueue _ :: _ :: ANone :: getters => forallb (is_getter_of dest) getters
     | _ => false
     end.

Definition wf_calls (table : defaultdict (call_entry T)) : bool :=
  forallb (fun mi => forallb wf_entry (snd mi)) table.

Definition wf_py_entry (item : string * py_call_entry) : bool :=
  String.eqb (fst item) (snd (snd item)).

Definition wf_py_calls (table : defaultdict py_call_entry) : bool :=
  forallb (fun mi => forallb wf_py_entry (snd mi)) table.

(** The tables of a runtime are as [_setup_call_data] leaves them. *)
Definition wf_runtime (s : OpenCLIntegrator T) : bool :=
  wf_calls (calls (helper s)) && wf_py_calls (py_calls (helper s)).

(** The queue and the fields of a well-formed argument list. *)
Definition args_queue (args : list (arg T)) : Z :=
  match args with
  | AQueue q :: _ => q
  | _ => 0%Z
  end.

Definition args_fields (args : list (arg T)) : list string :=
  map getter_field (skipn 3 args).

(** Projections of a log. *)
Definition hook_dests (log : list (event T)) : list string :=
  flat_map (fun e => match e with EvPyMeth _ dest _ => [dest] | _ => [] end) log.

(** The destinations kernels are launched for, in order: the destination
    of a launch is the one whose particle count was read for it. *)
Fixpoint launch_dests_from (cur : option string) (log : list (event T))
    : list string :=
  match log with
  | [] => []
  | EvGetNumberOfParticles dest _ :: log' => launch_dests_from (Some dest) log'
  | EvKernel _ _ :: log' =>
      match cur with
      | Some dest => dest :: launch_dests_from None log'
      | None => launch_dests_from None log'
      end
  | _ :: log' => launch_dests_from cur log'
  end.

Definition launch_dests (log : list (event T)) : list string :=
  launch_dests_from None log.

Definition is_launch (e : event T) : bool :=
  match e with EvKernel _ _ => true | _ => false end.

Definition is_getter_read (e : event T) : bool :=
  match e with EvGetter _ _ _ => true | _ => false end.


(** The calls and reads [_do_stage] makes. *)
Definition is_stage_event (e : event T) : bool :=
  match e with
  | EvPyMeth _ _ _ | EvGetNumberOfParticles _ _ | EvGetter _ _ _ | EvKernel _ _ => true
  | _ => false
  end.

Definition is_callback (e : event T) : bool :=
  match e with EvPostStageCallback _ _ _ _ => true | _ => false end.

Variable X : Externals T W.

(** The [dtype] of the scalar arguments of a runtime. *)
Definition scalar_dtype (s : OpenCLIntegrator T) : dtype :=
  if _use_double s then float64 else float32.

(** The events of one kernel launch for [dest] in world [w]: the count is
    read, the getters are called, the kernel is launched. *)
Definition launch_block (w : W) (call : string) (q : Z) (dest : string)
    (fields : list string) (extra_args : list (arg T)) : list (event T) :=
  let n := get_number_of_particles X w dest in
  EvGetNumberOfParticles dest n
  :: map (fun x => EvGetter dest x (dev_data X w dest x)) fields
  ++ [EvKernel call ([AQueue q; AGlobalSize n; ANone]
                     ++ map (fun x => ABuffer (dev_data X w dest x)) fields
                     ++ extra_args)].

(** The hook calls of a stage, in the order of the hook table. *)
Definition stage_hooks (extra_args : list (arg T)) (items : dict py_call_entry)
    : list (event T) :=
  map (fun it => EvPyMeth (fst (snd it)) (snd (snd it)) extra_args) items.

(** The launch blocks of a stage, in the order of the call table, each in
    the world the blocks before it leave. *)
Fixpoint stage_blocks (w : W) (extra_args : list (arg T))
    (items : dict (call_entry T)) : list (event T) :=
  match items with
  | [] => []
  | (_, (call, args, dest)) :: items' =>
      let block := launch_block w call (args_queue args) dest (args_fields args)
                                extra_args in
      block ++ stage_blocks (replay X w block) extra_args items'
  end.

(** The scalar arguments of a stage: [t] and [dt] in the precision of
    the runtime. *)
Definition stage_extra_args (s : OpenCLIntegrator T) (t dt : T) : list (arg T) :=
  [AScalar (scalar_dtype s) t; AScalar (scalar_dtype s) dt].

(** The log of [_do_stage(method)] from runtime [s] and world [w]: the
    hooks of all destinations, then the launch blocks. *)
Definition stage_log (method : string) (s : OpenCLIntegrator T) (w : W)
    (t dt : T) : list (event T) :=
  let extra_args := stage_extra_args s t dt in
  let hooks := stage_hooks extra_args (stage_py_calls method s) in
  hooks ++ stage_blocks (replay X w hooks) extra_args (stage_calls method s).

(** Every launch of a log that starts in world [w] is the launch of an
    entry of [items]; it comes right after the read of the particle count
    of the entry's destination, with only getter reads in between, and its
    global size is the count of that destination in the world of that
    moment. *)
Definition launches_read_fresh_counts (w : W) (items : dict (call_entry T))
    (log : list (event T)) : Prop :=
  forall pre call args post,
    log = pre ++ EvKernel call args :: post ->
    exists dest args0 pre' reads,
      In (dest, (call, args0, dest)) items
      /\ pre = pre'
               ++ EvGetNumberOfParticles dest
                    (get_number_of_particles X (replay X w pre) dest)
               :: reads
      /\ forallb is_getter_read reads = true
      /\ nth_error args 1
         = Some (AGlobalSize (get_number_of_particles X (replay X w pre) dest)).

(** Every launch of a log that starts in world [w] is the launch of an
    entry of [items]; the entry stores getters, one per field, and the
    launch is passed, after the queue and the two sizes and before the
    scalars, the buffers these fields have in the world of that moment. *)
Definition launches_read_current_buffers (w : W) (items : dict (call_entry T))
    (extra_args : list (arg T)) (log : list (event T)) : Prop :=
  forall pre call args post,
    log = pre ++ EvKernel call args :: post ->
    exists dest args0 fields,
      In (dest, (call, args0, dest)) items
      /\ skipn 3 args0 = map (AGetter dest) fields
      /\ skipn 3 args
         = map (fun x => ABuffer (dev_data X (replay X w pre) dest x)) fields
           ++ extra_args.

(** Every entry of [items] is launched in a log that starts in world [w]:
    the particle count of its destination is read, then getters only, then
    its kernel is launched, and the global size of the launch is the count
    the destination has in the world of that moment. *)
Definition entries_launch_fresh_counts (w : W) (items : dict (call_entry T))
    (log : list (event T)) : Prop :=
  forall name call args dest,
    In (name, (call, args, dest)) items ->
    exists pre reads args' post,
      let n := get_number_of_particles X (replay X w pre) dest in
      log = pre ++ EvGetNumberOfParticles dest n
            :: reads ++ EvKernel call args' :: post
      /\ forallb is_getter_read reads = true
      /\ nth_error args' 1 = Some (AGlobalSize n).

(** Every entry of [items] is launched in a log that starts in world [w]:
    each getter the entry stores is called right before the launch and
    returns the buffer its field has in the world of that moment, and the
    launch is passed these buffers, after the queue and the two sizes and
    before the scalars. *)
Definition entries_launch_current_buffers (w : W) (items : dict (call_entry T))
    (extra_args : list (arg T)) (log : list (event T)) : Prop :=
  forall name call args dest,
    In (name, (call, args, dest)) items ->
    exists fields pre n args' post,
      let w1 := replay X w pre in
      skipn 3 args = map (AGetter dest) fields
      /\ log = pre ++ EvGetNumberOfParticles dest n
               :: map (fun x => EvGetter dest x (dev_data X w1 dest x)) fields
               ++ EvKernel call args' :: post
      /\ skipn 3 args'
         = map (fun x => ABuffer (dev_data X w1 dest x)) fields ++ extra_args.

(** The statements of a timestep procedure run in order: each statement
    is the call of the method it names, made in the runtime and the world
    the statements before it left, and the log is the calls of the
    statements, one after the other. [self.<method>()] is [_do_stage] of
    a name [_setup_methods] has bound. *)
Inductive runs_in_order (t dt : T)
    : list (op T) -> OpenCLIntegrator T -> W
      -> OpenCLIntegrator T -> W -> list (event T) -> Prop :=
| run_end : forall s w, runs_in_order t dt [] s w s w []
| run_stage : forall method ops s w s1 w1 log1 s' w' log,
    In method (methods s) ->
    _do_stage X method s w = Ok (s1, w1, log1) ->
    runs_in_order t dt ops s1 w1 s' w' log ->
    runs_in_order t dt (OpStage method :: ops) s w s' w' (log1 ++ log)
| run_compute_accelerations : forall ops s w s1 w1 log1 s' w' log,
    compute_accelerations X s w = Ok (s1, w1, log1) ->
    runs_in_order t dt ops s1 w1 s' w' log ->
    runs_in_order t dt (OpComputeAccelerations :: ops) s w s' w' (log1 ++ log)
| run_do_post_stage : forall stage_dt stage ops s w s1 w1 log1 s' w' log,
    do_post_stage X (stage_dt t dt) stage s w = Ok (s1, w1, log1) ->
    runs_in_order t dt ops s1 w1 s' w' log ->
    runs_in_order t dt (OpDoPostStage stage_dt stage :: ops) s w s' w'
                  (log1 ++ log).

(** The states a runtime goes through after setup: its public methods,
    called in any order, each from any state of the collaborators. *)
Inductive reachable (s0 : OpenCLIntegrator T) : OpenCLIntegrator T -> Prop :=
| reach_setup : reachable s0 s0
| reach_set_nnps : forall s v,
    reachable s0 s -> reachable s0 (set_nnps v s)
| reach_set_parallel_manager : forall s v,
    reachable s0 s -> reachable s0 (set_parallel_manager v s)
| reach_set_post_stage_callback : forall s v,
    reachable s0 s -> reachable s0 (set_post_stage_callback v s)
| reach_compute_accelerations : forall s w s' w' log,
    reachable s0 s -> compute_accelerations X s w = Ok (s', w', log) ->
    reachable s0 s'
| reach_do_stage : forall s method w s' w' log,
    reachable s0 s -> _do_stage X method s w = Ok (s', w', log) ->
    reachable s0 s'
| reach_do_post_stage : forall s stage_dt stage w s' w' log,
    reachable s0 s -> do_post_stage X stage_dt stage s w = Ok (s', w', log) ->
    reachable s0 s'
| reach_step : forall s t dt w s' w' log,
    reachable s0 s -> step X t dt s w = Ok (s', w', log) ->
    reachable s0 s'.


(** The integrator with another body of [one_timestep]. *)
Definition set_one_timestep (ops : list (op T)) (obj : Integrator T)
    : Integrator T :=
  {| steppers := steppers obj; integrator_one_timestep := ops |}.

Definition set_object (v : option (Integrator T)) (h : IntegratorOpenCLHelper T)
    : IntegratorOpenCLHelper T :=
  {| object := v; acceleration_eval_helper := acceleration_eval_helper h;
     py_data := py_data h; data := data h; py_calls := py_calls h;
     calls := calls h; program := program h |}.

(** The keys of every inner dict are in increasing order. *)
Definition dd_sorted {V : Type} (dd : defaultdict V) : Prop :=
  forall m, StronglySorted str_lt (keys (stage_items m dd)).

(** No key of an inner dict is above a name of [rest]. *)
Definition dd_below {V : Type} (dd : defaultdict V) (rest : list string) : Prop :=
  forall m k, In k (keys (stage_items m dd)) -> Forall (str_le k) rest.

(** What the loops of [get_code] keep, [rest] being the destinations from
    the current one on: the tables of the helper [h0] it started from are
    untouched, and [data] and [py_data] are filled in increasing order of
    destination. *)
Definition generation_invariant (h0 h : IntegratorOpenCLHelper T)
    (rest : list string) : Prop :=
  (object h = object h0
   /\ acceleration_eval_helper h = acceleration_eval_helper h0
   /\ calls h = calls h0
   /\ py_calls h = py_calls h0
   /\ program h = program h0)
  /\ (dd_sorted (data h) /\ dd_below (data h) rest /\ NoDup (keys (data h)))
  /\ (dd_sorted (py_data h) /\ dd_below (py_data h) rest
      /\ NoDup (keys (py_data h))).

(** Two runtimes agree on every attribute but [t] and the helper. *)
Definition same_context (s s' : OpenCLIntegrator T) : Prop :=
  acceleration_eval s' = acceleration_eval s
  /\ nnps s' = nnps s
  /\ parallel_manager s' = parallel_manager s
  /\ _post_stage_callback s' = _post_stage_callback s
  /\ _use_double s' = _use_double s
  /\ one_timestep s' = one_timestep s
  /\ methods s' = methods s
  /\ self_dt s' = self_dt s
  /\ self_orig_t s' = self_orig_t s.

(** Two helpers agree on everything but the two call tables. *)
Definition same_helper_data (h h' : IntegratorOpenCLHelper T) : Prop :=
  object h' = object h
  /\ acceleration_eval_helper h' = acceleration_eval_helper h
  /\ py_data h' = py_data h
  /\ data h' = data h
  /\ program h' = program h.

End Observations.

(** ** A concrete configuration

    Two particle arrays, [fluid] and [boundary], stepped by the same class;
    [fluid] has an [initialize] method, a host hook for [stage1] and a
    second stage. Host floats
    are integers; the world is a pair of counters that the hooks and the
    kernels move, so that particle counts and buffer addresses change
    while a step runs. *)

Module Demo.

Definition world : Type := (Z * Z)%type.

Definition demo_effect (e : event Z) (w : world) : world :=
  match e with
  | EvPyMeth _ _ _ => (fst w + 10, snd w)%Z
  | EvKernel _ _ => (fst w + 1, snd w + 1)%Z
  | _ => w
  end.

(** The methods of a stepper that are wrapped: [initialize] and the
    attributes that start with [stage]. *)
Definition is_stage (name : string) : bool :=
  String.eqb name "initialize" || String.prefix "stage" name.

(** The names come from the steppers: a name no stepper defines is not
    listed, [initialize] included. *)
Definition demo_wrapper_names (obj : Integrator Z) : list string :=
  sorted (nodup string_dec
            (flat_map (fun s => filter is_stage (attrs s))
                      (values (steppers obj)))).

Definition demo_has_stepper_loop (obj : Integrator Z) (dest method : string) : bool :=
  match dict_get dest (steppers obj) with
  | Some stepper => hasattr stepper method
  | None => false
  end.

Definition is_dest_array (x : string) : bool :=
  String.prefix "d_" x && negb (String.eqb x "d_idx").

Definition is_src_array (x : string) : bool :=
  String.prefix "s_" x && negb (String.eqb x "s_idx").

Definition ext : Externals Z world :=
  {| get_number_of_particles := fun w dest => (fst w + Z.of_nat (String.length dest))%Z;
     dev_data := fun w dest x =>
       (1000 * snd w + 10 * Z.of_nat (String.length dest)
        + Z.of_nat (String.length x))%Z;
     call_effect := demo_effect;
     float_add := Z.add;
     use_double := true;
     get_stepper_method_wrapper_names := demo_wrapper_names;
     has_stepper_loop := demo_has_stepper_loop;
     get_args := fun _ _ _ => ["self"; "d_idx"; "d_x"; "d_u"; "dt"];
     get_array_names := fun args => (filter is_src_array args, filter is_dest_array args);
     _get_typed_args := fun l => l;
     get_kernel_definition := fun kernel args =>
       ("__kernel void " ++ kernel ++ "(" ++ join ", " args ++ ")")%string;
     wrap_code := fun code => [code];
     parse_instance := fun _ stepper => ("// " ++ cls_name stepper)%string |}.

Definition fluid_stepper : Stepper :=
  {| cls_name := "EulerStep";
     attrs := ["initialize"; "py_stage1"; "stage1"; "stage2"] |}.

Definition boundary_stepper : Stepper :=
  {| cls_name := "EulerStep"; attrs := ["stage1"] |}.

Definition timestep : list (op Z) :=
  [OpStage "initialize"; OpComputeAccelerations; OpStage "stage1";
   OpDoPostStage (fun _ dt => dt) 1; OpStage "stage2";
   OpDoPostStage (fun _ dt => dt) 2].

Definition integrator : Integrator Z :=
  {| steppers := [("fluid", fluid_stepper); ("boundary", boundary_stepper)];
     integrator_one_timestep := timestep |}.

Definition aeh : AccelerationEvalHelper :=
  {| _array_map := ["fluid"; "boundary"]; _queue := 7; known_types := [] |}.

Definition module : list string :=
  ["initialize_fluid"; "stage1_boundary"; "stage1_fluid"; "stage2_fluid"].

Definition helper0 : IntegratorOpenCLHelper Z := helper_init (Some integrator) aeh.

(** The helper after [get_code], or the fresh one if that failed. *)
Definition helper1 : IntegratorOpenCLHelper Z :=
  match get_code ext helper0 with
  | Ok (h, _) => h
  | Raise _ => helper0
  end.

(** The runtime [setup_compiled_module] builds, with a spatial index set. *)
Definition runtime (h : IntegratorOpenCLHelper Z) : OpenCLIntegrator Z :=
  match setup_compiled_module ext module 3 h with
  | Ok s => set_nnps 5 s
  | Raise _ =>
      {| helper := h; acceleration_eval := 3; nnps := None;
         parallel_manager := None; _post_stage_callback := None;
         _use_double := true; one_timestep := []; methods := [];
         self_t := None; self_dt := None; self_orig_t := None |}
  end.

Definition runtime1 : OpenCLIntegrator Z := runtime helper1.

(** The same helper for a timestep procedure that runs [stage9], a stage
    no stepper has, after [stage1]. *)
Definition helper9 : IntegratorOpenCLHelper Z :=
  set_object (Some (set_one_timestep [OpStage "stage1"; OpStage "stage9"] integrator))
             helper1.

(** The runtime inside a step that started at [t = 0] with [dt = 1]. *)
Definition running : OpenCLIntegrator Z :=
  set_dt 1%Z (set_t 0%Z (set_orig_t 0%Z runtime1)).

(** The same with a post-stage callback and a domain manager. *)
Definition running_with_callback : OpenCLIntegrator Z :=
  set_post_stage_callback 9 (set_parallel_manager 4 running).

Definition world0 : world := (0, 0)%Z.

(** Particles are added and buffers are reallocated. *)
Definition grow (w : world) : world := (fst w + 100, snd w + 100)%Z.

End Demo.

(** ** Observations on timestep procedures *)

Section Programs.

Variable T : Type.

Definition op_is_compute (o : op T) : bool :=
  match o with OpComputeAccelerations => true | _ => false end.

Definition op_is_post_stage (o : op T) : bool :=
  match o with OpDoPostStage _ _ => true | _ => false end.

(** The stage a statement runs is one [_setup_methods] has bound. *)
Definition op_stage_bound (names : list string) (o : op T) : bool :=
  match o with
  | OpStage method => existsb (String.eqb method) names
  | _ => true
  end.

Definition stages_bound (names : list string) (ops : list (op T)) : bool :=
  forallb (op_stage_bound names) ops.

Definition is_compute_event (e : event T) : bool :=
  match e with EvCompute _ _ _ => true | _ => false end.

Definition is_nnps_event (e : event T) : bool :=
  match e with EvNNPSUpdate _ => true | _ => false end.

Definition is_parallel_manager_event (e : event T) : bool :=
  match e with EvParallelManagerUpdate _ => true | _ => false end.

(** How many elements of a list pass a test. *)
Definition count {A : Type} (p : A -> bool) (l : list A) : nat :=
  List.length (filter p l).

(** The scalars at the end of the argument list of a launch. *)
Definition last_two {A : Type} (l : list A) : list A :=
  skipn (List.length l - 2) l.

(** A call descriptor with the slot of the global size emptied: what a
    launch does not rewrite. *)
Definition call_shape (c : call_entry T) : call_entry T :=
  let '(call, args, dest) := c in
  (call,
   match args with
   | a0 :: _ :: rest => a0 :: ANone :: rest
   | _ => args
   end,
   dest).

(** Every call descriptor of [s] is one of [s0], up to the global size. *)
Definition shapes_from (s0 s : OpenCLIntegrator T) : Prop :=
  forall method name c,
    In (name, c) (stage_calls method s) ->
    exists c0, In (name, c0) (stage_calls method s0)
               /\ call_shape c = call_shape c0.

End Programs.

(** ** Observations on code generation *)

Section GenerationObservations.

Variables T W : Type.
Variable X : Externals T W.

(** The entry [get_stepper_kernel(dest, method)] stores in
    [data[method][dest]]. *)
Definition kernel_entry (obj : Integrator T) (dest method : string)
    : string * list string :=
  ((method ++ "_" ++ dest)%string,
   snd (get_array_names X (stepper_kernel_args X obj dest method))).

(** The call descriptor [_setup_call_data] makes of an entry of [data]. *)
Definition call_descriptor (q : Z) (dest : string) (e : string * list string)
    : call_entry T :=
  (fst e,
   AQueue q :: ANone :: ANone :: map (fun x => AGetter dest (str_drop 2 x)) (snd e),
   dest).

(** A sequence of assignments [dd[m][k] = v]. *)
Definition apply_writes {V : Type} (ws : list (string * string * V))
    (dd : defaultdict V) : defaultdict V :=
  fold_left (fun dd w => dd_setitem (fst (fst w)) (snd (fst w)) (snd w) dd) ws dd.

(** Every assignment of a sequence stores the value [g] gives its keys. *)
Definition canonical_writes {V : Type} (g : string -> string -> V)
    (ws : list (string * string * V)) : Prop :=
  forall w, In w ws -> snd w = g (fst (fst w)) (snd (fst w)).

(** The helper after assignments to [data] and to [py_data]. *)
Definition upd_tables (wd : list (string * string * (string * list string)))
    (wp : list (string * string * string)) (h : IntegratorOpenCLHelper T)
    : IntegratorOpenCLHelper T :=
  set_data (apply_writes wd (data h)) (set_py_data (apply_writes wp (py_data h)) h).

(** [get_code] as a sequence of assignments and a text, statement by
    statement of its template: what one pass of the inner loop assigns to
    [data] and to [py_data] and what it prints, then the same for one pass
    of the outer loop and for the whole template. *)
Definition method_data_writes (obj : Integrator T) (dest method : string)
    : list (string * string * (string * list string)) :=
  if has_stepper_loop X obj dest method
  then [(method, dest, kernel_entry obj dest method)]
  else [].

Definition method_py_writes (obj : Integrator T) (dest method : string)
    : list (string * string * string) :=
  match dict_get dest (steppers obj) with
  | Some stepper =>
      if hasattr stepper ("py_" ++ method)
      then [(("py_" ++ method)%string, dest, dest)]
      else []
  | None => []
  end.

(** The text [get_stepper_kernel(dest, method)] returns. *)
Definition kernel_text (obj : Integrator T) (dest method : string) : string :=
  let args := stepper_kernel_args X obj dest method in
  let d := snd (get_array_names X args) in
  (get_kernel_definition X (method ++ "_" ++ dest) (_get_typed_args X (d ++ ["t"; "dt"]))
   ++ newline ++ "{" ++ newline
   ++ stepper_kernel_body X (stepper_cls obj dest) method args
   ++ newline ++ "}" ++ newline)%string.

Definition method_piece (obj : Integrator T) (dest method : string) : string :=
  (newline ++ (if has_stepper_loop X obj dest method
               then kernel_text obj dest method ++ newline
               else ""))%string.

(** Pieces of text, one after the other. *)
Definition pieces (l : list string) : string :=
  fold_right String.append EmptyString l.

Definition dest_data_writes (obj : Integrator T) (dest : string)
    : list (string * string * (string * list string)) :=
  flat_map (method_data_writes obj dest) (get_stepper_method_wrapper_names X obj).

Definition dest_py_writes (obj : Integrator T) (dest : string)
    : list (string * string * string) :=
  flat_map (method_py_writes obj dest) (get_stepper_method_wrapper_names X obj).

Definition dest_piece (obj : Integrator T) (dest : string) : string :=
  ("// Steppers for " ++ dest ++ newline
   ++ pieces (map (method_piece obj dest) (get_stepper_method_wrapper_names X obj)))%string.

Definition code_data_writes (obj : Integrator T)
    : list (string * string * (string * list string)) :=
  flat_map (dest_data_writes obj) (sorted (keys (steppers obj))).

Definition code_py_writes (obj : Integrator T) : list (string * string * string) :=
  flat_map (dest_py_writes obj) (sorted (keys (steppers obj))).

Definition code_text (obj : Integrator T) (known : list (string * string)) : string :=
  ((newline ++ rule ++ newline
    ++ "// Integrator steppers." ++ newline
    ++ join newline (map (parse_instance X known) (parsed_instances (steppers obj)))
    ++ newline ++ newline
    ++ rule ++ newline)
   ++ pieces (map (dest_piece obj) (sorted (keys (steppers obj))))
   ++ rule ++ newline)%string.

(** What [setup_compiled_module] looks up for generated code: the array of
    every destination with a kernel or a hook, and every kernel. *)
Definition setup_ready (obj : Integrator T) (array_map module : list string)
    : Prop :=
  forall dest method,
    In dest (keys (steppers obj)) ->
    In method (get_stepper_method_wrapper_names X obj) ->
    (has_stepper_loop X obj dest method = true ->
     In dest array_map /\ In (method ++ "_" ++ dest)%string module)
    /\ (forall stepper,
           dict_get dest (steppers obj) = Some stepper ->
           hasattr stepper ("py_" ++ method) = true ->
           In dest array_map).

End GenerationObservations.

(** * Properties *)

(** ** Exceptions *)

Lemma bind_ok (A B : Type) (r : result A) (k : A -> result B) (b : B) :
  bind r k = Ok b -> exists a, r = Ok a /\ k a = Ok b.
Proof.
  destruct r as [a|e]; simpl; intros H; [eauto | discriminate].
Qed.

(** ** The order of [sorted] *)

Lemma str_le_refl (a : string) : str_le a a.
Proof.
  unfold str_le, String.leb.
  destruct (String.compare a a) eqn:E; try reflexivity.
  pose proof (String.compare_antisym a a) as H. rewrite E in H. discriminate.
Qed.

Lemma str_le_total (a b : string) : str_le a b \/ str_le b a.
Proof. apply String.leb_total. Qed.

Lemma str_le_trans (a b c : string) : str_le a b -> str_le b c -> str_le a c.
Proof.
  unfold str_le, String.leb. revert b c.
  induction a as [|x a IH]; intros [|y b] [|z c]; simpl; try congruence.
  unfold Ascii.compare.
  destruct (N.compare_spec (N_of_ascii x) (N_of_ascii y)) as [Hxy|Hxy|Hxy];
    destruct (N.compare_spec (N_of_ascii y) (N_of_ascii z)) as [Hyz|Hyz|Hyz];
    destruct (N.compare_spec (N_of_ascii x) (N_of_ascii z)) as [Hxz|Hxz|Hxz];
    try congruence; try lia.
  apply IH.
Qed.

Lemma str_lt_le (a b : string) : str_lt a b -> str_le a b.
Proof.
  unfold str_lt, str_le, String.ltb, String.leb.
  destruct (String.compare a b); congruence.
Qed.

Lemma str_le_neq_lt (a b : string) : str_le a b -> a <> b -> str_lt a b.
Proof.
  unfold str_lt, str_le, String.ltb, String.leb. intros H Hne.
  destruct (String.compare a b) eqn:E; try congruence.
  apply String.compare_eq_iff in E. contradiction.
Qed.

Lemma str_lt_irrefl (a : string) : ~ str_lt a a.
Proof.
  unfold str_lt, String.ltb. intros H.
  destruct (String.compare a a) eqn:E; try discriminate.
  pose proof (String.compare_antisym a a) as H1. rewrite E in H1. discriminate.
Qed.

Lemma insort_sorted (x : string) (l : list string) :
  StronglySorted str_le l -> StronglySorted str_le (insort x l).
Proof.
  induction l as [|y l IH]; simpl; intros Hl.
  - constructor; constructor.
  - destruct (String.leb x y) eqn:E.
    + constructor; [exact Hl|]. constructor; [exact E|].
      inversion Hl; subst.
      eapply Forall_impl; [|eassumption].
      intros z Hz. eapply str_le_trans; eassumption.
    + inversion Hl; subst. constructor; [now apply IH|].
      assert (Hyx : str_le y x).
      { destruct (str_le_total x y) as [H|H]; [unfold str_le in H; congruence | exact H]. }
      clear IH Hl H1. induction l as [|z l IHl]; simpl.
      * constructor; [exact Hyx | constructor].
      * inversion H2; subst. destruct (String.leb x z).
        -- constructor; [exact Hyx|]. constructor; assumption.
        -- constructor; [assumption | now apply IHl].
Qed.

Lemma sorted_sorted (l : list string) : StronglySorted str_le (sorted l).
Proof.
  induction l as [|x l IH]; simpl; [constructor | now apply insort_sorted].
Qed.

Lemma insort_perm (x : string) (l : list string) : Permutation (x :: l) (insort x l).
Proof.
  induction l as [|y l IH]; simpl; [reflexivity|].
  destruct (String.leb x y); [reflexivity|].
  rewrite perm_swap. now constructor.
Qed.

Lemma sorted_perm (l : list string) : Permutation l (sorted l).
Proof.
  induction l as [|x l IH]; simpl; [constructor|].
  rewrite <- insort_perm. now constructor.
Qed.

Lemma sorted_lt_app (l : list string) (x : string) :
  StronglySorted str_lt l -> Forall (fun k => str_lt k x) l ->
  StronglySorted str_lt (l ++ [x]).
Proof.
  induction l as [|y l IH]; simpl; intros Hl Hx.
  - constructor; constructor.
  - inversion Hl; subst. inversion Hx; subst.
    constructor; [now apply IH|].
    apply Forall_app. split; [assumption | constructor; [assumption | constructor]].
Qed.

Lemma sorted_lt_NoDup (l : list string) : StronglySorted str_lt l -> NoDup l.
Proof.
  induction 1 as [|x l Hl IH Hx]; constructor; [|exact IH].
  intros Hin. rewrite Forall_forall in Hx.
  apply (str_lt_irrefl (Hx _ Hin)).
Qed.

(** ** Dictionaries *)

Section DictFacts.

Variable V : Type.

Lemma dict_get_set_same (k : string) (v : V) (d : dict V) :
  dict_get k (dict_set k v d) = Some v.
Proof.
  induction d as [|[k' v'] d IH]; simpl.
  - now rewrite String.eqb_refl.
  - destruct (String.eqb k k') eqn:E; simpl.
    + now rewrite String.eqb_refl.
    + now rewrite E.
Qed.

Lemma dict_get_set_other (k k' : string) (v : V) (d : dict V) :
  k' <> k -> dict_get k' (dict_set k v d) = dict_get k' d.
Proof.
  intros Hne. induction d as [|[k0 v0] d IH]; simpl.
  - apply String.eqb_neq in Hne. now rewrite Hne.
  - destruct (String.eqb k k0) eqn:E; simpl.
    + apply String.eqb_eq in E. subst k0.
      apply String.eqb_neq in Hne. now rewrite Hne.
    + destruct (String.eqb k' k0); [reflexivity | exact IH].
Qed.

Lemma dict_get_In (k : string) (v : V) (d : dict V) :
  dict_get k d = Some v -> In (k, v) d.
Proof.
  induction d as [|[k' v'] d IH]; simpl; [discriminate|].
  destruct (String.eqb k k') eqn:E.
  - apply String.eqb_eq in E. intros H. inversion H; subst. now left.
  - intros H. right. now apply IH.
Qed.

Lemma dict_get_None (k : string) (d : dict V) :
  dict_get k d = None <-> ~ In k (keys d).
Proof.
  induction d as [|[k' v'] d IH]; simpl.
  - tauto.
  - destruct (String.eqb k k') eqn:E.
    + apply String.eqb_eq in E. subst. split; [discriminate | intros H; exfalso; auto].
    + apply String.eqb_neq in E. rewrite IH. split.
      * intros H [H1|H1]; [congruence | auto].
      * intros H H1. apply H. now right.
Qed.

Lemma dict_get_Some_keys (k : string) (v : V) (d : dict V) :
  dict_get k d = Some v -> In k (keys d).
Proof.
  intros H. apply dict_get_In in H. unfold keys.
  change k with (fst (k, v)). now apply in_map.
Qed.

Lemma keys_dict_set_in (k : string) (v : V) (d : dict V) :
  In k (keys d) -> keys (dict_set k v d) = keys d.
Proof.
  induction d as [|[k' v'] d IH]; simpl; [tauto|].
  destruct (String.eqb k k') eqn:E; simpl.
  - apply String.eqb_eq in E. now subst.
  - intros [H|H].
    + apply String.eqb_neq in E. congruence.
    + f_equal. now apply IH.
Qed.

Lemma dict_set_notin (k : string) (v : V) (d : dict V) :
  ~ In k (keys d) -> dict_set k v d = d ++ [(k, v)].
Proof.
  induction d as [|[k' v'] d IH]; simpl; [reflexivity|].
  intros H. destruct (String.eqb k k') eqn:E.
  - apply String.eqb_eq in E. subst. exfalso. apply H. now left.
  - f_equal. apply IH. intros H1. apply H. now right.
Qed.

Lemma in_dict_set (k k' : string) (v v' : V) (d : dict V) :
  In (k', v') (dict_set k v d) -> (k' = k /\ v' = v) \/ In (k', v') d.
Proof.
  induction d as [|[k0 v0] d IH]; simpl.
  - intros [H|[]]. inversion H. now left.
  - destruct (String.eqb k k0) eqn:E; simpl.
    + intros [H|H]; [inversion H; now left | right; now right].
    + intros [H|H]; [right; now left|].
      destruct (IH H) as [H1|H1]; [now left | right; now right].
Qed.

Lemma forallb_dict_set (P : string * V -> bool) (k : string) (v : V) (d : dict V) :
  P (k, v) = true -> forallb P d = true -> forallb P (dict_set k v d) = true.
Proof.
  intros Hk Hd. apply forallb_forall. intros [k' v'] Hin.
  apply in_dict_set in Hin. destruct Hin as [[-> ->]|Hin]; [exact Hk|].
  rewrite forallb_forall in Hd. now apply Hd.
Qed.

Lemma dict_get_app_in (k : string) (d d' : dict V) :
  In k (keys d) -> dict_get k (d ++ d') = dict_get k d.
Proof.
  induction d as [|[k0 v0] d IH]; simpl; [tauto|].
  destruct (String.eqb k k0) eqn:E; [reflexivity|].
  intros [H|H]; [apply String.eqb_neq in E; congruence | now apply IH].
Qed.

Lemma dict_get_app_notin (k : string) (d d' : dict V) :
  ~ In k (keys d) -> dict_get k (d ++ d') = dict_get k d'.
Proof.
  induction d as [|[k0 v0] d IH]; simpl; [reflexivity|].
  intros H. destruct (String.eqb k k0) eqn:E.
  - apply String.eqb_eq in E. subst. exfalso. apply H. now left.
  - apply IH. intros H1. apply H. now right.
Qed.

Lemma in_keys_dict_set (k k' : string) (v : V) (d : dict V) :
  In k' (keys (dict_set k v d)) <-> k' = k \/ In k' (keys d).
Proof.
  induction d as [|[k0 v0] d IH]; simpl.
  - intuition.
  - destruct (String.eqb k k0) eqn:E; simpl.
    + apply String.eqb_eq in E. subst. intuition.
    + rewrite IH. intuition.
Qed.

Lemma NoDup_keys_dict_set (k : string) (v : V) (d : dict V) :
  NoDup (keys d) -> NoDup (keys (dict_set k v d)).
Proof.
  intros H. destruct (in_dec string_dec k (keys d)) as [Hin|Hout].
  - now rewrite keys_dict_set_in.
  - rewrite dict_set_notin by exact Hout. unfold keys in *. rewrite map_app. simpl.
    apply NoDup_app; [exact H | repeat constructor; auto |].
    intros x Hx [<-|[]]. contradiction.
Qed.

Lemma dict_get_of_In_NoDup (k : string) (v : V) (d : dict V) :
  NoDup (keys d) -> In (k, v) d -> dict_get k d = Some v.
Proof.
  induction d as [|[k0 v0] d IH]; simpl; intros Hnd Hin; [contradiction|].
  inversion Hnd as [|? ? Hk Hnd']; subst.
  destruct Hin as [Heq|Hin].
  - inversion Heq; subst. now rewrite String.eqb_refl.
  - destruct (String.eqb k k0) eqn:E.
    + apply String.eqb_eq in E. subst. exfalso. apply Hk.
      unfold keys. change k0 with (fst (k0, v)). now apply in_map.
    + now apply IH.
Qed.

Lemma dict_get_of_key (k : string) (d : dict V) :
  In k (keys d) -> exists v, dict_get k d = Some v.
Proof.
  intros H. destruct (dict_get k d) eqn:E; [eauto|].
  apply dict_get_None in E. contradiction.
Qed.

End DictFacts.

(** ** [defaultdict(dict)] *)

Section DefaultDictFacts.

Variable V : Type.

Lemma dd_getitem_fst (m : string) (dd : defaultdict V) :
  fst (dd_getitem m dd) = stage_items m dd.
Proof.
  unfold dd_getitem, stage_items. now destruct (dict_get m dd).
Qed.

Lemma stage_items_dd_getitem (m m' : string) (dd : defaultdict V) :
  stage_items m' (snd (dd_getitem m dd)) = stage_items m' dd.
Proof.
  unfold dd_getitem, stage_items. destruct (dict_get m dd) eqn:E; simpl.
  - reflexivity.
  - destruct (dict_get m' dd) eqn:E'.
    + rewrite dict_get_app_in by (eapply dict_get_Some_keys; eassumption).
      now rewrite E'.
    + rewrite dict_get_app_notin by (now apply dict_get_None).
      simpl. now destruct (String.eqb m' m).
Qed.

Lemma in_dd_getitem (m m' : string) (i : dict V) (dd : defaultdict V) :
  In (m', i) (snd (dd_getitem m dd)) -> In (m', i) dd \/ i = [].
Proof.
  unfold dd_getitem. destruct (dict_get m dd); simpl.
  - now left.
  - intros H. apply in_app_or in H. destruct H as [H|[H|[]]].
    + now left.
    + inversion H. now right.
Qed.

Lemma dd_setitem_eq (m k : string) (v : V) (dd : defaultdict V) :
  dd_setitem m k v dd
  = dict_set m (dict_set k v (stage_items m dd)) (snd (dd_getitem m dd)).
Proof.
  unfold dd_setitem. rewrite <- dd_getitem_fst.
  now destruct (dd_getitem m dd).
Qed.

Lemma stage_items_setitem_same (m k : string) (v : V) (dd : defaultdict V) :
  stage_items m (dd_setitem m k v dd) = dict_set k v (stage_items m dd).
Proof.
  rewrite dd_setitem_eq. unfold stage_items at 1.
  now rewrite dict_get_set_same.
Qed.

Lemma stage_items_setitem_other (m m' k : string) (v : V) (dd : defaultdict V) :
  m' <> m -> stage_items m' (dd_setitem m k v dd) = stage_items m' dd.
Proof.
  intros Hne. rewrite dd_setitem_eq. unfold stage_items at 1.
  rewrite dict_get_set_other by exact Hne.
  fold (stage_items m' (snd (dd_getitem m dd))).
  apply stage_items_dd_getitem.
Qed.

Lemma in_dd_setitem (m k m' : string) (v : V) (i : dict V) (dd : defaultdict V) :
  In (m', i) (dd_setitem m k v dd) ->
  (m' = m /\ i = dict_set k v (stage_items m dd)) \/ In (m', i) dd \/ i = [].
Proof.
  rewrite dd_setitem_eq. intros H. apply in_dict_set in H.
  destruct H as [H|H]; [now left | right; eapply in_dd_getitem; eassumption].
Qed.

Lemma stage_items_In (m : string) (dd : defaultdict V) :
  stage_items m dd = [] \/ In (m, stage_items m dd) dd.
Proof.
  unfold stage_items. destruct (dict_get m dd) eqn:E; [right | now left].
  now apply dict_get_In.
Qed.

(** A property of every inner dict is kept by [dd[m][k] = v]. *)
Lemma forallb_dd_setitem (P : string * V -> bool) (m k : string) (v : V)
    (dd : defaultdict V) :
  P (k, v) = true ->
  forallb (fun mi => forallb P (snd mi)) dd = true ->
  forallb (fun mi => forallb P (snd mi)) (dd_setitem m k v dd) = true.
Proof.
  intros Hk Hd. apply forallb_forall. intros [m' i] Hin. simpl.
  rewrite forallb_forall in Hd.
  apply in_dd_setitem in Hin. destruct Hin as [[-> ->]|[Hin| ->]].
  - apply forallb_dict_set; [exact Hk|].
    destruct (stage_items_In m dd) as [-> | H]; [reflexivity|].
    apply (Hd _ H).
  - apply (Hd _ Hin).
  - reflexivity.
Qed.

Lemma forallb_dd_getitem (P : string * V -> bool) (m : string)
    (dd : defaultdict V) :
  forallb (fun mi => forallb P (snd mi)) dd = true ->
  forallb (fun mi => forallb P (snd mi)) (snd (dd_getitem m dd)) = true.
Proof.
  intros Hd. apply forallb_forall. intros [m' i] Hin. simpl.
  rewrite forallb_forall in Hd.
  apply in_dd_getitem in Hin. destruct Hin as [Hin| ->]; [apply (Hd _ Hin) | reflexivity].
Qed.

Lemma forallb_stage_items (P : string * V -> bool) (m : string)
    (dd : defaultdict V) :
  forallb (fun mi => forallb P (snd mi)) dd = true ->
  forallb P (stage_items m dd) = true.
Proof.
  intros Hd. rewrite forallb_forall in Hd.
  destruct (stage_items_In m dd) as [-> | H]; [reflexivity | apply (Hd _ H)].
Qed.

Lemma NoDup_keys_dd_setitem (m k : string) (v : V) (dd : defaultdict V) :
  NoDup (keys dd) -> NoDup (keys (dd_setitem m k v dd)).
Proof.
  intros H. rewrite dd_setitem_eq. apply NoDup_keys_dict_set.
  unfold dd_getitem. destruct (dict_get m dd) eqn:E; simpl; [exact H|].
  apply dict_get_None in E. unfold keys in *. rewrite map_app. simpl.
  apply NoDup_app; [exact H | repeat constructor; auto |].
  intros x Hx [<-|[]]. contradiction.
Qed.

Lemma stage_items_setitem (m m' k : string) (v : V) (dd : defaultdict V) :
  stage_items m' (dd_setitem m k v dd)
  = if string_dec m' m then dict_set k v (stage_items m dd) else stage_items m' dd.
Proof.
  destruct (string_dec m' m) as [->|Hne].
  - apply stage_items_setitem_same.
  - now apply stage_items_setitem_other.
Qed.

(** Writing [dd[m][d]] for the least of the remaining names keeps the
    inner dicts sorted. *)
Lemma dd_sorted_below_setitem (m d : string) (v : V) (dd : defaultdict V)
    (rest : list string) :
  dd_sorted dd -> dd_below dd (d :: rest) -> StronglySorted str_le (d :: rest) ->
  dd_sorted (dd_setitem m d v dd) /\ dd_below (dd_setitem m d v dd) (d :: rest).
Proof.
  intros Hs Hb Hrest.
  assert (Hd : Forall (str_le d) (d :: rest)).
  { constructor; [apply str_le_refl|]. now inversion Hrest. }
  split.
  - intros m'. rewrite stage_items_setitem.
    destruct (string_dec m' m) as [->|Hne]; [|apply Hs].
    destruct (in_dec string_dec d (keys (stage_items m dd))) as [Hin|Hout].
    + rewrite keys_dict_set_in by exact Hin. apply Hs.
    + rewrite dict_set_notin by exact Hout. unfold keys. rewrite map_app.
      apply sorted_lt_app; [apply Hs|].
      apply Forall_forall. intros k Hk.
      apply str_le_neq_lt.
      * specialize (Hb m k Hk). now inversion Hb.
      * intros ->. contradiction.
  - intros m' k Hk. rewrite stage_items_setitem in Hk.
    destruct (string_dec m' m) as [->|Hne]; [|eapply Hb; eassumption].
    apply in_keys_dict_set in Hk. destruct Hk as [->|Hk]; [exact Hd|].
    eapply Hb; eassumption.
Qed.

Lemma dd_below_tail (dd : defaultdict V) (d : string) (rest : list string) :
  dd_below dd (d :: rest) -> dd_below dd rest.
Proof.
  intros H m k Hk. specialize (H m k Hk). now inversion H.
Qed.

End DefaultDictFacts.

(** ** Loops that may fail *)

Section Folds.

Variables A B : Type.
Variable f : A -> B -> result A.

Lemma foldM_cons (b : B) (l : list B) (a a' : A) :
  foldM f (b :: l) a = Ok a' ->
  exists a1, f a b = Ok a1 /\ foldM f l a1 = Ok a'.
Proof.
  simpl. destruct (f a b) as [a1|e]; simpl; [eauto | discriminate].
Qed.

(** An invariant that may depend on what is left of the list. *)
Lemma foldM_inv_pos (P : list B -> A -> Prop) :
  (forall a b rest a', P (b :: rest) a -> f a b = Ok a' -> P rest a') ->
  forall l a a', P l a -> foldM f l a = Ok a' -> P [] a'.
Proof.
  intros Hstep. induction l as [|b l IH]; intros a a' HP H.
  - simpl in H. inversion H; subst. exact HP.
  - apply foldM_cons in H. destruct H as [a1 [H1 H2]].
    eapply IH; [|exact H2]. eapply Hstep; eassumption.
Qed.

Lemma foldM_inv (P : A -> Prop) :
  (forall a b a', P a -> f a b = Ok a' -> P a') ->
  forall l a a', P a -> foldM f l a = Ok a' -> P a'.
Proof.
  intros Hstep l a a' HP H.
  apply (foldM_inv_pos (fun _ => P)) with (l := l) (a := a); auto.
  intros; eapply Hstep; eassumption.
Qed.

End Folds.

(** A table copied from a source dict of dicts, inner dict by inner dict
    and entry by entry, has the keys of the source in the same order. *)
Section NestedFolds.

Variables U V B : Type.
Variable key : B -> string.
Variable items_of : U -> list B.
Variable f : string -> defaultdict V -> B -> result (defaultdict V).

Hypothesis f_spec : forall m c b c',
  f m c b = Ok c' -> exists v, c' = dd_setitem m (key b) v c.

Lemma inner_fold_keys (m : string) :
  forall (l : list B) (c c' : defaultdict V),
    NoDup (map key l) ->
    (forall b, In b l -> ~ In (key b) (keys (stage_items m c))) ->
    foldM (f m) l c = Ok c' ->
    keys (stage_items m c') = keys (stage_items m c) ++ map key l
    /\ forall m', m' <> m -> stage_items m' c' = stage_items m' c.
Proof.
  induction l as [|b l IH]; intros c c' Hnd Hout H.
  - simpl in H. inversion H; subst. rewrite app_nil_r. auto.
  - apply foldM_cons in H. destruct H as [c1 [H1 H2]].
    apply f_spec in H1. destruct H1 as [v ->].
    inversion Hnd as [|? ? Hb Hnd']; subst.
    assert (Hk : keys (stage_items m (dd_setitem m (key b) v c))
                 = keys (stage_items m c) ++ [key b]).
    { rewrite stage_items_setitem_same, dict_set_notin by (apply Hout; now left).
      unfold keys. now rewrite map_app. }
    apply IH in H2; [|exact Hnd'|].
    + destruct H2 as [H2 H3]. split.
      * rewrite H2, Hk, <- app_assoc. reflexivity.
      * intros m' Hne. rewrite H3 by exact Hne.
        now apply stage_items_setitem_other.
    + intros b' Hb'. rewrite Hk. intros Hin. apply in_app_or in Hin.
      destruct Hin as [Hin|[Heq|[]]].
      * apply (Hout b'); [now right | exact Hin].
      * apply Hb. rewrite Heq. now apply in_map.
Qed.

Lemma outer_fold_keys :
  forall (src : dict U) (c c' : defaultdict V),
    NoDup (keys src) ->
    (forall m u, In (m, u) src -> NoDup (map key (items_of u))) ->
    (forall m, In m (keys src) -> stage_items m c = []) ->
    foldM (fun c item => foldM (f (fst item)) (items_of (snd item)) c) src c = Ok c' ->
    (forall m u, In (m, u) src -> keys (stage_items m c') = map key (items_of u))
    /\ (forall m, ~ In m (keys src) -> stage_items m c' = stage_items m c).
Proof.
  induction src as [|[m u] src IH]; intros c c' Hnd Hinner Hempty H.
  - simpl in H. inversion H; subst. split; [intros ? ? [] | auto].
  - apply foldM_cons in H. destruct H as [c1 [H1 H2]]. cbn [fst snd] in H1.
    cbn [keys map fst] in Hnd. inversion Hnd as [|? ? Hm Hnd']; subst.
    apply inner_fold_keys in H1.
    + destruct H1 as [Hk Hother].
      rewrite (Hempty m) in Hk by now left. cbn [keys map app] in Hk.
      apply IH in H2; [|exact Hnd'| |].
      * destruct H2 as [Hin Hout]. split.
        -- intros m0 u0 [Heq|Hin0].
           ++ inversion Heq; subst. rewrite Hout by exact Hm. exact Hk.
           ++ eapply Hin; eassumption.
        -- intros m0 Hm0. rewrite Hout.
           ++ apply Hother. intros ->. apply Hm0. now left.
           ++ intros Hin0. apply Hm0. now right.
      * intros m0 u0 Hin0. apply (Hinner m0). now right.
      * intros m0 Hm0. rewrite Hother.
        -- apply Hempty. now right.
        -- intros ->. contradiction.
    + apply (Hinner m). now left.
    + intros b _. rewrite (Hempty m) by now left. intros [].
Qed.

End NestedFolds.

(** The entries of a table copied in this way are those the copying
    function makes. *)
Section NestedFoldValues.

Variables U V B : Type.
Variable key : B -> string.
Variable items_of : U -> list B.
Variable f : string -> defaultdict V -> B -> result (defaultdict V).
Variable P : string -> B -> V -> Prop.

Hypothesis f_spec : forall m c b c',
  f m c b = Ok c' -> exists v, c' = dd_setitem m (key b) v c /\ P m b v.

Lemma inner_fold_values (m : string) :
  forall (l : list B) (c c' : defaultdict V),
    NoDup (map key l) ->
    foldM (f m) l c = Ok c' ->
    (forall b, In b l ->
               exists v, dict_get (key b) (stage_items m c') = Some v /\ P m b v)
    /\ (forall k, ~ In k (map key l) ->
                  dict_get k (stage_items m c') = dict_get k (stage_items m c))
    /\ (forall m', m' <> m -> stage_items m' c' = stage_items m' c).
Proof.
  induction l as [|b l IH]; intros c c' Hnd H.
  - simpl in H. inversion H; subst. split; [intros ? []|]. auto.
  - apply foldM_cons in H. destruct H as [c1 [H1 H2]].
    apply f_spec in H1. destruct H1 as [v [-> Hv]].
    inversion Hnd as [|? ? Hb Hnd']; subst.
    destruct (IH _ _ Hnd' H2) as [I1 [I2 I3]]. split; [|split].
    + intros b' [<-|Hb'].
      * exists v. split; [|exact Hv].
        rewrite (I2 _ Hb), stage_items_setitem_same. apply dict_get_set_same.
      * now apply I1.
    + intros k Hk. rewrite I2 by (intros Hin; apply Hk; now right).
      rewrite stage_items_setitem_same. apply dict_get_set_other.
      intros ->. apply Hk. now left.
    + intros m' Hne. rewrite (I3 _ Hne). now apply stage_items_setitem_other.
Qed.

Lemma inner_fold_other (m0 : string) :
  forall (l : list B) (c c' : defaultdict V),
    foldM (f m0) l c = Ok c' ->
    forall m, m <> m0 -> stage_items m c' = stage_items m c.
Proof.
  induction l as [|b l IH]; intros c c' H m Hne.
  - simpl in H. now inversion H.
  - apply foldM_cons in H. destruct H as [c1 [H1 H2]].
    apply f_spec in H1. destruct H1 as [v [-> _]].
    rewrite (IH _ _ H2 m Hne). now apply stage_items_setitem_other.
Qed.

Lemma outer_fold_other :
  forall (src : dict U) (c c' : defaultdict V),
    foldM (fun c item => foldM (f (fst item)) (items_of (snd item)) c) src c = Ok c' ->
    forall m, ~ In m (keys src) -> stage_items m c' = stage_items m c.
Proof.
  induction src as [|[m0 u0] src IH]; intros c c' H m Hm.
  - simpl in H. now inversion H.
  - apply foldM_cons in H. destruct H as [c1 [H1 H2]]. cbn [fst snd] in H1.
    rewrite (IH _ _ H2 m) by (intros Hin; apply Hm; now right).
    eapply inner_fold_other; [exact H1|].
    intros ->. apply Hm. now left.
Qed.

Lemma outer_fold_values :
  forall (src : dict U) (c c' : defaultdict V),
    NoDup (keys src) ->
    (forall m u, In (m, u) src -> NoDup (map key (items_of u))) ->
    foldM (fun c item => foldM (f (fst item)) (items_of (snd item)) c) src c = Ok c' ->
    forall m u b, In (m, u) src -> In b (items_of u) ->
      exists v, dict_get (key b) (stage_items m c') = Some v /\ P m b v.
Proof.
  induction src as [|[m0 u0] src IH]; intros c c' Hnd Hinner H m u b Hin Hb.
  - destruct Hin.
  - apply foldM_cons in H. destruct H as [c1 [H1 H2]]. cbn [fst snd] in H1.
    cbn [keys map fst] in Hnd. inversion Hnd as [|? ? Hm Hnd']; subst.
    destruct Hin as [Heq|Hin].
    + inversion Heq; subst.
      rewrite (outer_fold_other _ _ H2 m Hm).
      apply inner_fold_values in H1; [|apply (Hinner m u); now left].
      now apply H1.
    + eapply IH; try eassumption.
      intros m1 u1 Hin1. apply (Hinner m1). now right.
Qed.

End NestedFoldValues.

(** ** The runtime *)

Section Facts.

Variables T W : Type.
Variable X : Externals T W.

Local Abbreviation runtime := (OpenCLIntegrator T).
Local Abbreviation log_t := (list (event T)).

Ltac inv_bind H :=
  let a := fresh "a" in
  let Ha := fresh "Ha" in
  apply bind_ok in H; destruct H as [a [Ha H]].

Lemma replay_app (w : W) (l1 l2 : log_t) :
  replay X w (l1 ++ l2) = replay X (replay X w l1) l2.
Proof. unfold replay. apply fold_left_app. Qed.

Lemma same_context_refl (s : runtime) : same_context s s.
Proof. unfold same_context; repeat split. Qed.

Lemma same_context_trans (s1 s2 s3 : runtime) :
  same_context s1 s2 -> same_context s2 s3 -> same_context s1 s3.
Proof.
  unfold same_context; intros H1 H2.
  decompose [and] H1; decompose [and] H2; repeat split; congruence.
Qed.

Lemma same_context_set_helper (h : IntegratorOpenCLHelper T) (s : runtime) :
  same_context s (set_helper h s).
Proof. unfold same_context; repeat split. Qed.

Lemma same_context_set_t (t : T) (s : runtime) :
  same_context s (set_t t s).
Proof. unfold same_context; repeat split. Qed.

(** *** The kernel loop changes the call table only *)

Lemma kernel_loop_context (method : string) (extra : list (arg T))
    (items : dict (call_entry T)) :
  forall (s : runtime) (w : W) s' w' log,
    kernel_loop X method extra items s w = Ok (s', w', log) ->
    same_context s s' /\ self_t s' = self_t s.
Proof.
  induction items as [|[name [[call args] dest]] items IH]; simpl; intros s w s' w' log H.
  - inversion H; subst. split; [apply same_context_refl | reflexivity].
  - inv_bind H. inv_bind H. destruct a0 as [rest log_rest].
    inv_bind H. destruct a0 as [[s2 w2] log2]. inversion H; subst; clear H.
    apply IH in Ha1. destruct Ha1 as [Hc Ht]. split.
    + eapply same_context_trans; [apply same_context_set_helper | exact Hc].
    + rewrite Ht. reflexivity.
Qed.

Lemma py_loop_replay (extra : list (arg T)) (items : dict py_call_entry) :
  forall (w : W), fst (py_loop X extra items w) = replay X w (snd (py_loop X extra items w)).
Proof.
  induction items as [|[name [py_meth dest]] items IH]; simpl; intros w.
  - reflexivity.
  - specialize (IH (call_effect X (EvPyMeth py_meth dest extra) w)).
    destruct (py_loop X extra items _) as [w' log]. simpl in *. exact IH.
Qed.

Lemma do_stage_context (method : string) (s : runtime) (w : W) s' w' log :
  _do_stage X method s w = Ok (s', w', log) ->
  same_context s s' /\ self_t s' = self_t s.
Proof.
  unfold _do_stage.
  destruct (dd_getitem method _) as [call_info calls1].
  destruct (dd_getitem _ (py_calls _)) as [py_call_info py_calls1].
  intros H. inv_bind H. inv_bind H.
  destruct (py_loop X _ py_call_info w) as [w1 log1].
  inv_bind H. destruct a1 as [[s2 w2] log2]. inversion H; subst; clear H.
  apply kernel_loop_context in Ha1. destruct Ha1 as [Hc Ht]. split.
  - eapply same_context_trans; [apply same_context_set_helper | exact Hc].
  - rewrite Ht. reflexivity.
Qed.

Lemma compute_accelerations_state (s : runtime) (w : W) s' w' log :
  compute_accelerations X s w = Ok (s', w', log) -> s' = s.
Proof.
  unfold compute_accelerations.
  destruct (parallel_manager s); intros H; inv_bind H; inv_bind H; inv_bind H;
    inversion H; reflexivity.
Qed.

Lemma do_post_stage_context (stage_dt : T) (stage : Z) (s : runtime) (w : W)
    s' w' log :
  do_post_stage X stage_dt stage s w = Ok (s', w', log) ->
  same_context s s' /\ helper s' = helper s.
Proof.
  unfold do_post_stage. intros H. inv_bind H.
  destruct (_post_stage_callback _).
  - inv_bind H. inversion H; subst. split; [apply same_context_set_t | reflexivity].
  - inversion H; subst. split; [apply same_context_set_t | reflexivity].
Qed.

Lemma exec_op_context (o : op T) (t dt : T) (s : runtime) (w : W) s' w' log :
  exec_op X o t dt s w = Ok (s', w', log) -> same_context s s'.
Proof.
  destruct o as [method| |stage_dt stage]; simpl; intros H.
  - destruct (existsb _ _); [|discriminate].
    apply do_stage_context in H. tauto.
  - apply compute_accelerations_state in H. subst. apply same_context_refl.
  - apply do_post_stage_context in H. tauto.
Qed.

Lemma exec_ops_context (ops : list (op T)) (t dt : T) :
  forall (s : runtime) (w : W) s' w' log,
    exec_ops X ops t dt s w = Ok (s', w', log) -> same_context s s'.
Proof.
  induction ops as [|o ops IH]; simpl; intros s w s' w' log H.
  - inversion H; subst. apply same_context_refl.
  - inv_bind H. destruct a as [[s1 w1] log1].
    inv_bind H. destruct a as [[s2 w2] log2]. inversion H; subst; clear H.
    eapply same_context_trans; [eapply exec_op_context; eassumption|].
    eapply IH; eassumption.
Qed.

(** *** The log of a stage *)

Lemma py_loop_log (extra : list (arg T)) (items : dict py_call_entry) :
  forall (w : W), snd (py_loop X extra items w) = stage_hooks extra items.
Proof.
  induction items as [|[name [py_meth dest]] items IH]; simpl; intros w.
  - reflexivity.
  - specialize (IH (call_effect X (EvPyMeth py_meth dest extra) w)).
    destruct (py_loop X extra items _) as [w' log]. simpl in *. now rewrite IH.
Qed.

Lemma getters_of_dest (dest : string) (getters : list (arg T)) :
  forallb (@is_getter_of T dest) getters = true ->
  getters = map (AGetter dest) (map (@getter_field T) getters).
Proof.
  induction getters as [|a getters IH]; simpl; intros H.
  - reflexivity.
  - apply andb_true_iff in H. destruct H as [Ha Hg].
    destruct a; simpl in Ha; try discriminate.
    apply String.eqb_eq in Ha. subst. simpl. f_equal. now apply IH.
Qed.

Lemma args_fields_getters (q : Z) (a1 a2 : arg T) (dest : string)
    (fields : list string) :
  args_fields (AQueue q :: a1 :: a2 :: map (AGetter dest) fields) = fields.
Proof.
  unfold args_fields. cbn [skipn]. rewrite map_map. simpl. apply map_id.
Qed.

Lemma wf_entry_inv (name call : string) (args : list (arg T)) (dest : string) :
  wf_entry (name, (call, args, dest)) = true ->
  name = dest
  /\ exists q a1 fields,
       args = AQueue q :: a1 :: ANone :: map (AGetter dest) fields.
Proof.
  unfold wf_entry. intros H. apply andb_true_iff in H. destruct H as [Hk Ha].
  apply String.eqb_eq in Hk. split; [exact Hk|].
  destruct args as [|a0 [|a1 [|a2 getters]]]; try discriminate;
    destruct a0; try discriminate; destruct a2; try discriminate.
  exists q, a1, (map (@getter_field T) getters).
  do 3 f_equal. now apply getters_of_dest.
Qed.

Lemma call_getters_fields (w : W) (dest : string) (fields : list string) :
  call_getters X w (map (AGetter dest) fields)
  = Ok (map (fun x => ABuffer (dev_data X w dest x)) fields,
        map (fun x => EvGetter dest x (dev_data X w dest x)) fields).
Proof.
  induction fields as [|x fields IH]; simpl.
  - reflexivity.
  - rewrite IH. reflexivity.
Qed.

Lemma replay_getter_reads (w : W) (dest : string) (fields : list string) :
  replay X w (map (fun x => EvGetter dest x (dev_data X w dest x)) fields) = w.
Proof.
  unfold replay. generalize (dev_data X w dest). intros f.
  induction fields as [|x fields IH]; simpl; [reflexivity | exact IH].
Qed.

Lemma replay_launch_block (w : W) (call : string) (q : Z) (dest : string)
    (fields : list string) (extra : list (arg T)) :
  replay X w (launch_block X w call q dest fields extra)
  = call_effect X
      (EvKernel call ([AQueue q; AGlobalSize (get_number_of_particles X w dest); ANone]
                      ++ map (fun x => ABuffer (dev_data X w dest x)) fields
                      ++ extra)) w.
Proof.
  unfold launch_block.
  change (replay X w (?e :: ?l)) with (replay X w l).
  rewrite replay_app, replay_getter_reads. reflexivity.
Qed.

(** On well-formed entries the kernel loop does not fail, and its log is
    [stage_blocks]. *)
Lemma kernel_loop_log (method : string) (extra : list (arg T))
    (items : dict (call_entry T)) :
  forallb (@wf_entry T) items = true ->
  forall (s : runtime) (w : W),
  exists s',
    kernel_loop X method extra items s w
    = Ok (s', replay X w (stage_blocks X w extra items),
          stage_blocks X w extra items).
Proof.
  induction items as [|[name [[call args] dest]] items IH]; intros Hwf s w.
  - exists s. reflexivity.
  - cbn [forallb] in Hwf. apply andb_true_iff in Hwf. destruct Hwf as [He Hwf].
    destruct (wf_entry_inv name call args dest He) as [Hname [q [a1 [fields Hargs]]]].
    subst args. cbn [kernel_loop stage_blocks].
    rewrite args_fields_getters.
    cbn [list_setitem bind skipn firstn args_queue].
    rewrite call_getters_fields. cbn [bind].
    match goal with
    | |- context [kernel_loop X method extra items ?s1 ?w1] =>
        destruct (IH Hwf s1 w1) as [s' Hs']; rewrite Hs'
    end.
    cbn [bind]. exists s'.
    rewrite replay_app, replay_launch_block.
    unfold launch_block.
    cbn [app]. rewrite <- app_assoc. reflexivity.
Qed.

Lemma is_getter_of_map (dest : string) (fields : list string) :
  forallb (@is_getter_of T dest) (map (AGetter dest) fields) = true.
Proof.
  induction fields as [|x fields IH]; simpl; [reflexivity|].
  now rewrite String.eqb_refl.
Qed.

Lemma wf_entry_build (call : string) (q : Z) (a1 : arg T) (dest : string)
    (fields : list string) :
  wf_entry (dest, (call, AQueue q :: a1 :: ANone :: map (AGetter dest) fields, dest))
  = true.
Proof.
  unfold wf_entry. rewrite String.eqb_refl. simpl. apply is_getter_of_map.
Qed.

(** [_do_stage] does not fail on the tables of a well-formed runtime once
    [t] and [dt] are assigned, and its log is [stage_log]. *)
Lemma do_stage_log (method : string) (s : runtime) (w : W) (t dt : T) :
  wf_runtime s = true -> self_t s = Some t -> self_dt s = Some dt ->
  exists s',
    _do_stage X method s w
    = Ok (s', replay X w (stage_log X method s w t dt), stage_log X method s w t dt).
Proof.
  intros Hwf Ht Hdt. unfold wf_runtime in Hwf.
  apply andb_true_iff in Hwf. destruct Hwf as [Hwf _].
  unfold _do_stage.
  pose proof (dd_getitem_fst method (calls (helper s))) as E1.
  pose proof (dd_getitem_fst ("py_" ++ method) (py_calls (helper s))) as E2.
  destruct (dd_getitem method (calls (helper s))) as [call_info calls1].
  destruct (dd_getitem ("py_" ++ method) (py_calls (helper s))) as [py_info py_calls1].
  simpl in E1, E2. subst call_info py_info.
  rewrite Ht, Hdt. cbn [getattr_self bind].
  fold (scalar_dtype s). fold (stage_extra_args s t dt).
  pose proof (py_loop_replay (stage_extra_args s t dt)
                (stage_items ("py_" ++ method) (py_calls (helper s))) w) as Hw.
  pose proof (py_loop_log (stage_extra_args s t dt)
                (stage_items ("py_" ++ method) (py_calls (helper s))) w) as Hl.
  destruct (py_loop X _ _ w) as [w1 log1]. simpl in Hw, Hl. subst w1 log1.
  match goal with
  | |- context [kernel_loop X method ?e ?items ?s1 ?w1] =>
      destruct (kernel_loop_log method e items
                  (forallb_stage_items _ method _ Hwf) s1 w1) as [s' Hs'];
      rewrite Hs'
  end.
  cbn [bind]. exists s'. unfold stage_log, stage_py_calls, stage_calls.
  cbv zeta. now rewrite replay_app.
Qed.

(** The kernel loop rewrites entries of [calls[method]] in place: the
    keys of every inner dict stay, entries stay well formed, and nothing
    else of the helper changes. *)
Lemma kernel_loop_tables (method : string) (extra : list (arg T))
    (items : dict (call_entry T)) :
  forall (s : runtime) (w : W) s' w' log,
    kernel_loop X method extra items s w = Ok (s', w', log) ->
    forallb (@wf_entry T) items = true ->
    (forall it, In it items ->
                In (fst it) (keys (stage_items method (calls (helper s))))) ->
    wf_calls (calls (helper s)) = true ->
    wf_calls (calls (helper s')) = true
    /\ (forall m', keys (stage_items m' (calls (helper s')))
                   = keys (stage_items m' (calls (helper s))))
    /\ py_calls (helper s') = py_calls (helper s)
    /\ same_helper_data (helper s) (helper s').
Proof.
  induction items as [|[name [[call args] dest]] items IH];
    intros s w s' w' log H Hitems Hkeys Hwf.
  - simpl in H. inversion H; subst. repeat split; auto.
  - cbn [forallb] in Hitems. apply andb_true_iff in Hitems.
    destruct Hitems as [He Hitems].
    destruct (wf_entry_inv name call args dest He) as [Hname [q [a1 [fields Hargs]]]].
    subst args name. cbn [kernel_loop list_setitem bind] in H.
    inv_bind H. destruct a as [rest log_rest].
    inv_bind H. destruct a as [[s2 w2] log2]. inversion H; subst; clear H.
    assert (Hin : In dest (keys (stage_items method (calls (helper s))))).
    { apply (Hkeys (dest, (call, AQueue q :: a1 :: ANone :: map (AGetter dest) fields, dest))).
      now left. }
    assert (Hk1 : forall m' v,
               keys (stage_items m' (dd_setitem method dest v (calls (helper s))))
               = keys (stage_items m' (calls (helper s)))).
    { intros m' v. destruct (string_dec m' method) as [->|Hne].
      - rewrite stage_items_setitem_same. now apply keys_dict_set_in.
      - now rewrite stage_items_setitem_other. }
    apply IH in Ha0.
    + destruct Ha0 as [Hwf' [Hk' [Hpy' Hd']]]. cbn in Hk', Hpy', Hd'.
      split; [exact Hwf'|]. split; [|split].
      * intros m'. rewrite Hk'. apply Hk1.
      * exact Hpy'.
      * exact Hd'.
    + exact Hitems.
    + intros it Hit. cbn. rewrite Hk1. apply Hkeys. now right.
    + cbn. unfold wf_calls. apply forallb_dd_setitem.
      * apply wf_entry_build.
      * exact Hwf.
Qed.

Lemma wf_py_calls_dd_getitem (m : string) (table : defaultdict py_call_entry) :
  wf_py_calls table = true -> wf_py_calls (snd (dd_getitem m table)) = true.
Proof. apply forallb_dd_getitem. Qed.

Lemma do_stage_tables (method : string) (s : runtime) (w : W) s' w' log :
  _do_stage X method s w = Ok (s', w', log) ->
  wf_runtime s = true ->
  wf_runtime s' = true
  /\ (forall m', keys (stage_calls m' s') = keys (stage_calls m' s))
  /\ (forall m', stage_py_calls m' s' = stage_py_calls m' s)
  /\ same_helper_data (helper s) (helper s').
Proof.
  intros H Hwf. unfold wf_runtime in Hwf.
  apply andb_true_iff in Hwf. destruct Hwf as [Hwf Hwfpy].
  unfold _do_stage in H.
  pose proof (dd_getitem_fst method (calls (helper s))) as E1.
  pose proof (fun m' => stage_items_dd_getitem method m' (calls (helper s))) as E3.
  pose proof (forallb_dd_getitem (@wf_entry T) method _ Hwf) as E4.
  pose proof (fun m' => stage_items_dd_getitem ("py_" ++ method) m'
                          (py_calls (helper s))) as E5.
  pose proof (wf_py_calls_dd_getitem ("py_" ++ method) _ Hwfpy) as E6.
  destruct (dd_getitem method (calls (helper s))) as [call_info calls1].
  destruct (dd_getitem ("py_" ++ method) (py_calls (helper s))) as [py_info py_calls1].
  simpl in E1, E3, E4, E5, E6. subst call_info.
  inv_bind H. inv_bind H.
  destruct (py_loop X _ py_info w) as [w1 log1].
  inv_bind H. destruct a1 as [[s2 w2] log2]. inversion H; subst; clear H.
  apply kernel_loop_tables in Ha1.
  - cbn in Ha1. destruct Ha1 as [Hwf' [Hk' [Hpy' Hd']]].
    unfold wf_runtime, stage_calls, stage_py_calls.
    rewrite Hwf', Hpy'. split; [exact E6|]. split; [|split].
    + intros m'. rewrite Hk'. now rewrite E3.
    + intros m'. apply E5.
    + exact Hd'.
  - apply forallb_stage_items. exact Hwf.
  - intros it Hit. cbn. rewrite E3.
    unfold keys. now apply in_map.
  - exact E4.
Qed.

(** *** Splitting a stage log at a launch *)

Lemma split_before_launch (l1 l2 pre post : log_t) (e : event T) :
  forallb (fun x => negb (is_launch x)) l1 = true ->
  is_launch e = true ->
  l1 ++ l2 = pre ++ e :: post ->
  exists pre2, pre = l1 ++ pre2 /\ l2 = pre2 ++ e :: post.
Proof.
  revert pre. induction l1 as [|a l1 IH]; intros pre Hl1 He Heq.
  - exists pre. split; [reflexivity | exact Heq].
  - cbn [forallb] in Hl1. apply andb_true_iff in Hl1. destruct Hl1 as [Ha Hl1].
    destruct pre as [|b pre]; simpl in Heq; inversion Heq; subst.
    + rewrite He in Ha. discriminate.
    + destruct (IH pre Hl1 He H1) as [pre2 [-> ->]].
      exists pre2. split; reflexivity.
Qed.

Lemma stage_hooks_no_launch (extra : list (arg T)) (items : dict py_call_entry) :
  forallb (fun x => negb (is_launch x)) (stage_hooks extra items) = true.
Proof.
  unfold stage_hooks. induction items as [|it items IH]; simpl; [reflexivity | exact IH].
Qed.

Lemma getter_reads_no_launch (f : string -> Z) (dest : string) (fields : list string) :
  forallb (fun x : event T => negb (is_launch x))
          (map (fun x => EvGetter dest x (f x)) fields) = true.
Proof.
  induction fields as [|x fields IH]; simpl; [reflexivity | exact IH].
Qed.

Lemma stage_blocks_app (extra : list (arg T)) (items1 items2 : dict (call_entry T)) :
  forall w : W,
    stage_blocks X w extra (items1 ++ items2)
    = stage_blocks X w extra items1
      ++ stage_blocks X (replay X w (stage_blocks X w extra items1)) extra items2.
Proof.
  induction items1 as [|[name [[call args] dest]] items1 IH]; intros w.
  - reflexivity.
  - cbn [app stage_blocks]. rewrite IH, <- app_assoc, replay_app. reflexivity.
Qed.

(** Every launch of the kernel loop belongs to an entry of the table: it
    comes right after the count read and the getter reads of that entry,
    and its arguments are the values read in the world of that moment. *)
Lemma stage_blocks_launch (extra : list (arg T)) (items : dict (call_entry T)) :
  forallb (@wf_entry T) items = true ->
  forall (w : W) (pre post : log_t) (call : string) (args : list (arg T)),
    stage_blocks X w extra items = pre ++ EvKernel call args :: post ->
    exists args0 dest q a1 fields pre',
      In (dest, (call, args0, dest)) items
      /\ args0 = AQueue q :: a1 :: ANone :: map (AGetter dest) fields
      /\ pre = pre'
               ++ EvGetNumberOfParticles dest
                    (get_number_of_particles X (replay X w pre) dest)
               :: map (fun x => EvGetter dest x (dev_data X (replay X w pre) dest x))
                      fields
      /\ args = [AQueue q;
                 AGlobalSize (get_number_of_particles X (replay X w pre) dest);
                 ANone]
                ++ map (fun x => ABuffer (dev_data X (replay X w pre) dest x)) fields
                ++ extra.
Proof.
  induction items as [|[name [[call0 args0] dest0]] items IH];
    intros Hwf w pre post call args Heq.
  - destruct pre; discriminate.
  - cbn [forallb] in Hwf. apply andb_true_iff in Hwf. destruct Hwf as [He Hwf].
    destruct (wf_entry_inv name call0 args0 dest0 He) as [Hname [q [a1 [fields Hargs]]]].
    subst args0 name. cbn [stage_blocks] in Heq.
    rewrite args_fields_getters in Heq. cbn [args_queue] in Heq.
    rewrite replay_launch_block in Heq. unfold launch_block in Heq.
    set (n := get_number_of_particles X w dest0) in *.
    set (reads := map (fun x => EvGetter (T:=T) dest0 x (dev_data X w dest0 x))
                      fields) in *.
    set (k := EvKernel call0 ([AQueue q; AGlobalSize n; ANone]
                              ++ map (fun x => ABuffer (dev_data X w dest0 x)) fields
                              ++ extra)) in *.
    assert (Hreads : replay X w (EvGetNumberOfParticles dest0 n :: reads) = w).
    { change (replay X w (EvGetNumberOfParticles dest0 n :: reads))
        with (replay X w reads).
      apply replay_getter_reads. }
    rewrite app_comm_cons, <- app_assoc in Heq.
    apply split_before_launch in Heq;
      [| cbn [forallb is_launch negb andb]; apply getter_reads_no_launch | reflexivity].
    destruct Heq as [pre2 [Hpre Heq]].
    destruct pre2 as [|b pre2]; cbn [app] in Heq; inversion Heq; subst pre; clear Heq.
    + rewrite app_nil_r, Hreads.
      exists (AQueue q :: a1 :: ANone :: map (AGetter dest0) fields),
        dest0, q, a1, fields, [].
      repeat split. now left.
    + subst b.
      destruct (IH Hwf _ _ _ _ _ H1)
        as [args1 [dest [q1 [a2 [fields1 [pre' [Hin [Ha [Hp Hr]]]]]]]]].
      assert (Hw : replay X w ((EvGetNumberOfParticles dest0 n :: reads) ++ k :: pre2)
                   = replay X (call_effect X k w) pre2).
      { rewrite replay_app, Hreads. reflexivity. }
      rewrite Hw.
      exists args1, dest, q1, a2, fields1,
        ((EvGetNumberOfParticles dest0 n :: reads) ++ k :: pre').
      split; [now right|]. split; [exact Ha|]. split; [|exact Hr].
      rewrite Hp at 1. rewrite <- app_assoc. reflexivity.
Qed.

(** The same for a whole stage. *)
Lemma do_stage_launch (method : string) (s : runtime) (w : W) (t dt : T)
    s' w' log (pre post : log_t) (call : string) (args : list (arg T)) :
  wf_runtime s = true -> self_t s = Some t -> self_dt s = Some dt ->
  _do_stage X method s w = Ok (s', w', log) ->
  log = pre ++ EvKernel call args :: post ->
  exists args0 dest q a1 fields pre',
    In (dest, (call, args0, dest)) (stage_calls method s)
    /\ args0 = AQueue q :: a1 :: ANone :: map (AGetter dest) fields
    /\ pre = pre'
             ++ EvGetNumberOfParticles dest
                  (get_number_of_particles X (replay X w pre) dest)
             :: map (fun x => EvGetter dest x (dev_data X (replay X w pre) dest x))
                    fields
    /\ args = [AQueue q;
               AGlobalSize (get_number_of_particles X (replay X w pre) dest);
               ANone]
              ++ map (fun x => ABuffer (dev_data X (replay X w pre) dest x)) fields
              ++ stage_extra_args s t dt.
Proof.
  intros Hwf Ht Hdt H Hlog.
  destruct (do_stage_log method s w Hwf Ht Hdt) as [s'' Hs''].
  rewrite Hs'' in H. injection H as _ _ Hl.
  rewrite <- Hl in Hlog. unfold stage_log in Hlog. cbv zeta in Hlog.
  apply split_before_launch in Hlog;
    [| apply stage_hooks_no_launch | reflexivity].
  destruct Hlog as [pre2 [Hpre Hblocks]].
  unfold wf_runtime in Hwf. apply andb_true_iff in Hwf. destruct Hwf as [Hwf _].
  apply stage_blocks_launch in Hblocks;
    [| apply forallb_stage_items; exact Hwf].
  destruct Hblocks as [args0 [dest [q [a1 [fields [pre' [Hin [Ha [Hp Hr]]]]]]]]].
  subst pre. rewrite replay_app.
  exists args0, dest, q, a1, fields,
    (stage_hooks (stage_extra_args s t dt) (stage_py_calls method s) ++ pre').
  split; [exact Hin|]. split; [exact Ha|]. split; [|exact Hr].
  rewrite Hp at 1. rewrite <- app_assoc. reflexivity.
Qed.

(** *** The world after a method is the replay of its log *)

Lemma call_getters_reads (w : W) (l : list (arg T)) :
  forall vs log, call_getters X w l = Ok (vs, log) ->
                 forallb (@is_getter_read T) log = true.
Proof.
  induction l as [|a l IH]; simpl; intros vs log H.
  - inversion H. reflexivity.
  - destruct a; try discriminate.
    inv_bind H. destruct a as [vs' log']. inversion H; subst.
    simpl. eapply IH; eassumption.
Qed.

Lemma replay_reads (w : W) (log : log_t) :
  forallb (@is_getter_read T) log = true -> replay X w log = w.
Proof.
  unfold replay. induction log as [|e log IH]; simpl; intros H; [reflexivity|].
  apply andb_true_iff in H. destruct H as [He H].
  destruct e; try discriminate. simpl. now apply IH.
Qed.

Lemma reads_are_stage_events (log : log_t) :
  forallb (@is_getter_read T) log = true ->
  forallb (@is_stage_event T) log = true.
Proof.
  induction log as [|e log IH]; simpl; intros H; [reflexivity|].
  apply andb_true_iff in H. destruct H as [He H].
  destruct e; try discriminate. simpl. now apply IH.
Qed.

Lemma kernel_loop_replay (method : string) (extra : list (arg T))
    (items : dict (call_entry T)) :
  forall (s : runtime) (w : W) s' w' log,
    kernel_loop X method extra items s w = Ok (s', w', log) ->
    w' = replay X w log /\ forallb (@is_stage_event T) log = true.
Proof.
  induction items as [|[name [[call args] dest]] items IH]; simpl; intros s w s' w' log H.
  - inversion H; subst. split; reflexivity.
  - inv_bind H. inv_bind H. destruct a0 as [rest log_rest].
    inv_bind H. destruct a0 as [[s2 w2] log2]. inversion H; subst; clear H.
    apply IH in Ha1. destruct Ha1 as [Hw Hev].
    pose proof (call_getters_reads _ _ Ha0) as Hr.
    split.
    + change (replay X w (?e :: ?l)) with (replay X w l).
      rewrite replay_app, (replay_reads _ _ Hr). exact Hw.
    + cbn [forallb is_stage_event andb]. rewrite forallb_app.
      rewrite (reads_are_stage_events _ Hr). simpl. exact Hev.
Qed.

Lemma stage_hooks_stage_events (extra : list (arg T)) (items : dict py_call_entry) :
  forallb (@is_stage_event T) (stage_hooks extra items) = true.
Proof.
  unfold stage_hooks. induction items as [|it items IH]; simpl; [reflexivity | exact IH].
Qed.

Lemma do_stage_replay (method : string) (s : runtime) (w : W) s' w' log :
  _do_stage X method s w = Ok (s', w', log) ->
  w' = replay X w log /\ forallb (@is_stage_event T) log = true.
Proof.
  unfold _do_stage.
  destruct (dd_getitem method _) as [call_info calls1].
  destruct (dd_getitem _ (py_calls _)) as [py_call_info py_calls1].
  intros H. inv_bind H. inv_bind H.
  pose proof (py_loop_replay [AScalar (if _use_double s then float64 else float32) a;
                               AScalar (if _use_double s then float64 else float32) a0]
                py_call_info w) as Hw1.
  pose proof (py_loop_log [AScalar (if _use_double s then float64 else float32) a;
                            AScalar (if _use_double s then float64 else float32) a0]
                py_call_info w) as Hl1.
  destruct (py_loop X _ py_call_info w) as [w1 log1]. simpl in Hw1, Hl1.
  inv_bind H. destruct a1 as [[s2 w2] log2]. inversion H; subst; clear H.
  apply kernel_loop_replay in Ha1. destruct Ha1 as [Hw Hev]. split.
  - rewrite replay_app. exact Hw.
  - rewrite forallb_app, stage_hooks_stage_events. exact Hev.
Qed.

Lemma compute_accelerations_replay (s : runtime) (w : W) s' w' log :
  compute_accelerations X s w = Ok (s', w', log) -> w' = replay X w log.
Proof.
  unfold compute_accelerations.
  destruct (parallel_manager s); intros H; inv_bind H; inv_bind H; inv_bind H;
    inversion H; reflexivity.
Qed.

Lemma do_post_stage_replay (stage_dt : T) (stage : Z) (s : runtime) (w : W)
    s' w' log :
  do_post_stage X stage_dt stage s w = Ok (s', w', log) -> w' = replay X w log.
Proof.
  unfold do_post_stage. intros H. inv_bind H.
  destruct (_post_stage_callback _).
  - inv_bind H. inversion H; reflexivity.
  - inversion H; reflexivity.
Qed.

Lemma exec_ops_replay (ops : list (op T)) (t dt : T) :
  forall (s : runtime) (w : W) s' w' log,
    exec_ops X ops t dt s w = Ok (s', w', log) -> w' = replay X w log.
Proof.
  induction ops as [|o ops IH]; simpl; intros s w s' w' log H.
  - inversion H; reflexivity.
  - inv_bind H. destruct a as [[s1 w1] log1].
    inv_bind H. destruct a as [[s2 w2] log2]. inversion H; subst; clear H.
    rewrite replay_app. apply IH in Ha0. rewrite Ha0. f_equal.
    destruct o as [method| |stage_dt stage]; simpl in Ha.
    + destruct (existsb _ _); [|discriminate].
      apply do_stage_replay in Ha. tauto.
    + now apply compute_accelerations_replay in Ha.
    + now apply do_post_stage_replay in Ha.
Qed.

(** The statements of a timestep procedure run one after the other. *)
Lemma exec_ops_app (ops1 ops2 : list (op T)) (t dt : T) :
  forall (s : runtime) (w : W),
    exec_ops X (ops1 ++ ops2) t dt s w
    = ('(s1, w1, log1) <- exec_ops X ops1 t dt s w ;;
       '(s2, w2, log2) <- exec_ops X ops2 t dt s1 w1 ;;
       Ok (s2, w2, log1 ++ log2)).
Proof.
  induction ops1 as [|o ops1 IH]; intros s w.
  - cbn [app exec_ops bind].
    destruct (exec_ops X ops2 t dt s w) as [[[s2 w2] log2]|e]; reflexivity.
  - cbn [app exec_ops].
    destruct (exec_op X o t dt s w) as [[[s1 w1] log1]|e]; [|reflexivity].
    cbn [bind]. rewrite IH.
    destruct (exec_ops X ops1 t dt s1 w1) as [[[s2 w2] log2]|e]; [|reflexivity].
    cbn [bind].
    destruct (exec_ops X ops2 t dt s2 w2) as [[[s3 w3] log3]|e]; [|reflexivity].
    cbn [bind]. now rewrite app_assoc.
Qed.

Lemma exec_ops_runs (ops : list (op T)) (t dt : T) :
  forall (s : runtime) (w : W) s' w' log,
    exec_ops X ops t dt s w = Ok (s', w', log)
    <-> runs_in_order X t dt ops s w s' w' log.
Proof.
  induction ops as [|o ops IH]; intros s w s' w' log; split.
  - simpl. intros H. inversion H; subst. constructor.
  - intros H. inversion H; subst. reflexivity.
  - intros H. cbn [exec_ops] in H.
    apply bind_ok in H. destruct H as [[[s1 w1] log1] [H1 H]].
    apply bind_ok in H. destruct H as [[[s2 w2] log2] [H2 H]].
    inversion H; subst; clear H. apply IH in H2.
    destruct o as [method| |stage_dt stage]; cbn [exec_op] in H1.
    + destruct (existsb (String.eqb method) (methods s)) eqn:E; [|discriminate].
      apply existsb_exists in E. destruct E as [m [Hm E]].
      apply String.eqb_eq in E. subst m.
      eapply run_stage; eassumption.
    + eapply run_compute_accelerations; eassumption.
    + eapply run_do_post_stage; eassumption.
  - intros H. inversion H as [|method ops0 s0 w0 s1 w1 log1 s2 w2 log2 Hm H1 H2
                               |ops0 s0 w0 s1 w1 log1 s2 w2 log2 H1 H2
                               |stage_dt stage ops0 s0 w0 s1 w1 log1 s2 w2 log2 H1 H2];
      subst; apply IH in H2; cbn [exec_ops exec_op].
    + assert (E : existsb (String.eqb method) (methods s) = true).
      { apply existsb_exists. exists method. split; [exact Hm|]. apply String.eqb_refl. }
      rewrite E, H1. cbn [bind]. rewrite H2. reflexivity.
    + rewrite H1. cbn [bind]. rewrite H2. reflexivity.
    + rewrite H1. cbn [bind]. rewrite H2. reflexivity.
Qed.

Lemma exec_ops_split (ops1 ops2 : list (op T)) (t dt : T) (s : runtime) (w : W)
    s' w' log :
  exec_ops X (ops1 ++ ops2) t dt s w = Ok (s', w', log) ->
  exists sa wa loga logb,
    exec_ops X ops1 t dt s w = Ok (sa, wa, loga)
    /\ exec_ops X ops2 t dt sa wa = Ok (s', w', logb)
    /\ log = loga ++ logb.
Proof.
  rewrite exec_ops_app. intros H.
  apply bind_ok in H. destruct H as [[[sa wa] loga] [Ha H]].
  apply bind_ok in H. destruct H as [[[sb wb] logb] [Hb H]].
  inversion H; subst. eauto 8.
Qed.

(** ** Properties of the runtime *)

(** C6. [step(t, dt)] assigns [orig_t = t], [t = t] and [dt = dt] and then
    runs the statements of the captured [one_timestep] in order, from the
    runtime with these three attributes set: it returns exactly what
    running the statements one after the other returns, each statement
    being the call of its method in the runtime and the world the
    statements before it left; every statement of the procedure is run,
    with [orig_t] and [dt] as [step] assigned them, and the log of the
    step is the calls of the statements before it, its own calls and the
    calls of the statements after it. Nothing in the procedure reassigns
    [orig_t] or [dt], and the world a step leaves is the world after the
    calls it logged. *)
Theorem step_assigns_then_runs (t dt : T) (s : runtime) (w : W) :
  let s1 := set_dt dt (set_t t (set_orig_t t s)) in
  (self_orig_t s1 = Some t /\ self_t s1 = Some t /\ self_dt s1 = Some dt)
  /\ (forall s' w' log,
        step X t dt s w = Ok (s', w', log)
        <-> runs_in_order X t dt (one_timestep s) s1 w s' w' log)
  /\ (forall s' w' log ops1 o ops2,
        step X t dt s w = Ok (s', w', log) ->
        one_timestep s = ops1 ++ o :: ops2 ->
        exists sa wa loga sb wb logb logc,
          runs_in_order X t dt ops1 s1 w sa wa loga
          /\ self_orig_t sa = Some t /\ self_dt sa = Some dt
          /\ runs_in_order X t dt [o] sa wa sb wb logb
          /\ runs_in_order X t dt ops2 sb wb s' w' logc
          /\ log = loga ++ logb ++ logc)
  /\ (forall s' w' log,
        step X t dt s w = Ok (s', w', log) ->
        self_orig_t s' = Some t /\ self_dt s' = Some dt
        /\ one_timestep s' = one_timestep s /\ w' = replay X w log).
Proof.
  cbv zeta. split; [repeat split|]. split; [|split].
  - intros s' w' log. unfold step. apply exec_ops_runs.
  - intros s' w' log ops1 o ops2 H Hops. unfold step in H.
    change (one_timestep (set_dt dt (set_t t (set_orig_t t s))))
      with (one_timestep s) in H.
    rewrite Hops in H.
    apply exec_ops_split in H.
    destruct H as [sa [wa [loga [logbc [Ha [Hbc ->]]]]]].
    change (o :: ops2) with ([o] ++ ops2) in Hbc.
    apply exec_ops_split in Hbc.
    destruct Hbc as [sb [wb [logb [logc [Hb [Hc ->]]]]]].
    pose proof (exec_ops_context _ _ _ _ _ Ha) as Hctx.
    destruct Hctx as (_ & _ & _ & _ & _ & _ & _ & Hd & Ho).
    exists sa, wa, loga, sb, wb, logb, logc.
    split; [now apply exec_ops_runs|].
    split; [rewrite Ho; reflexivity|]. split; [rewrite Hd; reflexivity|].
    split; [now apply exec_ops_runs|]. split; [now apply exec_ops_runs|].
    reflexivity.
  - unfold step. intros s' w' log H.
    pose proof (exec_ops_context _ _ _ _ _ H) as Hc.
    apply exec_ops_replay in H.
    unfold same_context in Hc. decompose [and] Hc.
    repeat split; try assumption.
Qed.

(** C7. [do_post_stage(stage_dt, stage)] in a runtime where [step] has
    assigned [orig_t] and [dt] sets [t = orig_t + stage_dt] and then calls
    the registered callback, if there is one, once, with the new [t], with
    [dt] and with [stage]; without a callback it calls nothing. *)
Theorem do_post_stage_sets_t_then_calls_back (stage_dt : T) (stage : Z)
    (s : runtime) (w : W) (orig_t dt : T) :
  self_orig_t s = Some orig_t -> self_dt s = Some dt ->
  let t := float_add X orig_t stage_dt in
  let log := match _post_stage_callback s with
             | Some callback => [EvPostStageCallback callback t dt stage]
             | None => []
             end in
  do_post_stage X stage_dt stage s w = Ok (set_t t s, replay X w log, log)
  /\ self_t (set_t t s) = Some t
  /\ List.length (filter (@is_callback T) log)
     = match _post_stage_callback s with Some _ => 1 | None => 0 end%nat.
Proof.
  intros Ho Hdt. cbv zeta. unfold do_post_stage. rewrite Ho. cbn [getattr_self bind].
  change (_post_stage_callback (set_t (float_add X orig_t stage_dt) s))
    with (_post_stage_callback s).
  change (self_dt (set_t (float_add X orig_t stage_dt) s)) with (self_dt s).
  destruct (_post_stage_callback s) as [callback|].
  - rewrite Hdt. cbn [getattr_self bind]. repeat split.
  - repeat split.
Qed.



Lemma wf_stage_calls (method : string) (s : runtime) :
  wf_runtime s = true -> forallb (@wf_entry T) (stage_calls method s) = true.
Proof.
  unfold wf_runtime. intros H. apply andb_true_iff in H. destruct H as [H _].
  apply forallb_stage_items. exact H.
Qed.

(** *** The destinations of a stage log *)

Lemma launch_dests_hooks (extra : list (arg T)) (items : dict py_call_entry)
    (cur : option string) (l : log_t) :
  launch_dests_from cur (stage_hooks extra items ++ l) = launch_dests_from cur l.
Proof.
  unfold stage_hooks. induction items as [|it items IH]; simpl; [reflexivity | exact IH].
Qed.

Lemma launch_dests_reads (f : string -> Z) (dest : string) (fields : list string)
    (cur : option string) (l : log_t) :
  launch_dests_from cur (map (fun x => EvGetter dest x (f x)) fields ++ l)
  = launch_dests_from cur l.
Proof.
  induction fields as [|x fields IH]; simpl; [reflexivity | exact IH].
Qed.

Lemma launch_dests_blocks (extra : list (arg T)) (items : dict (call_entry T)) :
  forallb (@wf_entry T) items = true ->
  forall w : W, launch_dests (stage_blocks X w extra items) = keys items.
Proof.
  unfold launch_dests.
  induction items as [|[name [[call args] dest]] items IH]; intros Hwf w.
  - reflexivity.
  - cbn [forallb] in Hwf. apply andb_true_iff in Hwf. destruct Hwf as [He Hwf].
    destruct (wf_entry_inv name call args dest He) as [Hname _]. subst name.
    cbn [stage_blocks keys map fst]. unfold launch_block at 1.
    cbn [app launch_dests_from]. rewrite <- app_assoc, launch_dests_reads.
    cbn [app launch_dests_from]. f_equal. now apply IH.
Qed.

Lemma hook_dests_blocks (extra : list (arg T)) (items : dict (call_entry T)) :
  forall w : W, hook_dests (stage_blocks X w extra items) = [].
Proof.
  unfold hook_dests.
  induction items as [|[name [[call args] dest]] items IH]; intros w.
  - reflexivity.
  - cbn [stage_blocks]. rewrite flat_map_app, IH, app_nil_r.
    unfold launch_block. cbn [flat_map app]. rewrite flat_map_app. simpl.
    rewrite app_nil_r. generalize (dev_data X w dest). intros f.
    induction (args_fields args) as [|x fields IHf]; simpl; [reflexivity | exact IHf].
Qed.

Lemma hook_dests_hooks (extra : list (arg T)) (items : dict py_call_entry) :
  forallb wf_py_entry items = true ->
  hook_dests (stage_hooks extra items) = keys items.
Proof.
  unfold hook_dests, stage_hooks.
  induction items as [|[name [py_meth dest]] items IH]; intros Hwf.
  - reflexivity.
  - cbn [forallb] in Hwf. apply andb_true_iff in Hwf. destruct Hwf as [He Hwf].
    unfold wf_py_entry in He. simpl in He. apply String.eqb_eq in He. subst.
    simpl. f_equal. now apply IH.
Qed.

(** A stage calls the hooks of the destinations of the hook table and
    launches the kernels of the destinations of the call table, in the
    order of the tables, and touches no other destination. *)
Lemma do_stage_dests (method : string) (s : runtime) (w : W) s' w' log :
  wf_runtime s = true ->
  _do_stage X method s w = Ok (s', w', log) ->
  hook_dests log = keys (stage_py_calls method s)
  /\ launch_dests log = keys (stage_calls method s).
Proof.
  intros Hwf H.
  assert (Ht : exists t dt, self_t s = Some t /\ self_dt s = Some dt).
  { unfold _do_stage in H.
    destruct (dd_getitem method _) as [call_info calls1].
    destruct (dd_getitem _ (py_calls _)) as [py_call_info py_calls1].
    destruct (self_t s); [|discriminate]. destruct (self_dt s); [|discriminate].
    eauto. }
  destruct Ht as [t [dt [Ht Hdt]]].
  destruct (do_stage_log method s w Hwf Ht Hdt) as [s'' Hs''].
  rewrite Hs'' in H. injection H as _ _ Hl. subst log.
  pose proof (wf_stage_calls method s Hwf) as Hitems.
  unfold wf_runtime in Hwf. apply andb_true_iff in Hwf. destruct Hwf as [_ Hpy].
  unfold stage_log. cbv zeta. split.
  - unfold hook_dests at 1. rewrite flat_map_app.
    fold (hook_dests (stage_hooks (stage_extra_args s t dt) (stage_py_calls method s))).
    match goal with
    | |- _ ++ ?b = _ => change b with (hook_dests (stage_blocks X
          (replay X w (stage_hooks (stage_extra_args s t dt) (stage_py_calls method s)))
          (stage_extra_args s t dt) (stage_calls method s)))
    end.
    rewrite hook_dests_blocks, app_nil_r. apply hook_dests_hooks.
    apply forallb_stage_items. exact Hpy.
  - unfold launch_dests. rewrite launch_dests_hooks.
    now apply launch_dests_blocks.
Qed.

(** C1. In a runtime whose tables are as [_setup_call_data] builds them
    (every runtime after setup is: [runtime_wf] below) and where [step]
    has assigned [t] and [dt], [_do_stage(method)] does not fail,
    and for every destination with a call descriptor for the stage its log
    reads [pre ++ count read :: getter reads ++ launch :: post]: the hook
    of that destination, if it has one, is called in [pre] with the
    destination and with [t] and [dt] in the precision of the runtime;
    then the particle count is read, then every getter is called, then
    the kernel is launched as [call(q, (n,), None, buffers..., t, dt)],
    count and buffers being those of the world at that moment. *)
Theorem do_stage_steps_in_order (method : string) (s : runtime) (w : W)
    (t dt : T) :
  wf_runtime s = true -> self_t s = Some t -> self_dt s = Some dt ->
  exists s' w' log,
    _do_stage X method s w = Ok (s', w', log)
    /\ forall name call args dest,
         In (name, (call, args, dest)) (stage_calls method s) ->
         exists q a1 fields pre post,
           let extra_args :=
             [AScalar (scalar_dtype s) t; AScalar (scalar_dtype s) dt] in
           let w1 := replay X w pre in
           let n := get_number_of_particles X w1 dest in
           args = AQueue q :: a1 :: ANone :: map (AGetter dest) fields
           /\ (forall key py_meth,
                 In (key, (py_meth, dest)) (stage_py_calls method s) ->
                 In (EvPyMeth py_meth dest extra_args) pre)
           /\ log = pre
                    ++ EvGetNumberOfParticles dest n
                    :: map (fun x => EvGetter dest x (dev_data X w1 dest x)) fields
                    ++ EvKernel call
                         ([AQueue q; AGlobalSize n; ANone]
                          ++ map (fun x => ABuffer (dev_data X w1 dest x)) fields
                          ++ extra_args)
                    :: post.
Proof.
  intros Hwf Ht Hdt.
  destruct (do_stage_log method s w Hwf Ht Hdt) as [s' Hs'].
  exists s', (replay X w (stage_log X method s w t dt)), (stage_log X method s w t dt).
  split; [exact Hs'|].
  intros name call args dest Hin.
  pose proof (wf_stage_calls method s Hwf) as Hitems.
  rewrite forallb_forall in Hitems.
  destruct (wf_entry_inv name call args dest (Hitems _ Hin))
    as [Hname [q [a1 [fields Hargs]]]].
  apply in_split in Hin. destruct Hin as [l1 [l2 Hsplit]].
  set (extra := stage_extra_args s t dt).
  set (hooks := stage_hooks extra (stage_py_calls method s)).
  exists q, a1, fields,
    (hooks ++ stage_blocks X (replay X w hooks) extra l1),
    (stage_blocks X
       (replay X (replay X (replay X w hooks) (stage_blocks X (replay X w hooks) extra l1))
          (launch_block X
             (replay X (replay X w hooks) (stage_blocks X (replay X w hooks) extra l1))
             call q dest fields extra))
       extra l2).
  cbv zeta. split; [exact Hargs|]. split.
  - intros key py_meth Hpy. apply in_or_app. left.
    unfold hooks, stage_hooks.
    apply in_map_iff. exists (key, (py_meth, dest)).
    split; [reflexivity | exact Hpy].
  - unfold stage_log. cbv zeta. fold extra. fold hooks.
    rewrite Hsplit, stage_blocks_app. cbn [stage_blocks].
    rewrite Hargs, args_fields_getters. cbn [args_queue].
    rewrite replay_app. unfold launch_block at 1.
    rewrite <- !app_assoc. cbn [app]. rewrite <- !app_assoc. reflexivity.
Qed.

Lemma do_stage_fresh_counts (method : string) (s : runtime) (w : W) (t dt : T)
    s' w' log :
  wf_runtime s = true -> self_t s = Some t -> self_dt s = Some dt ->
  _do_stage X method s w = Ok (s', w', log) ->
  launches_read_fresh_counts X w (stage_calls method s) log.
Proof.
  intros Hwf Ht Hdt H pre call args post Hlog.
  destruct (do_stage_launch method s w pre post call args Hwf Ht Hdt H Hlog)
    as [args0 [dest [q [a1 [fields [pre' [Hin [Ha [Hp Hr]]]]]]]]].
  exists dest, args0, pre',
    (map (fun x => EvGetter dest x (dev_data X (replay X w pre) dest x)) fields).
  split; [exact Hin|]. split; [exact Hp|]. split.
  - clear. induction fields as [|x fields IH]; simpl; [reflexivity | exact IH].
  - rewrite Hr. reflexivity.
Qed.

Lemma do_stage_current_buffers (method : string) (s : runtime) (w : W) (t dt : T)
    s' w' log :
  wf_runtime s = true -> self_t s = Some t -> self_dt s = Some dt ->
  _do_stage X method s w = Ok (s', w', log) ->
  launches_read_current_buffers X w (stage_calls method s)
    (stage_extra_args s t dt) log.
Proof.
  intros Hwf Ht Hdt H pre call args post Hlog.
  destruct (do_stage_launch method s w pre post call args Hwf Ht Hdt H Hlog)
    as [args0 [dest [q [a1 [fields [pre' [Hin [Ha [Hp Hr]]]]]]]]].
  exists dest, args0, fields. split; [exact Hin|].
  rewrite Hr, Ha. split; reflexivity.
Qed.

Lemma do_stage_extra_args (method : string) (s : runtime) (w : W) s' w' log
    (t dt : T) :
  _do_stage X method s w = Ok (s', w', log) ->
  stage_extra_args s' t dt = stage_extra_args s t dt
  /\ self_t s' = self_t s /\ self_dt s' = self_dt s.
Proof.
  intros H. apply do_stage_context in H. destruct H as [Hc Ht].
  destruct Hc as (_ & _ & _ & _ & Hu & _ & _ & Hd & _).
  unfold stage_extra_args, scalar_dtype. rewrite Hu. repeat split; assumption.
Qed.

(** Every call descriptor of a stage gets its launch: the log of the stage
    holds, for the entry, the read of the count, the reads of its getters
    and the launch, count and buffers being those of the world at that
    moment. *)
Lemma do_stage_entry (method : string) (s : runtime) (w : W) (t dt : T)
    s' w' log name call args dest :
  wf_runtime s = true -> self_t s = Some t -> self_dt s = Some dt ->
  _do_stage X method s w = Ok (s', w', log) ->
  In (name, (call, args, dest)) (stage_calls method s) ->
  exists q a1 fields pre post,
    args = AQueue q :: a1 :: ANone :: map (AGetter dest) fields
    /\ log = pre
             ++ EvGetNumberOfParticles dest
                  (get_number_of_particles X (replay X w pre) dest)
             :: map (fun x => EvGetter dest x (dev_data X (replay X w pre) dest x))
                    fields
             ++ EvKernel call
                  ([AQueue q;
                    AGlobalSize (get_number_of_particles X (replay X w pre) dest);
                    ANone]
                   ++ map (fun x => ABuffer (dev_data X (replay X w pre) dest x))
                          fields
                   ++ stage_extra_args s t dt)
             :: post.
Proof.
  intros Hwf Ht Hdt H Hin.
  destruct (do_stage_log method s w Hwf Ht Hdt) as [s'' Hs''].
  rewrite Hs'' in H. injection H as _ _ Hl. subst log.
  pose proof (wf_stage_calls method s Hwf) as Hitems.
  rewrite forallb_forall in Hitems.
  destruct (wf_entry_inv name call args dest (Hitems _ Hin))
    as [Hname [q [a1 [fields Hargs]]]].
  apply in_split in Hin. destruct Hin as [l1 [l2 Hsplit]].
  set (extra := stage_extra_args s t dt).
  set (hooks := stage_hooks extra (stage_py_calls method s)).
  exists q, a1, fields,
    (hooks ++ stage_blocks X (replay X w hooks) extra l1),
    (stage_blocks X
       (replay X (replay X (replay X w hooks) (stage_blocks X (replay X w hooks) extra l1))
          (launch_block X
             (replay X (replay X w hooks) (stage_blocks X (replay X w hooks) extra l1))
             call q dest fields extra))
       extra l2).
  split; [exact Hargs|].
  unfold stage_log. cbv zeta. fold extra. fold hooks.
  rewrite Hsplit, stage_blocks_app. cbn [stage_blocks].
  rewrite Hargs, args_fields_getters. cbn [args_queue].
  rewrite replay_app. unfold launch_block at 1.
  rewrite <- !app_assoc. cbn [app]. rewrite <- !app_assoc. reflexivity.
Qed.

Lemma getter_reads_are_reads (f : string -> Z) (dest : string) (fields : list string) :
  forallb (@is_getter_read T) (map (fun x => EvGetter dest x (f x)) fields) = true.
Proof.
  induction fields as [|x fields IH]; simpl; [reflexivity | exact IH].
Qed.

Lemma do_stage_entries_fresh_counts (method : string) (s : runtime) (w : W)
    (t dt : T) s' w' log :
  wf_runtime s = true -> self_t s = Some t -> self_dt s = Some dt ->
  _do_stage X method s w = Ok (s', w', log) ->
  entries_launch_fresh_counts X w (stage_calls method s) log.
Proof.
  intros Hwf Ht Hdt H name call args dest Hin.
  destruct (@do_stage_entry method s w t dt s' w' log name call args dest
              Hwf Ht Hdt H Hin)
    as [q [a1 [fields [pre [post [_ Hlog]]]]]].
  eexists pre, _, _, post. cbv zeta. split; [exact Hlog|]. split.
  - apply getter_reads_are_reads.
  - reflexivity.
Qed.

Lemma do_stage_entries_current_buffers (method : string) (s : runtime) (w : W)
    (t dt : T) s' w' log :
  wf_runtime s = true -> self_t s = Some t -> self_dt s = Some dt ->
  _do_stage X method s w = Ok (s', w', log) ->
  entries_launch_current_buffers X w (stage_calls method s)
    (stage_extra_args s t dt) log.
Proof.
  intros Hwf Ht Hdt H name call args dest Hin.
  destruct (@do_stage_entry method s w t dt s' w' log name call args dest
              Hwf Ht Hdt H Hin)
    as [q [a1 [fields [pre [post [Hargs Hlog]]]]]].
  eexists fields, pre, _, _, post. cbv zeta.
  split; [rewrite Hargs; reflexivity|]. split; [exact Hlog|]. reflexivity.
Qed.

(** C4. For every destination with a call descriptor for a stage, the
    stage reads the particle count of the destination, then its getters,
    and launches its kernel with that count as global size: the count the
    destination has in the world at the moment of the launch. Every
    launch of a stage is such a launch. The count that [args[1]] keeps
    from an earlier launch is never used: when a stage has run and the
    counts then change in any way, the next stage does not fail, launches
    for every destination of its call table and passes the counts after
    the change. *)
Theorem launch_count_is_fresh (method1 method2 : string) (s : runtime) (w : W)
    (t dt : T) s1 w1 log1 (change : W -> W) :
  wf_runtime s = true -> self_t s = Some t -> self_dt s = Some dt ->
  _do_stage X method1 s w = Ok (s1, w1, log1) ->
  launches_read_fresh_counts X w (stage_calls method1 s) log1
  /\ entries_launch_fresh_counts X w (stage_calls method1 s) log1
  /\ exists s2 w2 log2,
       _do_stage X method2 s1 (change w1) = Ok (s2, w2, log2)
       /\ launches_read_fresh_counts X (change w1) (stage_calls method2 s1) log2
       /\ entries_launch_fresh_counts X (change w1) (stage_calls method2 s1) log2.
Proof.
  intros Hwf Ht Hdt H1. split; [|split].
  - eapply do_stage_fresh_counts; eassumption.
  - eapply do_stage_entries_fresh_counts; eassumption.
  - destruct (do_stage_tables _ _ _ H1 Hwf) as [Hwf1 _].
    destruct (do_stage_extra_args _ _ _ t dt H1) as [_ [Ht1 Hdt1]].
    rewrite Ht in Ht1. rewrite Hdt in Hdt1.
    destruct (do_stage_log method2 s1 (change w1) Hwf1 Ht1 Hdt1) as [s2 Hs2].
    eexists _, _, _. split; [exact Hs2|]. split.
    + eapply do_stage_fresh_counts; eassumption.
    + eapply do_stage_entries_fresh_counts; eassumption.
Qed.

(** C3. The call table holds getters, never buffer addresses, before and
    after a stage. For every destination with a call descriptor for a
    stage, the stage calls each getter of the descriptor right before the
    launch, and the launch is passed what the getters return: the buffers
    the fields have in the world at the moment of the launch. Every
    launch of a stage is such a launch. When a stage has run and buffers
    are then reallocated in any way, the next stage does not fail, calls
    the getters of every destination of its call table again and passes
    the buffers after the reallocation. *)
Theorem launch_buffers_are_late_bound (method1 method2 : string) (s : runtime)
    (w : W) (t dt : T) s1 w1 log1 (realloc : W -> W) :
  wf_runtime s = true -> self_t s = Some t -> self_dt s = Some dt ->
  _do_stage X method1 s w = Ok (s1, w1, log1) ->
  launches_read_current_buffers X w (stage_calls method1 s)
    (stage_extra_args s t dt) log1
  /\ entries_launch_current_buffers X w (stage_calls method1 s)
       (stage_extra_args s t dt) log1
  /\ wf_runtime s1 = true
  /\ exists s2 w2 log2,
       _do_stage X method2 s1 (realloc w1) = Ok (s2, w2, log2)
       /\ launches_read_current_buffers X (realloc w1) (stage_calls method2 s1)
            (stage_extra_args s t dt) log2
       /\ entries_launch_current_buffers X (realloc w1) (stage_calls method2 s1)
            (stage_extra_args s t dt) log2
       /\ wf_runtime s2 = true.
Proof.
  intros Hwf Ht Hdt H1. split; [|split; [|split]].
  - eapply do_stage_current_buffers; eassumption.
  - eapply do_stage_entries_current_buffers; eassumption.
  - now destruct (do_stage_tables _ _ _ H1 Hwf).
  - destruct (do_stage_tables _ _ _ H1 Hwf) as [Hwf1 _].
    destruct (do_stage_extra_args _ _ _ t dt H1) as [He [Ht1 Hdt1]].
    rewrite Ht in Ht1. rewrite Hdt in Hdt1.
    destruct (do_stage_log method2 s1 (realloc w1) Hwf1 Ht1 Hdt1) as [s2 Hs2].
    eexists _, _, _. split; [exact Hs2|]. split; [|split].
    + rewrite <- He. eapply do_stage_current_buffers; eassumption.
    + rewrite <- He. eapply do_stage_entries_current_buffers; eassumption.
    + now destruct (do_stage_tables _ _ _ Hs2 Hwf1).
Qed.

End Facts.

(** ** Kernel generation *)

Section Generation.

Variables T W : Type.
Variable X : Externals T W.

Lemma stepper_classes_spec (steppers0 : dict Stepper) :
  NoDup (keys (stepper_classes steppers0))
  /\ (forall c stepper, In (c, stepper) (stepper_classes steppers0) ->
                        cls_name stepper = c)
  /\ (forall dest stepper, In (dest, stepper) steppers0 ->
                           In (cls_name stepper) (keys (stepper_classes steppers0))).
Proof.
  unfold stepper_classes.
  assert (G : forall (l : dict Stepper) (acc : dict Stepper),
             NoDup (keys acc) ->
             (forall c stepper, In (c, stepper) acc -> cls_name stepper = c) ->
             let r := fold_left (fun classes (item : string * Stepper) =>
                                   dict_set (cls_name (snd item)) (snd item) classes)
                                l acc in
             NoDup (keys r)
             /\ (forall c stepper, In (c, stepper) r -> cls_name stepper = c)
             /\ (forall c, In c (keys acc) -> In c (keys r))
             /\ (forall dest stepper, In (dest, stepper) l ->
                                      In (cls_name stepper) (keys r))).
  { induction l as [|[dest stepper] l IH]; intros acc Hnd Hcls; cbn [fold_left snd].
    - repeat split; auto. intros ? ? [].
    - destruct (IH (dict_set (cls_name stepper) stepper acc)) as [H1 [H2 [H3 H4]]].
      + now apply NoDup_keys_dict_set.
      + intros c st Hin. apply in_dict_set in Hin.
        destruct Hin as [[-> ->]|Hin]; [reflexivity | now apply Hcls].
      + cbv zeta in *. split; [exact H1|]. split; [exact H2|]. split.
        * intros c Hc. apply H3. apply in_keys_dict_set. now right.
        * intros d st [Heq|Hin].
          -- inversion Heq; subst. apply H3. apply in_keys_dict_set. now left.
          -- eapply H4; eassumption. }
  destruct (G steppers0 [] (NoDup_nil _)) as [H1 [H2 [_ H4]]].
  - intros ? ? [].
  - auto.
Qed.

(** [parse_instance] is called on one instance per class name, the class
    names in sorted order. *)
Lemma parsed_instances_classes (steppers0 : dict Stepper) :
  map cls_name (parsed_instances steppers0)
  = sorted (keys (stepper_classes steppers0)).
Proof.
  unfold parsed_instances. cbv zeta.
  destruct (stepper_classes_spec steppers0) as [_ [Hcls _]].
  assert (Hall : forall c, In c (sorted (keys (stepper_classes steppers0))) ->
                           In c (keys (stepper_classes steppers0))).
  { intros c Hc. eapply Permutation_in; [|exact Hc].
    apply Permutation_sym, sorted_perm. }
  induction (sorted (keys (stepper_classes steppers0))) as [|c l IH]; [reflexivity|].
  cbn [flat_map]. rewrite map_app, IH by (intros; apply Hall; now right).
  destruct (dict_get_of_key c (stepper_classes steppers0)) as [stepper Hget];
    [apply Hall; now left|].
  rewrite Hget. simpl. f_equal. apply Hcls. now apply dict_get_In.
Qed.

(** *** [get_code] fills [data] and [py_data] in sorted order *)

Lemma generation_invariant_init (h0 : IntegratorOpenCLHelper T)
    (rest : list string) :
  data h0 = [] -> py_data h0 = [] -> generation_invariant h0 h0 rest.
Proof.
  intros Hd Hp. unfold generation_invariant. rewrite Hd, Hp.
  repeat split; try (intros m; constructor); try (intros m k []); constructor.
Qed.

Lemma get_py_stage_code_inv (h0 h h' : IntegratorOpenCLHelper T)
    (dest method : string) (rest : list string) :
  StronglySorted str_le (dest :: rest) ->
  generation_invariant h0 h (dest :: rest) ->
  get_py_stage_code dest method h = Ok h' ->
  generation_invariant h0 h' (dest :: rest).
Proof.
  intros Hrest Hinv H. unfold get_py_stage_code in H.
  apply bind_ok in H. destruct H as [obj [_ H]].
  apply bind_ok in H. destruct H as [stepper [_ H]].
  destruct (hasattr stepper _); inversion H; subst; clear H; [|exact Hinv].
  destruct Hinv as [Hframe [Hdata [Hs [Hb Hn]]]].
  destruct (@dd_sorted_below_setitem _ ("py_" ++ method) dest dest _ _ Hs Hb Hrest)
    as [Hs' Hb'].
  split; [exact Hframe|]. split; [exact Hdata|].
  cbn [py_data set_py_data]. split; [exact Hs'|]. split; [exact Hb'|].
  now apply NoDup_keys_dd_setitem.
Qed.

Lemma get_stepper_kernel_inv (h0 h h' : IntegratorOpenCLHelper T)
    (dest method text : string) (rest : list string) :
  StronglySorted str_le (dest :: rest) ->
  generation_invariant h0 h (dest :: rest) ->
  get_stepper_kernel X dest method h = Ok (h', text) ->
  generation_invariant h0 h' (dest :: rest).
Proof.
  intros Hrest Hinv H. unfold get_stepper_kernel in H.
  apply bind_ok in H. destruct H as [obj [_ H]].
  destruct (get_array_names X _) as [srcs d].
  inversion H; subst; clear H.
  destruct Hinv as [Hframe [[Hs [Hb Hn]] Hpy]].
  destruct (@dd_sorted_below_setitem _ method dest
              ((method ++ "_" ++ dest)%string, d) _ _ Hs Hb Hrest) as [Hs' Hb'].
  split; [exact Hframe|]. split; [|exact Hpy].
  cbn [data set_data]. split; [exact Hs'|]. split; [exact Hb'|].
  now apply NoDup_keys_dd_setitem.
Qed.

Lemma render_dest_inv (h0 : IntegratorOpenCLHelper T) (obj : Integrator T)
    (dest : string) (rest : list string)
    (acc acc' : IntegratorOpenCLHelper T * string) :
  StronglySorted str_le (dest :: rest) ->
  generation_invariant h0 (fst acc) (dest :: rest) ->
  render_dest X obj acc dest = Ok acc' ->
  generation_invariant h0 (fst acc') rest.
Proof.
  intros Hrest Hinv H. destruct acc as [h text]. unfold render_dest in H.
  assert (G : generation_invariant h0 (fst acc') (dest :: rest)).
  { eapply (foldM_inv (render_method X obj dest)
              (fun a => generation_invariant h0 (fst a) (dest :: rest)));
      [| |exact H]; [|exact Hinv].
    intros [h1 text1] method [h2 text2] Hinv1 Hstep. unfold render_method in Hstep.
    apply bind_ok in Hstep. destruct Hstep as [h3 [Hpy Hstep]].
    cbn [fst] in Hinv1.
    assert (Hinv3 : generation_invariant h0 h3 (dest :: rest))
      by (eapply get_py_stage_code_inv; eassumption).
    destruct (has_stepper_loop X obj dest method).
    - apply bind_ok in Hstep. destruct Hstep as [[h4 kernel] [Hk Hstep]].
      inversion Hstep; subst. cbn [fst].
      eapply get_stepper_kernel_inv; eassumption.
    - inversion Hstep; subst. exact Hinv3. }
  destruct G as [Hframe [[Hs [Hb Hn]] [Hps [Hpb Hpn]]]].
  split; [exact Hframe|]. split; split; auto; split; auto;
    eapply dd_below_tail; eassumption.
Qed.

Lemma get_code_inv (h0 h1 : IntegratorOpenCLHelper T) (text : string) :
  data h0 = [] -> py_data h0 = [] ->
  get_code X h0 = Ok (h1, text) ->
  generation_invariant h0 h1 [].
Proof.
  intros Hd Hp H. unfold get_code in H.
  destruct (object h0) as [obj|] eqn:Hobj.
  - apply bind_ok in H. destruct H as [code [_ H]].
    apply bind_ok in H. destruct H as [[h2 text2] [Hfold H]].
    inversion H; subst; clear H.
    change h1 with (fst (h1, text2)).
    eapply (foldM_inv_pos (render_dest X obj)
              (fun rest a => StronglySorted str_le rest
                             /\ generation_invariant h0 (fst a) rest));
      [| |exact Hfold].
    + intros a dest rest a' [Hrest Hinv] Hstep. split.
      * now inversion Hrest.
      * eapply render_dest_inv; eassumption.
    + split; [apply sorted_sorted|]. cbn [fst].
      now apply generation_invariant_init.
  - inversion H; subst. now apply generation_invariant_init.
Qed.

(** *** [_setup_call_data] copies the order of [data] and [py_data] *)

Lemma setup_call_ok (prog : option (list string)) (array_map : list string)
    (q : Z) (method : string) (c c' : defaultdict (call_entry T))
    (item : string * (string * list string)) :
  setup_call prog array_map q method c item = Ok c' ->
  c' = dd_setitem method (fst item)
         (fst (snd item),
          AQueue q :: ANone :: ANone
          :: map (AGetter (fst item)) (map (str_drop 2) (snd (snd item))),
          fst item) c.
Proof.
  destruct item as [dest_name [kernel args]]. unfold setup_call. intros H.
  apply bind_ok in H. destruct H as [dest [Hd H]].
  apply bind_ok in H. destruct H as [call [Hc H]].
  unfold array_map_getitem in Hd. destruct (existsb _ array_map); inversion Hd; subst.
  unfold getattr_program in Hc. destruct prog as [kernels|]; [|discriminate].
  destruct (existsb _ kernels); inversion Hc; subst.
  inversion H; subst. cbn [fst snd app]. now rewrite map_map.
Qed.

Lemma setup_py_call_ok (steppers0 : dict Stepper) (array_map : list string)
    (method : string) (c c' : defaultdict py_call_entry) (dest_name : string) :
  setup_py_call steppers0 array_map method c dest_name = Ok c' ->
  exists py_meth, c' = dd_setitem method dest_name (py_meth, dest_name) c.
Proof.
  unfold setup_py_call. intros H.
  apply bind_ok in H. destruct H as [stepper [_ H]].
  apply bind_ok in H. destruct H as [py_meth [_ H]].
  apply bind_ok in H. destruct H as [dest [Hd H]].
  unfold array_map_getitem in Hd. destruct (existsb _ array_map); inversion Hd; subst.
  inversion H; subst. eauto.
Qed.

Lemma copied_keys (U V : Type) (src : defaultdict U) (c' : defaultdict V) :
  NoDup (keys src) ->
  (forall m u, In (m, u) src -> keys (stage_items m c') = keys u) ->
  (forall m, ~ In m (keys src) -> stage_items m c' = []) ->
  forall m, keys (stage_items m c') = keys (stage_items m src).
Proof.
  intros Hnd Hin Hout m. unfold stage_items at 2.
  destruct (dict_get m src) as [u|] eqn:E.
  - apply Hin. now apply dict_get_In.
  - rewrite Hout; [reflexivity | now apply dict_get_None].
Qed.

Lemma setup_call_data_wf (h h' : IntegratorOpenCLHelper T) :
  _setup_call_data h = Ok h' ->
  wf_calls (calls h) = true -> wf_py_calls (py_calls h) = true ->
  wf_calls (calls h') = true /\ wf_py_calls (py_calls h') = true.
Proof.
  intros H Hwc Hwp. unfold _setup_call_data in H.
  apply bind_ok in H. destruct H as [obj [_ H]].
  apply bind_ok in H. destruct H as [pc [Hpc H]].
  apply bind_ok in H. destruct H as [c [Hcc H]].
  inversion H; subst; clear H. cbn [calls py_calls set_calls set_py_calls].
  split.
  - eapply (foldM_inv _ (fun c0 => wf_calls c0 = true)); [| |exact Hcc]; [|exact Hwc].
    intros c0 item c1 Hwf Hstep.
    eapply (foldM_inv _ (fun c0 => wf_calls c0 = true)); [| |exact Hstep]; [|exact Hwf].
    intros c2 b c3 Hwf2 Hstep2. apply setup_call_ok in Hstep2. subst c3.
    unfold wf_calls. apply forallb_dd_setitem; [|exact Hwf2].
    rewrite <- map_map. apply wf_entry_build.
  - eapply (foldM_inv _ (fun c0 => wf_py_calls c0 = true)); [| |exact Hpc]; [|exact Hwp].
    intros c0 item c1 Hwf Hstep.
    eapply (foldM_inv _ (fun c0 => wf_py_calls c0 = true)); [| |exact Hstep]; [|exact Hwf].
    intros c2 b c3 Hwf2 Hstep2. apply setup_py_call_ok in Hstep2.
    destruct Hstep2 as [py_meth ->].
    unfold wf_py_calls. apply forallb_dd_setitem; [|exact Hwf2].
    unfold wf_py_entry. simpl. apply String.eqb_refl.
Qed.

Lemma setup_call_data_tables (h h' : IntegratorOpenCLHelper T) :
  _setup_call_data h = Ok h' ->
  calls h = [] -> py_calls h = [] ->
  NoDup (keys (data h)) -> NoDup (keys (py_data h)) ->
  dd_sorted (data h) -> dd_sorted (py_data h) ->
  (forall m, keys (stage_items m (calls h')) = keys (stage_items m (data h)))
  /\ (forall m, keys (stage_items m (py_calls h')) = keys (stage_items m (py_data h)))
  /\ wf_calls (calls h') = true
  /\ wf_py_calls (py_calls h') = true.
Proof.
  intros H Hc Hp Hnd Hnp Hsd Hsp.
  assert (Hwf : wf_calls (calls h') = true /\ wf_py_calls (py_calls h') = true).
  { apply (setup_call_data_wf h); [exact H | now rewrite Hc | now rewrite Hp]. }
  unfold _setup_call_data in H.
  apply bind_ok in H. destruct H as [obj [_ H]].
  apply bind_ok in H. destruct H as [pc [Hpc H]].
  apply bind_ok in H. destruct H as [c [Hcc H]].
  inversion H; subst; clear H. cbn [calls py_calls set_calls set_py_calls].
  rewrite Hc in Hcc. rewrite Hp in Hpc.
  assert (Hinner : forall (V : Type) (dd : defaultdict V) m u,
             NoDup (keys dd) -> dd_sorted dd -> In (m, u) dd -> NoDup (keys u)).
  { intros V dd m u Hn Hs Hin. apply sorted_lt_NoDup.
    specialize (Hs m). unfold stage_items in Hs.
    now rewrite (dict_get_of_In_NoDup _ _ _ Hn Hin) in Hs. }
  split; [|split; [|split]].
  - destruct (@outer_fold_keys _ _ _ fst (fun u => u)
                (setup_call (program h) (_array_map (acceleration_eval_helper h))
                            (_queue (acceleration_eval_helper h)))
                (fun m c0 b c1 Hstep =>
                   ex_intro _ _ (setup_call_ok _ _ _ _ _ _ Hstep))
                (data h) [] c Hnd
                (fun m u Hin => Hinner _ (data h) m u Hnd Hsd Hin)
                (fun m _ => eq_refl) Hcc) as [Hk Hout].
    apply copied_keys; [exact Hnd | exact Hk |].
    intros m Hm. now rewrite Hout.
  - assert (Hspec : forall m c0 b c1,
               setup_py_call (steppers obj) (_array_map (acceleration_eval_helper h))
                             m c0 b = Ok c1 ->
               exists v, c1 = dd_setitem m b v c0).
    { intros m c0 b c1 Hstep. apply setup_py_call_ok in Hstep.
      destruct Hstep as [py_meth ->]. eauto. }
    destruct (@outer_fold_keys _ _ _ (fun x : string => x) (@keys string)
                (setup_py_call (steppers obj) (_array_map (acceleration_eval_helper h)))
                Hspec (py_data h) [] pc Hnp) as [Hk Hout].
    + intros m u Hin. rewrite map_id. eapply Hinner; eassumption.
    + reflexivity.
    + exact Hpc.
    + apply copied_keys; [exact Hnp | |].
      * intros m u Hin. rewrite (Hk m u Hin). apply map_id.
      * intros m Hm. now rewrite Hout.
  - apply Hwf.
  - apply Hwf.
Qed.

(** *** The order of the tables stays as setup left it *)

Lemma exec_ops_tables (ops : list (op T)) (t dt : T) :
  forall (s : OpenCLIntegrator T) (w : W) s' w' log,
    exec_ops X ops t dt s w = Ok (s', w', log) ->
    wf_runtime s = true ->
    wf_runtime s' = true
    /\ (forall m, keys (stage_calls m s') = keys (stage_calls m s))
    /\ (forall m, stage_py_calls m s' = stage_py_calls m s).
Proof.
  induction ops as [|o ops IH]; intros s w s' w' log H Hwf.
  - simpl in H. inversion H; subst. auto.
  - cbn [exec_ops] in H.
    apply bind_ok in H. destruct H as [[[s1 w1] log1] [H1 H]].
    apply bind_ok in H. destruct H as [[[s2 w2] log2] [H2 H]].
    inversion H; subst; clear H.
    assert (G : wf_runtime s1 = true
                /\ (forall m, keys (stage_calls m s1) = keys (stage_calls m s))
                /\ (forall m, stage_py_calls m s1 = stage_py_calls m s)).
    { destruct o as [method| |stage_dt stage]; simpl in H1.
      - destruct (existsb _ _); [|discriminate].
        destruct (do_stage_tables X _ _ _ H1 Hwf) as [G1 [G2 [G3 _]]]. auto.
      - apply compute_accelerations_state in H1. subst. auto.
      - apply do_post_stage_context in H1. destruct H1 as [_ Hh].
        unfold wf_runtime, stage_calls, stage_py_calls. rewrite Hh. auto. }
    destruct G as [G1 [G2 G3]].
    destruct (IH _ _ _ _ _ H2 G1) as [I1 [I2 I3]].
    split; [exact I1|]. split.
    + intros m. now rewrite I2.
    + intros m. now rewrite I3.
Qed.

Lemma reachable_tables (s0 s : OpenCLIntegrator T) :
  reachable X s0 s ->
  wf_runtime s0 = true ->
  wf_runtime s = true
  /\ (forall m, keys (stage_calls m s) = keys (stage_calls m s0))
  /\ (forall m, stage_py_calls m s = stage_py_calls m s0).
Proof.
  intros Hr Hwf.
  induction Hr as [|s v Hr IH|s v Hr IH|s v Hr IH|s w s' w' log Hr IH H
                   |s method w s' w' log Hr IH H
                   |s stage_dt stage w s' w' log Hr IH H
                   |s t dt w s' w' log Hr IH H]; auto.
  - apply compute_accelerations_state in H. now subst.
  - destruct IH as [I1 [I2 I3]].
    destruct (do_stage_tables X _ _ _ H I1) as [H1 [H2 [H3 _]]].
    split; [exact H1|]. split.
    + intros m. rewrite H2. apply I2.
    + intros m. rewrite H3. apply I3.
  - apply do_post_stage_context in H. destruct H as [_ Hh].
    unfold wf_runtime, stage_calls, stage_py_calls in *. now rewrite Hh.
  - destruct IH as [I1 [I2 I3]]. unfold step in H.
    apply exec_ops_tables in H; [|exact I1].
    destruct H as [H1 [H2 H3]]. split; [exact H1|]. split.
    + intros m. rewrite H2. apply I2.
    + intros m. rewrite H3. apply I3.
Qed.

(** Every runtime that [setup_compiled_module] builds from well-formed
    tables, empty ones to begin with, is well formed, and stays so. *)
Lemma runtime_wf (h : IntegratorOpenCLHelper T) (module : list string) (ae : Z)
    (s0 s : OpenCLIntegrator T) :
  wf_calls (calls h) = true -> wf_py_calls (py_calls h) = true ->
  setup_compiled_module X module ae h = Ok s0 ->
  reachable X s0 s ->
  wf_runtime s = true.
Proof.
  intros Hwc Hwp Hsetup Hreach.
  unfold setup_compiled_module in Hsetup.
  apply bind_ok in Hsetup. destruct Hsetup as [h2 [Hh2 Hinit]].
  apply setup_call_data_wf in Hh2; [|exact Hwc|exact Hwp].
  destruct Hh2 as [Hc2 Hp2].
  unfold OpenCLIntegrator_init in Hinit.
  apply bind_ok in Hinit. destruct Hinit as [code [_ Hinit]].
  apply bind_ok in Hinit. destruct Hinit as [obj' [_ Hinit]].
  inversion Hinit; subst s0; clear Hinit.
  apply (reachable_tables Hreach). unfold wf_runtime. cbn [helper].
  now rewrite Hc2, Hp2.
Qed.

(** The procedure a runtime runs at every step is the body of
    [one_timestep] of the integrator, as setup captured it. *)
Lemma one_timestep_captured (h : IntegratorOpenCLHelper T) (obj : Integrator T)
    (module : list string) (ae : Z) (s0 s : OpenCLIntegrator T) :
  object h = Some obj ->
  setup_compiled_module X module ae h = Ok s0 ->
  reachable X s0 s ->
  one_timestep s = integrator_one_timestep obj.
Proof.
  intros Hobj Hsetup Hreach.
  assert (H0 : one_timestep s0 = integrator_one_timestep obj).
  { unfold setup_compiled_module in Hsetup.
    apply bind_ok in Hsetup. destruct Hsetup as [h2 [Hh2 Hinit]].
    assert (Ho2 : object h2 = Some obj).
    { unfold _setup_call_data in Hh2.
      apply bind_ok in Hh2. destruct Hh2 as [obj1 [_ Hh2]].
      apply bind_ok in Hh2. destruct Hh2 as [pc [_ Hh2]].
      apply bind_ok in Hh2. destruct Hh2 as [c [_ Hh2]].
      inversion Hh2; subst. exact Hobj. }
    unfold OpenCLIntegrator_init, get_timestep_code, getattr_object in Hinit.
    rewrite Ho2 in Hinit. cbn [bind] in Hinit. inversion Hinit; subst. reflexivity. }
  rewrite <- H0. clear H0 Hsetup Hobj.
  induction Hreach as [|s v Hr IH|s v Hr IH|s v Hr IH|s w s' w' log Hr IH H
                       |s method w s' w' log Hr IH H
                       |s stage_dt stage w s' w' log Hr IH H
                       |s t dt w s' w' log Hr IH H]; auto.
  - apply compute_accelerations_state in H. now subst.
  - apply do_stage_context in H. destruct H as [(_ & _ & _ & _ & _ & Ho & _) _].
    now rewrite Ho.
  - apply do_post_stage_context in H. destruct H as [(_ & _ & _ & _ & _ & Ho & _) _].
    now rewrite Ho.
  - unfold step in H. apply exec_ops_context in H.
    destruct H as (_ & _ & _ & _ & _ & Ho & _). now rewrite Ho.
Qed.

(** C5. Let the helper generate code from a fresh state, let
    [setup_compiled_module] build the runtime, and let the runtime go
    through any calls of its methods. Whenever a stage then runs, its
    hooks are called in strictly increasing order of destination name and
    its kernels are launched in strictly increasing order of destination
    name; both orders are the key orders of the tables as setup left them,
    whatever the time, the world and the steps taken before. The hooks of
    all destinations come in a first pass, the launches in a second. *)
Theorem stage_order_is_lexicographic (obj : Integrator T)
    (aeh : AccelerationEvalHelper) (h1 : IntegratorOpenCLHelper T)
    (text : string) (module : list string) (ae : Z)
    (s0 s : OpenCLIntegrator T) (method : string) (w : W) s' w' log :
  get_code X (helper_init (Some obj) aeh) = Ok (h1, text) ->
  setup_compiled_module X module ae h1 = Ok s0 ->
  reachable X s0 s ->
  _do_stage X method s w = Ok (s', w', log) ->
  StronglySorted str_lt (hook_dests log)
  /\ StronglySorted str_lt (launch_dests log)
  /\ hook_dests log = keys (stage_py_calls method s0)
  /\ launch_dests log = keys (stage_calls method s0)
  /\ exists hooks launches,
       log = hooks ++ launches
       /\ launch_dests hooks = [] /\ hook_dests launches = [].
Proof.
  intros Hgen Hsetup Hreach Hstage.
  apply get_code_inv in Hgen; [|reflexivity|reflexivity].
  destruct Hgen as [[_ [_ [Hc [Hp _]]]] [[Hds [_ Hdn]] [Hps [_ Hpn]]]].
  cbn [helper_init calls py_calls] in Hc, Hp.
  unfold setup_compiled_module in Hsetup.
  apply bind_ok in Hsetup. destruct Hsetup as [h2 [Hh2 Hinit]].
  apply setup_call_data_tables in Hh2; try assumption.
  destruct Hh2 as [Hk [Hpk [Hwc Hwp]]]. cbn [data py_data set_program] in Hk, Hpk.
  unfold OpenCLIntegrator_init in Hinit.
  apply bind_ok in Hinit. destruct Hinit as [code [_ Hinit]].
  apply bind_ok in Hinit. destruct Hinit as [obj' [_ Hinit]].
  inversion Hinit; subst s0; clear Hinit.
  assert (Hwf0 : wf_runtime
                   {| helper := h2; acceleration_eval := ae; nnps := None;
                      parallel_manager := None; _post_stage_callback := None;
                      _use_double := use_double X; one_timestep := code;
                      methods := get_stepper_method_wrapper_names X obj';
                      self_t := None; self_dt := None; self_orig_t := None |} = true).
  { unfold wf_runtime. cbn [helper]. now rewrite Hwc, Hwp. }
  destruct (reachable_tables Hreach Hwf0) as [Hwf [Hkeys Hpy]].
  pose proof Hstage as Hlog.
  destruct (do_stage_dests X _ _ _ Hwf Hstage) as [Hh Hl].
  rewrite Hpy in Hh. rewrite Hkeys in Hl.
  split; [|split; [|split; [|split]]].
  - rewrite Hh. unfold stage_py_calls. cbn [helper]. rewrite Hpk. apply Hps.
  - rewrite Hl. unfold stage_calls. cbn [helper]. rewrite Hk. apply Hds.
  - exact Hh.
  - exact Hl.
  - assert (Ht : exists t dt, self_t s = Some t /\ self_dt s = Some dt).
    { unfold _do_stage in Hstage.
      destruct (dd_getitem method _) as [call_info calls1].
      destruct (dd_getitem _ (py_calls _)) as [py_call_info py_calls1].
      destruct (self_t s); [|discriminate]. destruct (self_dt s); [|discriminate].
      eauto. }
    destruct Ht as [t [dt [Ht Hdt]]].
    destruct (do_stage_log X method s w Hwf Ht Hdt) as [s'' Hs''].
    rewrite Hs'' in Hlog. injection Hlog as _ _ Hlog. subst log.
    unfold stage_log. cbv zeta. eexists _, _. split; [reflexivity|]. split.
    + rewrite <- (app_nil_r (stage_hooks _ _)). unfold launch_dests.
      now rewrite launch_dests_hooks.
    + apply hook_dests_blocks.
Qed.

Lemma append_inj_l (p a b : string) : (p ++ a = p ++ b)%string -> a = b.
Proof.
  induction p as [|c p IH]; simpl; intros H; [exact H|].
  inversion H. now apply IH.
Qed.

(** C9. [get_stepper_code] translates one instance per class name: the
    class of a stepper is translated once however many destinations it
    steps. [get_stepper_kernel] makes one kernel per destination: for two
    destinations stepped by the same class, with the same stage
    signature, the two calls leave two entries under [data[method]], named
    [method_dest1] and [method_dest2], and return two kernels with the
    same body that differ in the kernel name of their signatures. *)
Theorem kernel_generation_dedup (h : IntegratorOpenCLHelper T) (obj : Integrator T)
    (dest1 dest2 method : string) (stepper1 stepper2 : Stepper) :
  object h = Some obj ->
  dict_get dest1 (steppers obj) = Some stepper1 ->
  dict_get dest2 (steppers obj) = Some stepper2 ->
  cls_name stepper1 = cls_name stepper2 ->
  get_args X obj dest1 method = get_args X obj dest2 method ->
  dest1 <> dest2 ->
  let translated := parsed_instances (steppers obj) in
  let known := known_types (acceleration_eval_helper h) in
  let args := stepper_kernel_args X obj dest1 method in
  let fields := snd (get_array_names X args) in
  let typed := _get_typed_args X (fields ++ ["t"; "dt"]) in
  let body := stepper_kernel_body X (cls_name stepper1) method args in
  let kernel1 := (method ++ "_" ++ dest1)%string in
  let kernel2 := (method ++ "_" ++ dest2)%string in
  (get_stepper_code X h = Ok (join newline (map (parse_instance X known) translated))
   /\ NoDup (map cls_name translated)
   /\ count_occ string_dec (map cls_name translated) (cls_name stepper1) = 1%nat)
  /\ exists h1 h2,
       get_stepper_kernel X dest1 method h
       = Ok (h1, (get_kernel_definition X kernel1 typed ++ newline ++ "{" ++ newline
                  ++ body ++ newline ++ "}" ++ newline)%string)
       /\ get_stepper_kernel X dest2 method h1
          = Ok (h2, (get_kernel_definition X kernel2 typed ++ newline ++ "{" ++ newline
                     ++ body ++ newline ++ "}" ++ newline)%string)
       /\ dict_get dest1 (stage_items method (data h2)) = Some (kernel1, fields)
       /\ dict_get dest2 (stage_items method (data h2)) = Some (kernel2, fields)
       /\ kernel1 <> kernel2.
Proof.
  intros Hobj Hd1 Hd2 Hcls Hargs Hne. cbv zeta. split.
  - assert (Hnd : NoDup (map cls_name (parsed_instances (steppers obj)))).
    { rewrite parsed_instances_classes.
      destruct (stepper_classes_spec (steppers obj)) as [Hnd _].
      eapply Permutation_NoDup; [apply sorted_perm | exact Hnd]. }
    split; [|split].
    + unfold get_stepper_code, getattr_object. rewrite Hobj. reflexivity.
    + exact Hnd.
    + apply NoDup_count_occ'; [exact Hnd|].
      rewrite parsed_instances_classes.
      eapply Permutation_in; [apply sorted_perm|].
      destruct (stepper_classes_spec (steppers obj)) as [_ [_ Hin]].
      apply (Hin dest1). now apply dict_get_In.
  - assert (Hargs2 : stepper_kernel_args X obj dest2 method
                     = stepper_kernel_args X obj dest1 method).
    { unfold stepper_kernel_args. now rewrite Hargs. }
    assert (Hc1 : stepper_cls obj dest1 = cls_name stepper1).
    { unfold stepper_cls. now rewrite Hd1. }
    assert (Hc2 : stepper_cls obj dest2 = cls_name stepper1).
    { unfold stepper_cls. now rewrite Hd2. }
    unfold get_stepper_kernel, getattr_object. rewrite Hobj. cbn [bind].
    rewrite Hc1.
    destruct (get_array_names X (stepper_kernel_args X obj dest1 method))
      as [srcs fields] eqn:Hnames. cbn [snd].
    eexists _, _. split; [reflexivity|].
    cbn [object set_data]. rewrite Hobj. cbn [bind].
    rewrite Hc2, Hargs2, Hnames. split; [reflexivity|].
    cbn [data set_data].
    rewrite !stage_items_setitem_same. split; [|split].
    + rewrite dict_get_set_other by exact Hne. apply dict_get_set_same.
    + apply dict_get_set_same.
    + intros Heq. apply append_inj_l in Heq. apply (append_inj_l "_") in Heq.
      contradiction.
Qed.

End Generation.

(** ** Whole steps *)

Section Steps.

Variables T W : Type.
Variable X : Externals T W.

(** What a statement keeps, so that the next one can run. *)
Lemma exec_op_keeps (o : op T) (t dt : T) (s : OpenCLIntegrator T) (w : W)
    s' w' log :
  exec_op X o t dt s w = Ok (s', w', log) ->
  wf_runtime s = true ->
  wf_runtime s' = true
  /\ same_context s s'
  /\ (self_t s <> None -> self_t s' <> None).
Proof.
  intros H Hwf. split; [|split].
  - destruct o as [method| |stage_dt stage]; simpl in H.
    + destruct (existsb _ _); [|discriminate].
      now destruct (do_stage_tables X _ _ _ H Hwf).
    + apply compute_accelerations_state in H. now subst.
    + apply do_post_stage_context in H. destruct H as [_ Hh].
      unfold wf_runtime in *. now rewrite Hh.
  - eapply exec_op_context; eassumption.
  - intros Ht. destruct o as [method| |stage_dt stage]; simpl in H.
    + destruct (existsb _ _); [|discriminate].
      apply do_stage_context in H. destruct H as [_ H]. now rewrite H.
    + apply compute_accelerations_state in H. now subst.
    + unfold do_post_stage in H.
      apply bind_ok in H. destruct H as [o [_ H]].
      destruct (_post_stage_callback _).
      * apply bind_ok in H. destruct H as [d [_ H]]. inversion H; subst. discriminate.
      * inversion H; subst. discriminate.
Qed.

(** A statement whose stage is bound does not fail in a runtime with
    well-formed tables, a spatial index, and [t], [dt] and [orig_t]
    assigned. *)
Lemma exec_op_total (o : op T) (t dt : T) (s : OpenCLIntegrator T) (w : W)
    (n : Z) (t0 dt0 o0 : T) :
  wf_runtime s = true -> nnps s = Some n ->
  self_t s = Some t0 -> self_dt s = Some dt0 -> self_orig_t s = Some o0 ->
  op_stage_bound (methods s) o = true ->
  exists out, exec_op X o t dt s w = Ok out.
Proof.
  intros Hwf Hn Ht Hdt Ho Hb.
  destruct o as [method| |stage_dt stage]; simpl in *.
  - rewrite Hb. destruct (do_stage_log X method s w Hwf Ht Hdt) as [s' Hs']. eauto.
  - unfold compute_accelerations. rewrite Hn, Ht, Hdt.
    destruct (parallel_manager s); cbn [getattr_self bind]; eauto.
  - unfold do_post_stage. rewrite Ho. cbn [getattr_self bind].
    change (_post_stage_callback (set_t (float_add X o0 (stage_dt t dt)) s))
      with (_post_stage_callback s).
    change (self_dt (set_t (float_add X o0 (stage_dt t dt)) s)) with (self_dt s).
    destruct (_post_stage_callback s); [rewrite Hdt; cbn [getattr_self bind]|]; eauto.
Qed.

Lemma exec_ops_total (ops : list (op T)) (t dt : T) :
  forall (s : OpenCLIntegrator T) (w : W) (n : Z) (t0 dt0 o0 : T),
    wf_runtime s = true -> nnps s = Some n ->
    self_t s = Some t0 -> self_dt s = Some dt0 -> self_orig_t s = Some o0 ->
    stages_bound (methods s) ops = true ->
    exists out, exec_ops X ops t dt s w = Ok out.
Proof.
  induction ops as [|o ops IH]; intros s w n t0 dt0 o0 Hwf Hn Ht Hdt Ho Hb.
  - simpl. eauto.
  - unfold stages_bound in Hb. cbn [forallb] in Hb.
    apply andb_true_iff in Hb. destruct Hb as [Hb Hbs].
    destruct (@exec_op_total o t dt s w n t0 dt0 o0 Hwf Hn Ht Hdt Ho Hb)
      as [[[s1 w1] log1] H1].
    cbn [exec_ops]. rewrite H1. cbn [bind].
    destruct (@exec_op_keeps o t dt s w s1 w1 log1 H1 Hwf) as [Hwf1 [Hc Ht1]].
    destruct Hc as (_ & Hn1 & _ & _ & _ & _ & Hm1 & Hd1 & Ho1).
    destruct (self_t s1) as [t1|] eqn:Et1;
      [|exfalso; apply Ht1; [rewrite Ht; discriminate | reflexivity]].
    destruct (IH s1 w1 n t1 dt0 o0) as [[[s2 w2] log2] H2]; try congruence.
    { unfold stages_bound. now rewrite Hm1. }
    rewrite H2. cbn [bind]. eauto.
Qed.

(** X1. A step does not fail: in a runtime with tables as setup builds
    them and with a spatial index set, [step(t, dt)] returns whenever
    every stage the timestep procedure runs is one of the names
    [_setup_methods] has bound. *)
Theorem step_total (t dt : T) (s : OpenCLIntegrator T) (w : W) (n : Z) :
  wf_runtime s = true -> nnps s = Some n ->
  stages_bound (methods s) (one_timestep s) = true ->
  exists s' w' log, step X t dt s w = Ok (s', w', log).
Proof.
  intros Hwf Hn Hb. unfold step.
  destruct (@exec_ops_total (one_timestep s) t dt
              (set_dt dt (set_t t (set_orig_t t s))) w n t dt t)
    as [[[s' w'] log] H]; try reflexivity; try assumption.
  eauto.
Qed.

(** X2. A stage that nothing has bound fails when the step reaches it,
    not before: if the statements before [self.<method>()] run stages
    that are bound and [method] is not, [step] raises the
    [AttributeError] of that attribute. *)
Theorem step_unbound_stage (t dt : T) (s : OpenCLIntegrator T) (w : W) (n : Z)
    (ops1 ops2 : list (op T)) (method : string) :
  wf_runtime s = true -> nnps s = Some n ->
  one_timestep s = ops1 ++ OpStage method :: ops2 ->
  stages_bound (methods s) ops1 = true ->
  existsb (String.eqb method) (methods s) = false ->
  step X t dt s w = Raise (AttributeError "OpenCLIntegrator" method).
Proof.
  intros Hwf Hn Hops Hb1 Hm. unfold step.
  change (one_timestep (set_dt dt (set_t t (set_orig_t t s)))) with (one_timestep s).
  rewrite Hops, exec_ops_app.
  destruct (@exec_ops_total ops1 t dt
              (set_dt dt (set_t t (set_orig_t t s))) w n t dt t)
    as [[[s1 w1] log1] H1]; try reflexivity; try assumption.
  rewrite H1. cbn [bind exec_ops exec_op].
  apply exec_ops_context in H1.
  destruct H1 as (_ & _ & _ & _ & _ & _ & Hm1 & _).
  cbn [methods set_dt set_t set_orig_t] in Hm1. rewrite Hm1, Hm. reflexivity.
Qed.

(** *** How often a step calls the collaborators *)

Lemma count_app (A : Type) (p : A -> bool) (l1 l2 : list A) :
  count p (l1 ++ l2) = (count p l1 + count p l2)%nat.
Proof. unfold count. now rewrite filter_app, length_app. Qed.

Lemma count_stage_events (p : event T -> bool) (log : list (event T)) :
  (forall e, is_stage_event e = true -> p e = false) ->
  forallb (@is_stage_event T) log = true -> count p log = 0%nat.
Proof.
  intros Hp. unfold count. induction log as [|e log IH]; simpl; intros H; [reflexivity|].
  apply andb_true_iff in H. destruct H as [He H].
  rewrite (Hp e He). now apply IH.
Qed.

(** The calls one statement makes: [c s o] of them pass the test [p]. *)
Lemma exec_ops_count (p : event T -> bool)
    (c : OpenCLIntegrator T -> op T -> nat) (t dt : T) :
  (forall s s' o, same_context s s' -> c s' o = c s o) ->
  (forall o s w s' w' log,
     exec_op X o t dt s w = Ok (s', w', log) -> count p log = c s o) ->
  forall (ops : list (op T)) (s : OpenCLIntegrator T) (w : W) s' w' log,
    exec_ops X ops t dt s w = Ok (s', w', log) ->
    count p log = list_sum (map (c s) ops).
Proof.
  intros Hc Hop. induction ops as [|o ops IH]; intros s w s' w' log H.
  - simpl in H. inversion H; subst. reflexivity.
  - cbn [exec_ops] in H.
    apply bind_ok in H. destruct H as [[[s1 w1] log1] [H1 H]].
    apply bind_ok in H. destruct H as [[[s2 w2] log2] [H2 H]].
    inversion H; subst; clear H.
    rewrite count_app, (Hop _ _ _ _ _ _ H1), (IH _ _ _ _ _ H2).
    unfold list_sum. cbn [map fold_right]. f_equal. f_equal.
    apply map_ext. intros o'. apply Hc. eapply exec_op_context; eassumption.
Qed.

Lemma compute_accelerations_log (s : OpenCLIntegrator T) (w : W) s' w' log :
  compute_accelerations X s w = Ok (s', w', log) ->
  exists n t dt,
    log = match parallel_manager s with
          | Some pm => [EvParallelManagerUpdate pm]
          | None => []
          end ++ [EvNNPSUpdate n; EvCompute (acceleration_eval s) t dt].
Proof.
  unfold compute_accelerations.
  destruct (parallel_manager s); intros H;
    apply bind_ok in H; destruct H as [n [_ H]];
    apply bind_ok in H; destruct H as [t [_ H]];
    apply bind_ok in H; destruct H as [dt [_ H]];
    inversion H; subst; exists n, t, dt; reflexivity.
Qed.

Lemma do_post_stage_log (stage_dt : T) (stage : Z) (s : OpenCLIntegrator T)
    (w : W) s' w' log :
  do_post_stage X stage_dt stage s w = Ok (s', w', log) ->
  match _post_stage_callback s with
  | Some callback => exists t dt, log = [EvPostStageCallback callback t dt stage]
  | None => log = []
  end.
Proof.
  unfold do_post_stage. intros H.
  apply bind_ok in H. destruct H as [o [_ H]].
  change (_post_stage_callback (set_t (float_add X o stage_dt) s))
    with (_post_stage_callback s) in H.
  destruct (_post_stage_callback s).
  - apply bind_ok in H. destruct H as [d [_ H]]. inversion H; subst. eauto.
  - inversion H; subst. reflexivity.
Qed.

(** X3. The calls of a step are those its procedure states: the
    acceleration evaluator is called once per [compute_accelerations]
    statement and so is the spatial-index update; the domain manager is
    updated as often if one is set and never otherwise; the post-stage
    callback is called once per [do_post_stage] statement if one is
    registered and never otherwise. Stages add none of these calls. *)
Theorem step_calls_counted (t dt : T) (s : OpenCLIntegrator T) (w : W)
    s' w' log :
  step X t dt s w = Ok (s', w', log) ->
  count (@is_compute_event T) log = count (@op_is_compute T) (one_timestep s)
  /\ count (@is_nnps_event T) log = count (@op_is_compute T) (one_timestep s)
  /\ count (@is_parallel_manager_event T) log
     = match parallel_manager s with
       | Some _ => count (@op_is_compute T) (one_timestep s)
       | None => 0%nat
       end
  /\ count (@is_callback T) log
     = match _post_stage_callback s with
       | Some _ => count (@op_is_post_stage T) (one_timestep s)
       | None => 0%nat
       end.
Proof.
  unfold step.
  change (one_timestep (set_dt dt (set_t t (set_orig_t t s)))) with (one_timestep s).
  intros H.
  assert (Hstage : forall (p : event T -> bool) method s0 w0 s1 w1 l1,
             (forall e, is_stage_event e = true -> p e = false) ->
             (if existsb (String.eqb method) (methods s0)
              then _do_stage X method s0 w0
              else Raise (AttributeError "OpenCLIntegrator" method))
             = Ok (s1, w1, l1) ->
             count p l1 = 0%nat).
  { intros p method s0 w0 s1 w1 l1 Hp H0.
    destruct (existsb _ _); [|discriminate].
    apply do_stage_replay in H0. destruct H0 as [_ H0].
    now apply count_stage_events. }
  assert (Hop : forall (p : event T -> bool) (c : OpenCLIntegrator T -> nat)
                       (d : OpenCLIntegrator T -> nat),
             (forall e, is_stage_event e = true -> p e = false) ->
             (forall s0 n t0 d0,
                count p (match parallel_manager s0 with
                         | Some pm => [EvParallelManagerUpdate pm]
                         | None => []
                         end ++ [EvNNPSUpdate n; EvCompute (acceleration_eval s0) t0 d0])
                = c s0) ->
             (forall s0 k,
                match _post_stage_callback s0 with
                | Some callback =>
                    forall t0 d0, count p [EvPostStageCallback callback t0 d0 k] = d s0
                | None => count p [] = d s0
                end) ->
             forall o s0 w0 s1 w1 l1,
               exec_op X o t dt s0 w0 = Ok (s1, w1, l1) ->
               count p l1 = (if op_is_compute o then c s0
                             else if op_is_post_stage o then d s0 else 0%nat)).
  { intros p c d Hp Hc Hd o s0 w0 s1 w1 l1 H0.
    destruct o as [method| |f k]; simpl in H0.
    - eapply Hstage; eassumption.
    - apply compute_accelerations_log in H0. destruct H0 as [n [t0 [d0 ->]]].
      apply Hc.
    - apply do_post_stage_log in H0. specialize (Hd s0 k).
      destruct (_post_stage_callback s0); [destruct H0 as [t0 [d0 ->]]|subst];
        simpl; auto. }
  assert (Hsum : forall (c d : nat) (ops : list (op T)),
             list_sum (map (fun o => if op_is_compute o then c
                                     else if op_is_post_stage o then d else 0%nat) ops)
             = (c * count (@op_is_compute T) ops
                + d * count (@op_is_post_stage T) ops)%nat).
  { intros c d ops. unfold count.
    induction ops as [|o ops IH]; simpl; [lia|].
    rewrite IH. destruct o; simpl; lia. }
  split; [|split; [|split]].
  - pose (c := fun (s0 : OpenCLIntegrator T) (o : op T) =>
                 if op_is_compute o then (fun _ : OpenCLIntegrator T => 1%nat) s0
                 else if op_is_post_stage o then (fun _ : OpenCLIntegrator T => 0%nat) s0 else 0%nat).
    assert (Hp : forall o s0 w0 s1 w1 l1,
               exec_op X o t dt s0 w0 = Ok (s1, w1, l1) ->
               count (@is_compute_event T) l1 = c s0 o).
    { apply (Hop (@is_compute_event T) (fun _ : OpenCLIntegrator T => 1%nat) (fun _ : OpenCLIntegrator T => 0%nat)).
      - intros e He. now destruct e.
      - intros s0 n t0 d0. now destruct (parallel_manager s0).
      - intros s0 k. now destruct (_post_stage_callback s0). }
    assert (Hc : forall s0 s1 o, same_context s0 s1 -> c s1 o = c s0 o).
    { reflexivity. }
    rewrite (@exec_ops_count (@is_compute_event T) c t dt Hc Hp _ _ _ _ _ _ H).
    unfold c. cbv beta. rewrite Hsum.
    lia.
  - pose (c := fun (s0 : OpenCLIntegrator T) (o : op T) =>
                 if op_is_compute o then (fun _ : OpenCLIntegrator T => 1%nat) s0
                 else if op_is_post_stage o then (fun _ : OpenCLIntegrator T => 0%nat) s0 else 0%nat).
    assert (Hp : forall o s0 w0 s1 w1 l1,
               exec_op X o t dt s0 w0 = Ok (s1, w1, l1) ->
               count (@is_nnps_event T) l1 = c s0 o).
    { apply (Hop (@is_nnps_event T) (fun _ : OpenCLIntegrator T => 1%nat) (fun _ : OpenCLIntegrator T => 0%nat)).
      - intros e He. now destruct e.
      - intros s0 n t0 d0. now destruct (parallel_manager s0).
      - intros s0 k. now destruct (_post_stage_callback s0). }
    assert (Hc : forall s0 s1 o, same_context s0 s1 -> c s1 o = c s0 o).
    { reflexivity. }
    rewrite (@exec_ops_count (@is_nnps_event T) c t dt Hc Hp _ _ _ _ _ _ H).
    unfold c. cbv beta. rewrite Hsum.
    lia.
  - pose (c := fun (s0 : OpenCLIntegrator T) (o : op T) =>
                 if op_is_compute o then (fun s0 : OpenCLIntegrator T => match parallel_manager s0 with Some _ => 1%nat | None => 0%nat end) s0
                 else if op_is_post_stage o then (fun _ : OpenCLIntegrator T => 0%nat) s0 else 0%nat).
    assert (Hp : forall o s0 w0 s1 w1 l1,
               exec_op X o t dt s0 w0 = Ok (s1, w1, l1) ->
               count (@is_parallel_manager_event T) l1 = c s0 o).
    { apply (Hop (@is_parallel_manager_event T) (fun s0 : OpenCLIntegrator T => match parallel_manager s0 with Some _ => 1%nat | None => 0%nat end) (fun _ : OpenCLIntegrator T => 0%nat)).
      - intros e He. now destruct e.
      - intros s0 n t0 d0. now destruct (parallel_manager s0).
      - intros s0 k. now destruct (_post_stage_callback s0). }
    assert (Hc : forall s0 s1 o, same_context s0 s1 -> c s1 o = c s0 o).
    { intros s0 s1 o (_ & _ & Hpm & _). unfold c. now rewrite Hpm. }
    rewrite (@exec_ops_count (@is_parallel_manager_event T) c t dt Hc Hp _ _ _ _ _ _ H).
    unfold c. cbv beta. rewrite Hsum.
    change (parallel_manager (set_dt dt (set_t t (set_orig_t t s))))
      with (parallel_manager s).
    destruct (parallel_manager s); lia.
  - pose (c := fun (s0 : OpenCLIntegrator T) (o : op T) =>
                 if op_is_compute o then (fun _ : OpenCLIntegrator T => 0%nat) s0
                 else if op_is_post_stage o then (fun s0 : OpenCLIntegrator T => match _post_stage_callback s0 with Some _ => 1%nat | None => 0%nat end) s0 else 0%nat).
    assert (Hp : forall o s0 w0 s1 w1 l1,
               exec_op X o t dt s0 w0 = Ok (s1, w1, l1) ->
               count (@is_callback T) l1 = c s0 o).
    { apply (Hop (@is_callback T) (fun _ : OpenCLIntegrator T => 0%nat) (fun s0 : OpenCLIntegrator T => match _post_stage_callback s0 with Some _ => 1%nat | None => 0%nat end)).
      - intros e He. now destruct e.
      - intros s0 n t0 d0. now destruct (parallel_manager s0).
      - intros s0 k. now destruct (_post_stage_callback s0). }
    assert (Hc : forall s0 s1 o, same_context s0 s1 -> c s1 o = c s0 o).
    { intros s0 s1 o (_ & _ & _ & Hcb & _). unfold c. now rewrite Hcb. }
    rewrite (@exec_ops_count (@is_callback T) c t dt Hc Hp _ _ _ _ _ _ H).
    unfold c. cbv beta. rewrite Hsum.
    change (_post_stage_callback (set_dt dt (set_t t (set_orig_t t s))))
      with (_post_stage_callback s).
    destruct (_post_stage_callback s); lia.
Qed.

(** *** The time a step leaves *)

Lemma count_cons (A : Type) (p : A -> bool) (a : A) (l : list A) :
  count p (a :: l) = ((if p a then 1 else 0) + count p l)%nat.
Proof. unfold count. simpl. now destruct (p a). Qed.

Lemma exec_ops_time_kept (ops : list (op T)) (t dt : T) :
  forall (s : OpenCLIntegrator T) (w : W) s' w' log,
    count (@op_is_post_stage T) ops = 0%nat ->
    exec_ops X ops t dt s w = Ok (s', w', log) ->
    self_t s' = self_t s.
Proof.
  induction ops as [|o ops IH]; intros s w s' w' log Hc H.
  - simpl in H. now inversion H.
  - rewrite count_cons in Hc. cbn [exec_ops] in H.
    apply bind_ok in H. destruct H as [[[s1 w1] log1] [H1 H]].
    apply bind_ok in H. destruct H as [[[s2 w2] log2] [H2 H]].
    inversion H; subst; clear H.
    assert (Hc2 : count (@op_is_post_stage T) ops = 0%nat) by lia.
    rewrite (IH _ _ _ _ _ Hc2 H2).
    destruct o as [method| |f k]; simpl in H1, Hc; try lia.
    + destruct (existsb _ _); [|discriminate].
      apply do_stage_context in H1. tauto.
    + apply compute_accelerations_state in H1. now subst.
Qed.

(** X4. The time a step leaves in [t] is the origin of the step plus the
    [stage_dt] of the last [do_post_stage] statement of the procedure,
    not a running sum over the statements; a procedure without such a
    statement leaves [t] as [step] set it. *)
Theorem step_final_time (t dt : T) (s : OpenCLIntegrator T) (w : W) s' w' log :
  step X t dt s w = Ok (s', w', log) ->
  (count (@op_is_post_stage T) (one_timestep s) = 0%nat -> self_t s' = Some t)
  /\ (forall ops1 stage_dt stage ops2,
        one_timestep s = ops1 ++ OpDoPostStage stage_dt stage :: ops2 ->
        count (@op_is_post_stage T) ops2 = 0%nat ->
        self_t s' = Some (float_add X t (stage_dt t dt))).
Proof.
  unfold step.
  change (one_timestep (set_dt dt (set_t t (set_orig_t t s)))) with (one_timestep s).
  intros H. split.
  - intros Hc. now rewrite (@exec_ops_time_kept _ t dt _ _ _ _ _ Hc H).
  - intros ops1 stage_dt stage ops2 Hops Hc. rewrite Hops, exec_ops_app in H.
    apply bind_ok in H. destruct H as [[[s1 w1] log1] [H1 H]].
    apply bind_ok in H. destruct H as [[[s2 w2] log2] [H2 H]].
    inversion H; subst; clear H. cbn [exec_ops exec_op] in H2.
    apply bind_ok in H2. destruct H2 as [[[s3 w3] log3] [H3 H2]].
    apply bind_ok in H2. destruct H2 as [[[s4 w4] log4] [H4 H2]].
    inversion H2; subst; clear H2.
    rewrite (@exec_ops_time_kept _ t dt _ _ _ _ _ Hc H4).
    apply exec_ops_context in H1.
    destruct H1 as (_ & _ & _ & _ & _ & _ & _ & _ & Ho).
    cbn [self_orig_t set_dt set_t set_orig_t] in Ho.
    unfold do_post_stage in H3. rewrite Ho in H3. cbn [getattr_self bind] in H3.
    destruct (_post_stage_callback _).
    + apply bind_ok in H3. destruct H3 as [d [_ H3]]. now inversion H3.
    + now inversion H3.
Qed.

(** X5. Before the first [step] a runtime has no [t], [dt] or [orig_t]
    and no spatial index: on the runtime [setup_compiled_module] returns,
    every stage and [do_post_stage] raise [AttributeError], and so does
    [compute_accelerations], without [nnps] on [None.update] and with
    [nnps] set on the missing [t]. *)
Theorem methods_before_first_step (h : IntegratorOpenCLHelper T)
    (module : list string) (ae : Z) (s0 : OpenCLIntegrator T) :
  setup_compiled_module X module ae h = Ok s0 ->
  (forall method w,
     _do_stage X method s0 w = Raise (AttributeError "OpenCLIntegrator" "t"))
  /\ (forall stage_dt stage w,
        do_post_stage X stage_dt stage s0 w
        = Raise (AttributeError "OpenCLIntegrator" "orig_t"))
  /\ (forall w,
        compute_accelerations X s0 w = Raise (AttributeError "NoneType" "update"))
  /\ (forall v w,
        compute_accelerations X (set_nnps v s0) w
        = Raise (AttributeError "OpenCLIntegrator" "t")).
Proof.
  intros Hsetup. unfold setup_compiled_module in Hsetup.
  apply bind_ok in Hsetup. destruct Hsetup as [h2 [_ Hinit]].
  unfold OpenCLIntegrator_init in Hinit.
  apply bind_ok in Hinit. destruct Hinit as [code [_ Hinit]].
  apply bind_ok in Hinit. destruct Hinit as [obj [_ Hinit]].
  inversion Hinit; subst s0; clear Hinit.
  split; [|split; [|split]].
  - intros method w. unfold _do_stage. cbn [helper self_t].
    destruct (dd_getitem method _) as [call_info calls1].
    destruct (dd_getitem _ (py_calls _)) as [py_call_info py_calls1].
    reflexivity.
  - reflexivity.
  - reflexivity.
  - reflexivity.
Qed.

(** *** The scalars a stage passes *)

Lemma last_two_app (A : Type) (l : list A) (a b : A) :
  last_two (l ++ [a; b]) = [a; b].
Proof.
  unfold last_two. rewrite length_app. cbn [List.length].
  replace (List.length l + 2 - 2)%nat with (List.length l) by lia.
  rewrite skipn_app, skipn_all, Nat.sub_diag. reflexivity.
Qed.

Lemma in_hook_dests (f : PyMeth) (dest : string) (x : list (arg T))
    (log : list (event T)) :
  In (EvPyMeth f dest x) log -> In dest (hook_dests log).
Proof.
  unfold hook_dests. intros H. apply in_flat_map.
  exists (EvPyMeth f dest x). split; [exact H | now left].
Qed.

Lemma do_stage_scalars (method : string) (s : OpenCLIntegrator T) (w : W)
    (t dt : T) s' w' log :
  wf_runtime s = true -> self_t s = Some t -> self_dt s = Some dt ->
  _do_stage X method s w = Ok (s', w', log) ->
  Forall (fun e => match e with
                   | EvKernel _ args => last_two args = stage_extra_args s t dt
                   | EvPyMeth _ _ extra_args => extra_args = stage_extra_args s t dt
                   | _ => True
                   end) log.
Proof.
  intros Hwf Ht Hdt H. apply Forall_forall. intros e He.
  destruct e as [f dest x| | |call args| | | |]; try exact I.
  - destruct (do_stage_log X method s w Hwf Ht Hdt) as [s'' Hs''].
    rewrite Hs'' in H. injection H as _ _ Hl. subst log.
    unfold stage_log in He. cbv zeta in He. apply in_app_or in He.
    destruct He as [He|He].
    + unfold stage_hooks in He. apply in_map_iff in He.
      destruct He as [it [Heq _]]. now inversion Heq.
    + apply in_hook_dests in He. rewrite hook_dests_blocks in He. destruct He.
  - apply in_split in He. destruct He as [pre [post Hlog]].
    destruct (do_stage_launch X method s w pre post call args Hwf Ht Hdt H Hlog)
      as [args0 [dest [q [a1 [fields [pre' [_ [_ [_ Hr]]]]]]]]].
    rewrite Hr. unfold stage_extra_args.
    rewrite !app_assoc. apply last_two_app.
Qed.

(** X6. A stage that runs after [do_post_stage(stage_dt, stage)] passes
    the advanced time: every hook call and every launch of the stage
    gets, as its last two arguments, [orig_t + stage_dt] and [dt] in the
    precision of the runtime. *)
Theorem stage_after_post_stage (stage_dt : T) (stage : Z) (method : string)
    (s : OpenCLIntegrator T) (w : W) (orig_t dt : T) s1 w1 log1 s2 w2 log2 :
  wf_runtime s = true ->
  self_orig_t s = Some orig_t -> self_dt s = Some dt ->
  do_post_stage X stage_dt stage s w = Ok (s1, w1, log1) ->
  _do_stage X method s1 w1 = Ok (s2, w2, log2) ->
  let scalars := [AScalar (scalar_dtype s) (float_add X orig_t stage_dt);
                  AScalar (scalar_dtype s) dt] in
  Forall (fun e => match e with
                   | EvKernel _ args => last_two args = scalars
                   | EvPyMeth _ _ extra_args => extra_args = scalars
                   | _ => True
                   end) log2.
Proof.
  intros Hwf Ho Hdt H1 H2. cbv zeta.
  assert (Hs1 : s1 = set_t (float_add X orig_t stage_dt) s).
  { unfold do_post_stage in H1. rewrite Ho in H1. cbn [getattr_self bind] in H1.
    destruct (_post_stage_callback _).
    - apply bind_ok in H1. destruct H1 as [d [_ H1]]. now inversion H1.
    - now inversion H1. }
  subst s1.
  apply (@do_stage_scalars method (set_t (float_add X orig_t stage_dt) s) w1
           (float_add X orig_t stage_dt) dt s2 w2 log2); auto.
Qed.

(** *** What a stage leaves alone *)

Lemma kernel_loop_other (method : string) (extra : list (arg T))
    (items : dict (call_entry T)) :
  forall (s : OpenCLIntegrator T) (w : W) s' w' log,
    kernel_loop X method extra items s w = Ok (s', w', log) ->
    forall m', m' <> method ->
               stage_items m' (calls (helper s')) = stage_items m' (calls (helper s)).
Proof.
  induction items as [|[name [[call args] dest]] items IH];
    intros s w s' w' log H m' Hne.
  - simpl in H. now inversion H.
  - cbn [kernel_loop] in H.
    apply bind_ok in H. destruct H as [args1 [_ H]].
    apply bind_ok in H. destruct H as [[rest log_rest] [_ H]].
    apply bind_ok in H. destruct H as [[[s2 w2] log2] [H2 H]].
    inversion H; subst; clear H.
    rewrite (IH _ _ _ _ _ H2 m' Hne). cbn [helper set_helper calls set_calls].
    now apply stage_items_setitem_other.
Qed.

(** X7. A stage changes nothing of the runtime but the argument lists of
    its own call descriptors: the attributes, [t] included, the hook
    descriptors of every stage, the call descriptors of every other
    stage, the destinations of its own descriptors and the rest of the
    helper stay, and the tables stay well formed. *)
Theorem do_stage_frame (method : string) (s : OpenCLIntegrator T) (w : W)
    s' w' log :
  wf_runtime s = true ->
  _do_stage X method s w = Ok (s', w', log) ->
  same_context s s' /\ self_t s' = self_t s
  /\ (forall m', stage_py_calls m' s' = stage_py_calls m' s)
  /\ (forall m', m' <> method -> stage_calls m' s' = stage_calls m' s)
  /\ keys (stage_calls method s') = keys (stage_calls method s)
  /\ same_helper_data (helper s) (helper s')
  /\ wf_runtime s' = true.
Proof.
  intros Hwf H.
  destruct (do_stage_context X _ _ _ H) as [Hc Ht].
  destruct (do_stage_tables X _ _ _ H Hwf) as [Hwf' [Hk [Hpy Hd]]].
  split; [exact Hc|]. split; [exact Ht|]. split; [exact Hpy|].
  split; [|split; [apply Hk|split; assumption]].
  intros m' Hne. unfold _do_stage in H.
  pose proof (fun m0 => stage_items_dd_getitem method m0 (calls (helper s))) as E3.
  destruct (dd_getitem method (calls (helper s))) as [call_info calls1].
  destruct (dd_getitem _ (py_calls (helper s))) as [py_info py_calls1].
  cbn [snd] in E3.
  apply bind_ok in H. destruct H as [t [_ H]].
  apply bind_ok in H. destruct H as [dt [_ H]].
  destruct (py_loop X _ py_info w) as [w1 log1].
  apply bind_ok in H. destruct H as [[[s2 w2] log2] [H2 H]].
  inversion H; subst; clear H.
  unfold stage_calls. rewrite (@kernel_loop_other _ _ _ _ _ _ _ _ H2 m' Hne).
  cbn [helper set_helper calls set_calls set_py_calls]. apply E3.
Qed.

End Steps.


(** ** [get_code] as assignments and text *)

Section Writes.

Variable V : Type.

Lemma apply_writes_app (ws1 ws2 : list (string * string * V)) (dd : defaultdict V) :
  apply_writes (ws1 ++ ws2) dd = apply_writes ws2 (apply_writes ws1 dd).
Proof.
  unfold apply_writes. apply fold_left_app.
Qed.

Lemma dict_set_same (k : string) (v : V) (d : dict V) :
  dict_get k d = Some v -> dict_set k v d = d.
Proof.
  induction d as [|[k' v'] d IH]; simpl; [discriminate|].
  destruct (String.eqb k k') eqn:E; intros H.
  - apply String.eqb_eq in E. inversion H; subst. reflexivity.
  - now rewrite IH.
Qed.

End Writes.

Section WriteLookups.

Variable V : Type.

Lemma dd_setitem_same (m k : string) (v : V) (dd : defaultdict V) :
  dict_get k (stage_items m dd) = Some v -> dd_setitem m k v dd = dd.
Proof.
  intros H. unfold dd_setitem, dd_getitem. unfold stage_items in H.
  destruct (dict_get m dd) as [inner|] eqn:E; [|discriminate].
  rewrite (dict_set_same _ _ H). now apply dict_set_same.
Qed.

Lemma lookup_setitem (m k m0 k0 : string) (v0 : V) (dd : defaultdict V) :
  dict_get k (stage_items m (dd_setitem m0 k0 v0 dd))
  = if string_dec m m0
    then if string_dec k k0 then Some v0 else dict_get k (stage_items m dd)
    else dict_get k (stage_items m dd).
Proof.
  rewrite stage_items_setitem. destruct (string_dec m m0) as [->|Hm]; [|reflexivity].
  destruct (string_dec k k0) as [->|Hk].
  - apply dict_get_set_same.
  - now apply dict_get_set_other.
Qed.

(** What a table holds after a sequence of assignments was either
    assigned or there before. *)
Lemma lookup_writes_inv (m k : string) (v : V) :
  forall (ws : list (string * string * V)) (dd : defaultdict V),
    dict_get k (stage_items m (apply_writes ws dd)) = Some v ->
    In (m, k, v) ws \/ dict_get k (stage_items m dd) = Some v.
Proof.
  induction ws as [|[[m0 k0] v0] ws IH]; intros dd H.
  - now right.
  - cbn [apply_writes fold_left fst snd] in H. apply IH in H.
    destruct H as [H|H]; [left; now right|].
    rewrite lookup_setitem in H.
    destruct (string_dec m m0) as [->|Hm]; [|now right].
    destruct (string_dec k k0) as [->|Hk]; [|now right].
    inversion H; subst. left. now left.
Qed.

(** When every assignment stores the value its keys determine, a key
    assigned to holds that value afterwards. *)
Lemma lookup_writes (g : string -> string -> V) (m k : string) :
  forall (ws : list (string * string * V)) (dd : defaultdict V),
    canonical_writes g ws ->
    (exists v, In (m, k, v) ws) \/ dict_get k (stage_items m dd) = Some (g m k) ->
    dict_get k (stage_items m (apply_writes ws dd)) = Some (g m k).
Proof.
  induction ws as [|[[m0 k0] v0] ws IH]; intros dd Hc H.
  - destruct H as [[v []]|H]. exact H.
  - cbn [apply_writes fold_left fst snd].
    assert (Hc' : canonical_writes g ws) by (intros w Hw; apply Hc; now right).
    assert (Hv0 : v0 = g m0 k0) by (apply (Hc (m0, k0, v0)); now left).
    apply (IH _ Hc'). rewrite lookup_setitem.
    destruct H as [[v [Heq|Hin]]|H].
    + inversion Heq; subst. right.
      destruct (string_dec m m); [|congruence].
      destruct (string_dec k k); congruence.
    + left. eauto.
    + right. destruct (string_dec m m0) as [->|Hm]; [|exact H].
      destruct (string_dec k k0) as [->|Hk]; [|exact H]. now rewrite Hv0.
Qed.

Lemma apply_writes_same :
  forall (ws : list (string * string * V)) (dd : defaultdict V),
    (forall m k v, In (m, k, v) ws -> dict_get k (stage_items m dd) = Some v) ->
    apply_writes ws dd = dd.
Proof.
  induction ws as [|[[m0 k0] v0] ws IH]; intros dd H; [reflexivity|].
  cbn [apply_writes fold_left fst snd].
  rewrite dd_setitem_same by (apply H; now left).
  apply IH. intros m k v Hin. apply H. now right.
Qed.

(** Canonical assignments, made twice, are made once. *)
Lemma apply_writes_idem (g : string -> string -> V)
    (ws : list (string * string * V)) (dd : defaultdict V) :
  canonical_writes g ws ->
  apply_writes ws (apply_writes ws dd) = apply_writes ws dd.
Proof.
  intros Hc. apply apply_writes_same. intros m k v Hin.
  assert (Hv : v = g m k) by (apply (Hc (m, k, v)); exact Hin).
  rewrite Hv. apply lookup_writes; [exact Hc|]. left. eauto.
Qed.

End WriteLookups.

Section ClosedForm.

Variables T W : Type.
Variable X : Externals T W.

Lemma append_assoc (a b c : string) : ((a ++ b) ++ c = a ++ b ++ c)%string.
Proof.
  induction a as [|x a IH]; simpl; [reflexivity | now rewrite IH].
Qed.

Lemma append_nil_r (a : string) : (a ++ "" = a)%string.
Proof.
  induction a as [|x a IH]; simpl; [reflexivity | now rewrite IH].
Qed.

Lemma upd_tables_nil (h : IntegratorOpenCLHelper T) : upd_tables [] [] h = h.
Proof.
  now destruct h.
Qed.

Lemma upd_tables_app (wd1 wd2 : list (string * string * (string * list string)))
    (wp1 wp2 : list (string * string * string)) (h : IntegratorOpenCLHelper T) :
  upd_tables wd2 wp2 (upd_tables wd1 wp1 h) = upd_tables (wd1 ++ wd2) (wp1 ++ wp2) h.
Proof.
  destruct h. unfold upd_tables, set_data, set_py_data.
  cbn [object acceleration_eval_helper py_data data py_calls calls program].
  now rewrite !apply_writes_app.
Qed.

Lemma upd_tables_object (wd : list (string * string * (string * list string)))
    (wp : list (string * string * string)) (h : IntegratorOpenCLHelper T) :
  object (upd_tables wd wp h) = object h
  /\ acceleration_eval_helper (upd_tables wd wp h) = acceleration_eval_helper h.
Proof.
  now destruct h.
Qed.

(** A loop whose passes assign and print. *)
Lemma fold_left_upd (B : Type)
    (wd : B -> list (string * string * (string * list string)))
    (wp : B -> list (string * string * string)) (piece : B -> string) :
  forall (l : list B) (h : IntegratorOpenCLHelper T) (text : string),
    fold_left (fun a b => (upd_tables (wd b) (wp b) (fst a), (snd a ++ piece b)%string))
              l (h, text)
    = (upd_tables (flat_map wd l) (flat_map wp l) h,
       (text ++ pieces (map piece l))%string).
Proof.
  induction l as [|b l IH]; intros h text.
  - cbn [fold_left flat_map map pieces fold_right].
    now rewrite upd_tables_nil, append_nil_r.
  - cbn [fold_left flat_map map pieces fold_right fst snd].
    rewrite IH, upd_tables_app, append_assoc. reflexivity.
Qed.

Lemma foldM_fold (A B : Type) (f : A -> B -> result A) (F : A -> B -> A)
    (R : A -> Prop) (Q : B -> Prop) :
  (forall a b, Q b -> R a -> f a b = Ok (F a b) /\ R (F a b)) ->
  forall (l : list B) (a : A),
    Forall Q l -> R a ->
    foldM f l a = Ok (fold_left F l a) /\ R (fold_left F l a).
Proof.
  intros Hstep. induction l as [|b l IH]; intros a Hl Ha.
  - now split.
  - inversion Hl; subst. destruct (Hstep a b) as [E Hr]; auto.
    simpl. rewrite E. cbn [bind]. now apply IH.
Qed.

Lemma render_method_closed (obj : Integrator T) (dest method : string)
    (h : IntegratorOpenCLHelper T) (text : string) :
  object h = Some obj ->
  In dest (keys (steppers obj)) ->
  render_method X obj dest (h, text) method
  = Ok (upd_tables (method_data_writes X obj dest method)
                   (method_py_writes obj dest method) h,
        (text ++ method_piece X obj dest method)%string).
Proof.
  intros Hobj Hdest. destruct (dict_get_of_key _ _ Hdest) as [stepper Hst].
  unfold render_method, get_py_stage_code, getattr_object, dict_getitem,
    method_data_writes, method_py_writes, method_piece.
  rewrite Hobj. cbn [bind]. rewrite !Hst. cbn [bind].
  destruct h as [o a pd d pc c p]. cbn [object] in Hobj. subst o.
  destruct (hasattr stepper ("py_" ++ method));
    destruct (has_stepper_loop X obj dest method);
    cbv [bind get_stepper_kernel getattr_object upd_tables set_data set_py_data
         kernel_entry kernel_text apply_writes fold_left fst snd
         object acceleration_eval_helper py_data data py_calls calls program];
    try (destruct (get_array_names X (stepper_kernel_args X obj dest method))
           as [s0 d0]);
    rewrite ?append_assoc, ?append_nil_r; reflexivity.
Qed.

Lemma render_dest_closed (obj : Integrator T) (dest : string)
    (h : IntegratorOpenCLHelper T) (text : string) :
  object h = Some obj ->
  In dest (keys (steppers obj)) ->
  render_dest X obj (h, text) dest
  = Ok (upd_tables (dest_data_writes X obj dest) (dest_py_writes X obj dest) h,
        (text ++ dest_piece X obj dest)%string).
Proof.
  intros Hobj Hdest. unfold render_dest.
  destruct (@foldM_fold _ _ (render_method X obj dest)
              (fun a m => (upd_tables (method_data_writes X obj dest m)
                                      (method_py_writes obj dest m) (fst a),
                           (snd a ++ method_piece X obj dest m)%string))
              (fun a => object (fst a) = Some obj) (fun _ => True))
    with (l := get_stepper_method_wrapper_names X obj)
         (a := (h, (text ++ "// Steppers for " ++ dest ++ newline)%string))
    as [E _].
  - intros [h0 text0] m _ Ha. cbn [fst snd] in *. split.
    + now apply render_method_closed.
    + now rewrite (proj1 (upd_tables_object _ _ _)).
  - apply Forall_forall. auto.
  - exact Hobj.
  - rewrite E, fold_left_upd. unfold dest_piece, dest_data_writes, dest_py_writes.
    now rewrite !append_assoc.
Qed.

(** [get_code] returns whenever [self.object] is set: what it assigns and
    what it prints is fixed by the integrator. *)
Lemma get_code_closed (obj : Integrator T) (h : IntegratorOpenCLHelper T) :
  object h = Some obj ->
  get_code X h
  = Ok (upd_tables (code_data_writes X obj) (code_py_writes X obj) h,
        code_text X obj (known_types (acceleration_eval_helper h))).
Proof.
  intros Hobj. unfold get_code, get_stepper_code, getattr_object.
  rewrite Hobj. cbn [bind].
  match goal with
  | |- context [foldM _ _ (h, ?t)] => set (head := t)
  end.
  destruct (@foldM_fold _ _ (render_dest X obj)
              (fun a d => (upd_tables (dest_data_writes X obj d)
                                      (dest_py_writes X obj d) (fst a),
                           (snd a ++ dest_piece X obj d)%string))
              (fun a => object (fst a) = Some obj)
              (fun d => In d (keys (steppers obj))))
    with (l := sorted (keys (steppers obj))) (a := (h, head))
    as [E _].
  - intros [h0 text0] d Hd Ha. cbn [fst snd] in *. split.
    + now apply render_dest_closed.
    + now rewrite (proj1 (upd_tables_object _ _ _)).
  - apply Forall_forall. intros d Hd.
    eapply Permutation_in; [apply Permutation_sym, sorted_perm | exact Hd].
  - exact Hobj.
  - rewrite E, fold_left_upd. cbn [bind]. unfold code_text, code_data_writes,
      code_py_writes. fold head. now rewrite append_assoc.
Qed.

Lemma canonical_flat_map (V B : Type) (g : string -> string -> V)
    (ws : B -> list (string * string * V)) (l : list B) :
  (forall b, canonical_writes g (ws b)) -> canonical_writes g (flat_map ws l).
Proof.
  intros H w Hw. apply in_flat_map in Hw. destruct Hw as [b [_ Hw]].
  now apply (H b).
Qed.

Lemma code_data_writes_canonical (obj : Integrator T) :
  canonical_writes (fun m d => kernel_entry X obj d m) (code_data_writes X obj).
Proof.
  apply canonical_flat_map. intros d. apply canonical_flat_map. intros m w Hw.
  unfold method_data_writes in Hw.
  destruct (has_stepper_loop X obj d m); [|destruct Hw].
  destruct Hw as [<-|[]]. reflexivity.
Qed.

Lemma code_py_writes_canonical (obj : Integrator T) :
  canonical_writes (fun _ d => d) (code_py_writes X obj).
Proof.
  apply canonical_flat_map. intros d. apply canonical_flat_map. intros m w Hw.
  unfold method_py_writes in Hw.
  destruct (dict_get d (steppers obj)) as [stepper|]; [|destruct Hw].
  destruct (hasattr stepper _); [|destruct Hw].
  destruct Hw as [<-|[]]. reflexivity.
Qed.

Lemma in_code_data_writes (obj : Integrator T) (m d : string)
    (e : string * list string) :
  In (m, d, e) (code_data_writes X obj)
  <-> In d (keys (steppers obj))
      /\ In m (get_stepper_method_wrapper_names X obj)
      /\ has_stepper_loop X obj d m = true
      /\ e = kernel_entry X obj d m.
Proof.
  unfold code_data_writes, dest_data_writes, method_data_writes. split.
  - intros H. apply in_flat_map in H. destruct H as [d' [Hd H]].
    apply in_flat_map in H. destruct H as [m' [Hm H]].
    destruct (has_stepper_loop X obj d' m') eqn:E; [|destruct H].
    destruct H as [H|[]]. inversion H; subst.
    repeat split; auto.
    eapply Permutation_in; [apply Permutation_sym, sorted_perm | exact Hd].
  - intros [Hd [Hm [Hl ->]]]. apply in_flat_map. exists d. split.
    + eapply Permutation_in; [apply sorted_perm | exact Hd].
    + apply in_flat_map. exists m. split; [exact Hm|]. rewrite Hl. now left.
Qed.

Lemma in_code_py_writes (obj : Integrator T) (pm d v : string) :
  In (pm, d, v) (code_py_writes X obj)
  <-> v = d
      /\ exists m stepper,
           pm = ("py_" ++ m)%string
           /\ In m (get_stepper_method_wrapper_names X obj)
           /\ dict_get d (steppers obj) = Some stepper
           /\ hasattr stepper pm = true.
Proof.
  unfold code_py_writes, dest_py_writes, method_py_writes. split.
  - intros H. apply in_flat_map in H. destruct H as [d' [Hd H]].
    apply in_flat_map in H. destruct H as [m' [Hm H]].
    destruct (dict_get d' (steppers obj)) as [stepper|] eqn:Hst; [|destruct H].
    destruct (hasattr stepper ("py_" ++ m')) eqn:E; [|destruct H].
    destruct H as [H|[]]. inversion H; subst.
    split; [reflexivity|]. exists m', stepper. auto.
  - intros [-> [m [stepper [-> [Hm [Hst Hh]]]]]]. apply in_flat_map. exists d. split.
    + eapply Permutation_in; [apply sorted_perm|].
      eapply dict_get_Some_keys; eassumption.
    + apply in_flat_map. exists m. split; [exact Hm|]. rewrite Hst, Hh. now left.
Qed.

End ClosedForm.


(** ** The tables [get_code] fills and [_setup_call_data] reads *)

Section Tables.

Variables T W : Type.
Variable X : Externals T W.

(** X8. [get_code] returns for every helper (no destination it looks up in
    [steppers] is missing), and generating the code again changes neither
    the helper nor the text: the entries of [data] and [py_data] are
    assigned the values they hold, in place. *)
Theorem get_code_idempotent (h : IntegratorOpenCLHelper T) :
  exists h1 text,
    get_code X h = Ok (h1, text) /\ get_code X h1 = Ok (h1, text).
Proof.
  destruct (object h) as [obj|] eqn:Hobj.
  - exists (upd_tables (code_data_writes X obj) (code_py_writes X obj) h),
      (code_text X obj (known_types (acceleration_eval_helper h))).
    split; [now apply get_code_closed|].
    rewrite (@get_code_closed _ _ X obj)
      by (now rewrite (proj1 (upd_tables_object _ _ _))).
    rewrite (proj2 (upd_tables_object _ _ _)). do 2 f_equal.
    destruct h as [o a pd d pc c p]. unfold upd_tables, set_data, set_py_data.
    cbn [object acceleration_eval_helper py_data data py_calls calls program].
    rewrite (apply_writes_idem _ (code_data_writes_canonical X obj)).
    rewrite (apply_writes_idem _ (code_py_writes_canonical X obj)).
    reflexivity.
  - exists h, ""%string. unfold get_code. rewrite Hobj. now split.
Qed.

Lemma code_tables_lookup (obj : Integrator T) (h h1 : IntegratorOpenCLHelper T)
    (text : string) :
  object h = Some obj -> data h = [] -> py_data h = [] ->
  get_code X h = Ok (h1, text) ->
  (forall method dest e,
      dict_get dest (stage_items method (data h1)) = Some e
      <-> In dest (keys (steppers obj))
          /\ In method (get_stepper_method_wrapper_names X obj)
          /\ has_stepper_loop X obj dest method = true
          /\ e = kernel_entry X obj dest method)
  /\ (forall py_method dest v,
         dict_get dest (stage_items py_method (py_data h1)) = Some v
         <-> v = dest
             /\ exists method stepper,
                  py_method = ("py_" ++ method)%string
                  /\ In method (get_stepper_method_wrapper_names X obj)
                  /\ dict_get dest (steppers obj) = Some stepper
                  /\ hasattr stepper py_method = true).
Proof.
  intros Hobj Hd Hp H. rewrite (get_code_closed X h Hobj) in H.
  inversion H; subst; clear H.
  destruct h as [o a pd d pc c p]. cbn [object data py_data] in Hobj, Hd, Hp. subst.
  unfold upd_tables, set_data, set_py_data.
  cbn [object acceleration_eval_helper py_data data py_calls calls program].
  split.
  - intros method dest e. rewrite <- in_code_data_writes. split.
    + intros H. apply lookup_writes_inv in H. destruct H as [H|H]; [exact H|].
      discriminate.
    + intros H.
      assert (He : e = kernel_entry X obj dest method)
        by (apply (code_data_writes_canonical X obj _ H)).
      rewrite He.
      apply (@lookup_writes _ (fun m d => kernel_entry X obj d m));
        [apply code_data_writes_canonical|]. left. eauto.
  - intros py_method dest v. rewrite <- in_code_py_writes. split.
    + intros H. apply lookup_writes_inv in H. destruct H as [H|H]; [exact H|].
      discriminate.
    + intros H.
      assert (He : v = dest) by (apply (code_py_writes_canonical X obj _ H)).
      rewrite He.
      apply (@lookup_writes _ (fun _ d => d));
        [apply code_py_writes_canonical|]. left. eauto.
Qed.


Lemma existsb_eqb_In (x : string) (l : list string) :
  existsb (String.eqb x) l = true <-> In x l.
Proof.
  rewrite existsb_exists. split.
  - intros [y [Hy E]]. apply String.eqb_eq in E. now subst.
  - intros H. exists x. split; [exact H | apply String.eqb_refl].
Qed.

Lemma setup_call_spec (prog : option (list string)) (array_map : list string)
    (q : Z) (method dest : string) (e : string * list string)
    (c c' : defaultdict (call_entry T)) :
  setup_call prog array_map q method c (dest, e) = Ok c'
  <-> In dest array_map
      /\ (exists kernels, prog = Some kernels /\ In (fst e) kernels)
      /\ c' = dd_setitem method dest (call_descriptor T q dest e) c.
Proof.
  destruct e as [kernel args]. unfold setup_call, array_map_getitem, getattr_program,
    call_descriptor. cbn [fst snd app].
  destruct (existsb (String.eqb dest) array_map) eqn:Ed; cbn [bind].
  - apply existsb_eqb_In in Ed. destruct prog as [kernels|]; cbn [bind].
    + destruct (existsb (String.eqb kernel) kernels) eqn:Ek; cbn [bind].
      * apply existsb_eqb_In in Ek. split.
        -- intros H. inversion H; subst. eauto 6.
        -- intros [_ [_ ->]]. reflexivity.
      * split; [discriminate|]. intros [_ [[kernels' [Hk Hin]] _]].
        inversion Hk; subst. apply existsb_eqb_In in Hin. congruence.
    + split; [discriminate|]. intros [_ [[kernels' [Hk _]] _]]. discriminate.
  - split; [discriminate|]. intros [Hin _]. apply existsb_eqb_In in Hin. congruence.
Qed.

Lemma setup_py_call_spec (steppers0 : dict Stepper) (array_map : list string)
    (py_method dest : string) (c c' : defaultdict py_call_entry) :
  setup_py_call steppers0 array_map py_method c dest = Ok c'
  <-> exists stepper,
        dict_get dest steppers0 = Some stepper
        /\ hasattr stepper py_method = true
        /\ In dest array_map
        /\ c' = dd_setitem py_method dest
                  ({| im_self := stepper; im_name := py_method |}, dest) c.
Proof.
  unfold setup_py_call, dict_getitem, getattr_stepper, array_map_getitem.
  destruct (dict_get dest steppers0) as [stepper|]; cbn [bind].
  - destruct (hasattr stepper py_method) eqn:Eh; cbn [bind].
    + destruct (existsb (String.eqb dest) array_map) eqn:Ed; cbn [bind].
      * apply existsb_eqb_In in Ed. split.
        -- intros H. inversion H; subst. eauto 6.
        -- intros [stepper' [Hs [_ [_ ->]]]]. inversion Hs; subst. reflexivity.
      * split; [discriminate|]. intros [stepper' [_ [_ [Hin _]]]].
        apply existsb_eqb_In in Hin. congruence.
    + split; [discriminate|]. intros [stepper' [Hs [Hh _]]].
      inversion Hs; subst. congruence.
  - split; [discriminate|]. intros [stepper' [Hs _]]. discriminate.
Qed.

Lemma foldM_returns (A B : Type) (f : A -> B -> result A) (ok : B -> Prop) :
  (forall a b, ok b -> exists a', f a b = Ok a') ->
  forall (l : list B) (a : A), Forall ok l -> exists a', foldM f l a = Ok a'.
Proof.
  intros Hstep. induction l as [|b l IH]; intros a Hl.
  - exists a. reflexivity.
  - inversion Hl; subst. destruct (Hstep a b) as [a1 E]; [assumption|].
    simpl. rewrite E. cbn [bind]. now apply IH.
Qed.

Lemma dd_lookup_In (V : Type) (dd : defaultdict V) (m k : string) (v : V) :
  dict_get k (stage_items m dd) = Some v ->
  In (m, stage_items m dd) dd /\ In (k, v) (stage_items m dd).
Proof.
  intros H. split; [|now apply dict_get_In].
  destruct (stage_items_In m dd) as [E|Hin]; [|exact Hin].
  rewrite E in H. discriminate.
Qed.

Lemma dd_In_lookup (V : Type) (dd : defaultdict V) (m k : string) (u : dict V) (v : V) :
  NoDup (keys dd) -> dd_sorted dd ->
  In (m, u) dd -> In (k, v) u ->
  dict_get k (stage_items m dd) = Some v.
Proof.
  intros Hnd Hs Hm Hk. specialize (Hs m). unfold stage_items in *.
  rewrite (dict_get_of_In_NoDup _ _ _ Hnd Hm) in *.
  apply dict_get_of_In_NoDup; [now apply sorted_lt_NoDup | exact Hk].
Qed.

Lemma dd_inner_NoDup (V : Type) (dd : defaultdict V) (m : string) (u : dict V) :
  NoDup (keys dd) -> dd_sorted dd -> In (m, u) dd -> NoDup (keys u).
Proof.
  intros Hnd Hs Hin. apply sorted_lt_NoDup. specialize (Hs m).
  unfold stage_items in Hs. now rewrite (dict_get_of_In_NoDup _ _ _ Hnd Hin) in Hs.
Qed.

(** What [_setup_call_data] makes of each entry of [data] and of
    [py_data], and what it found to make it. *)
Lemma setup_call_data_values (h h' : IntegratorOpenCLHelper T) :
  _setup_call_data h = Ok h' ->
  NoDup (keys (data h)) -> NoDup (keys (py_data h)) ->
  dd_sorted (data h) -> dd_sorted (py_data h) ->
  (forall method dest e,
      dict_get dest (stage_items method (data h)) = Some e ->
      dict_get dest (stage_items method (calls h'))
      = Some (call_descriptor T (_queue (acceleration_eval_helper h)) dest e)
      /\ In dest (_array_map (acceleration_eval_helper h))
      /\ exists kernels, program h = Some kernels /\ In (fst e) kernels)
  /\ (forall py_method dest v,
         dict_get dest (stage_items py_method (py_data h)) = Some v ->
         exists obj stepper,
           object h = Some obj
           /\ dict_get dest (steppers obj) = Some stepper
           /\ hasattr stepper py_method = true
           /\ In dest (_array_map (acceleration_eval_helper h))
           /\ dict_get dest (stage_items py_method (py_calls h'))
              = Some ({| im_self := stepper; im_name := py_method |}, dest)).
Proof.
  intros H Hnd Hnp Hsd Hsp. unfold _setup_call_data in H.
  apply bind_ok in H. destruct H as [obj [Hobj H]].
  apply bind_ok in H. destruct H as [pc [Hpc H]].
  apply bind_ok in H. destruct H as [c [Hcc H]].
  inversion H; subst; clear H. cbn [calls py_calls set_calls set_py_calls].
  unfold getattr_object in Hobj.
  destruct (object h) as [obj'|] eqn:Eo; inversion Hobj; subst; clear Hobj.
  set (am := _array_map (acceleration_eval_helper h)) in *.
  set (q := _queue (acceleration_eval_helper h)) in *.
  split.
  - intros method dest e He. apply dd_lookup_In in He. destruct He as [Hm Hk].
    destruct (@outer_fold_values _ _ _ fst (fun u => u)
                (setup_call (program h) am q)
                (fun m (b : string * (string * list string)) v =>
                   v = call_descriptor T q (fst b) (snd b)
                   /\ In (fst b) am
                   /\ exists kernels, program h = Some kernels
                                      /\ In (fst (snd b)) kernels))
      with (src := data h) (c := calls h) (c' := c) (m := method)
           (u := stage_items method (data h)) (b := (dest, e))
      as [v [Hv [-> [Ha Hp]]]]; auto.
    + intros m c0 [d0 e0] c1 Hstep. apply setup_call_spec in Hstep.
      destruct Hstep as [Ha [Hp ->]]. eauto 6.
    + intros m u Hin. eapply dd_inner_NoDup; eassumption.
  - intros py_method dest v He. apply dd_lookup_In in He. destruct He as [Hm Hk].
    destruct (@outer_fold_values _ _ _ (fun x : string => x) (@keys string)
                (setup_py_call (steppers obj) am)
                (fun m b v =>
                   exists stepper,
                     dict_get b (steppers obj) = Some stepper
                     /\ hasattr stepper m = true
                     /\ In b am
                     /\ v = ({| im_self := stepper; im_name := m |}, b)))
      with (src := py_data h) (c := py_calls h) (c' := pc) (m := py_method)
           (u := stage_items py_method (py_data h)) (b := dest)
      as [v' [Hv [stepper [Hs [Hh [Ha ->]]]]]]; auto.
    + intros m c0 b c1 Hstep. apply setup_py_call_spec in Hstep.
      destruct Hstep as [stepper [Hs [Hh [Ha ->]]]]. eauto 8.
    + intros m u Hin. rewrite map_id. eapply dd_inner_NoDup; eassumption.
    + unfold keys. change dest with (fst (dest, v)). now apply in_map.
    + exists obj, stepper. auto.
Qed.

(** [_setup_call_data] returns when what it looks up is there. *)
Lemma setup_call_data_returns (h : IntegratorOpenCLHelper T) (obj : Integrator T)
    (kernels : list string) :
  object h = Some obj -> program h = Some kernels ->
  (forall method u dest e,
      In (method, u) (data h) -> In (dest, e) u ->
      In dest (_array_map (acceleration_eval_helper h)) /\ In (fst e) kernels) ->
  (forall py_method u dest v,
      In (py_method, u) (py_data h) -> In (dest, v) u ->
      In dest (_array_map (acceleration_eval_helper h))
      /\ exists stepper, dict_get dest (steppers obj) = Some stepper
                         /\ hasattr stepper py_method = true) ->
  exists h', _setup_call_data h = Ok h'.
Proof.
  intros Hobj Hprog Hd Hp. unfold _setup_call_data, getattr_object.
  rewrite Hobj. cbn [bind].
  destruct (@foldM_returns _ _
              (fun pc (item : string * dict string) =>
                 foldM (setup_py_call (steppers obj)
                          (_array_map (acceleration_eval_helper h)) (fst item))
                       (keys (snd item)) pc)
              (fun item => In item (py_data h)))
    with (l := py_data h) (a := py_calls h) as [pc Epc].
  - intros pc0 [pm u] Hin. cbn [fst snd].
    apply (@foldM_returns _ _ _ (fun d => In d (keys u))).
    + intros c0 d Hk. unfold keys in Hk. apply in_map_iff in Hk.
      destruct Hk as [[d' v] [<- Hk]]. cbn [fst].
      destruct (Hp _ _ _ _ Hin Hk) as [Ha [stepper [Hs Hh]]].
      eexists. apply setup_py_call_spec. eauto 8.
    + apply Forall_forall. auto.
  - apply Forall_forall. auto.
  - rewrite Epc. cbn [bind].
    destruct (@foldM_returns _ _
                (fun (c : defaultdict (call_entry T))
                     (item : string * dict (string * list string)) =>
                   foldM (setup_call (program h)
                            (_array_map (acceleration_eval_helper h))
                            (_queue (acceleration_eval_helper h)) (fst item))
                         (snd item) c)
                (fun item => In item (data h)))
      with (l := data h) (a := calls h) as [c Ec].
    + intros c0 [m u] Hin. cbn [fst snd].
      apply (@foldM_returns _ _ _ (fun it => In it u)).
      * intros c1 [d e] Hk. destruct (Hd _ _ _ _ Hin Hk) as [Ha Hke].
        eexists. apply setup_call_spec. rewrite Hprog. eauto 8.
      * apply Forall_forall. auto.
    + apply Forall_forall. auto.
    + rewrite Ec. cbn [bind]. eauto.
Qed.

Lemma get_code_sorted (h h1 : IntegratorOpenCLHelper T) (text : string) :
  data h = [] -> py_data h = [] ->
  get_code X h = Ok (h1, text) ->
  (object h1 = object h
   /\ acceleration_eval_helper h1 = acceleration_eval_helper h
   /\ calls h1 = calls h /\ py_calls h1 = py_calls h /\ program h1 = program h)
  /\ NoDup (keys (data h1)) /\ NoDup (keys (py_data h1))
  /\ dd_sorted (data h1) /\ dd_sorted (py_data h1).
Proof.
  intros Hd Hp H. destruct (get_code_inv X h Hd Hp H) as [Hf [[A [_ B]] [C [_ D]]]].
  auto.
Qed.

Lemma setup_compiled_module_helper (module : list string) (ae : Z)
    (h : IntegratorOpenCLHelper T) (s0 : OpenCLIntegrator T) :
  setup_compiled_module X module ae h = Ok s0 ->
  _setup_call_data (set_program (Some module) h) = Ok (helper s0).
Proof.
  intros H. unfold setup_compiled_module in H.
  apply bind_ok in H. destruct H as [h2 [Hh2 Hinit]].
  unfold OpenCLIntegrator_init in Hinit.
  apply bind_ok in Hinit. destruct Hinit as [code [_ Hinit]].
  apply bind_ok in Hinit. destruct Hinit as [obj [_ Hinit]].
  inversion Hinit; subst. exact Hh2.
Qed.

Lemma compiled_tables_lookup (obj : Integrator T) (h h1 : IntegratorOpenCLHelper T)
    (text : string) (module : list string) (ae : Z) (s0 : OpenCLIntegrator T) :
  object h = Some obj ->
  data h = [] -> py_data h = [] -> calls h = [] -> py_calls h = [] ->
  get_code X h = Ok (h1, text) ->
  setup_compiled_module X module ae h1 = Ok s0 ->
  (forall method dest c,
      dict_get dest (stage_calls method s0) = Some c
      <-> In dest (keys (steppers obj))
          /\ In method (get_stepper_method_wrapper_names X obj)
          /\ has_stepper_loop X obj dest method = true
          /\ c = ((method ++ "_" ++ dest)%string,
                  AQueue (_queue (acceleration_eval_helper h)) :: ANone :: ANone
                  :: map (fun x => AGetter dest (str_drop 2 x))
                         (snd (get_array_names X
                                 (stepper_kernel_args X obj dest method))),
                  dest))
  /\ (forall method dest v,
         In method (get_stepper_method_wrapper_names X obj) ->
         dict_get dest (stage_py_calls method s0) = Some v
         <-> exists stepper,
               dict_get dest (steppers obj) = Some stepper
               /\ hasattr stepper ("py_" ++ method) = true
               /\ v = ({| im_self := stepper; im_name := ("py_" ++ method)%string |},
                       dest)).
Proof.
  intros Hobj Hd Hp Hc Hpc Hcode Hsetup.
  destruct (code_tables_lookup h Hobj Hd Hp Hcode) as [Tdata Tpy].
  destruct (get_code_sorted h Hd Hp Hcode)
    as [[Ho [Ha [Hc1 [Hpc1 Hprog]]]] [Nd [Np [Sd Sp]]]].
  apply setup_compiled_module_helper in Hsetup.
  set (h2 := set_program (Some module) h1) in *.
  assert (Hc2 : calls h2 = []) by (unfold h2; cbn; congruence).
  assert (Hpc2 : py_calls h2 = []) by (unfold h2; cbn; congruence).
  destruct (@setup_call_data_tables T h2 (helper s0) Hsetup Hc2 Hpc2 Nd Np Sd Sp)
    as [Kc [Kp _]].
  destruct (setup_call_data_values h2 Hsetup Nd Np Sd Sp) as [Vc Vp].
  change (acceleration_eval_helper h2) with (acceleration_eval_helper h1) in Vc, Vp.
  rewrite Ha in Vc, Vp.
  assert (Ho2 : object h2 = Some obj)
    by (unfold h2; cbn; congruence).
  unfold stage_calls, stage_py_calls. split.
  - intros method dest c. split.
    + intros H.
      destruct (dict_get_of_key dest (stage_items method (data h1))) as [e He].
      { change (data h1) with (data h2). rewrite <- Kc.
        eapply dict_get_Some_keys; eassumption. }
      destruct (Vc _ _ _ He) as [Hv _]. rewrite Hv in H. inversion H; subst c.
      apply Tdata in He. destruct He as [A [B [C ->]]].
      repeat split; assumption.
    + intros [A [B [C ->]]].
      assert (He : dict_get dest (stage_items method (data h1))
                   = Some (kernel_entry X obj dest method))
        by (apply Tdata; auto).
      destruct (Vc _ _ _ He) as [Hv _]. rewrite Hv. reflexivity.
  - intros method dest v Hm. split.
    + intros H.
      destruct (dict_get_of_key dest (stage_items ("py_" ++ method) (py_data h1)))
        as [e He].
      { change (py_data h1) with (py_data h2). rewrite <- Kp.
        eapply dict_get_Some_keys; eassumption. }
      destruct (Vp _ _ _ He) as [obj' [stepper [Eo [Hs [Hh [_ Hv]]]]]].
      rewrite Ho2 in Eo. inversion Eo; subst obj'.
      rewrite Hv in H. inversion H; subst v. exists stepper. auto.
    + intros [stepper [Hs [Hh ->]]].
      assert (He : dict_get dest (stage_items ("py_" ++ method) (py_data h1))
                   = Some dest).
      { apply Tpy. split; [reflexivity|]. exists method, stepper. auto. }
      destruct (Vp _ _ _ He) as [obj' [stepper' [Eo [Hs' [_ [_ Hv]]]]]].
      rewrite Ho2 in Eo. inversion Eo; subst obj'.
      rewrite Hs in Hs'. inversion Hs'; subst stepper'. exact Hv.
Qed.

(** X10. The tables of the runtime [setup_compiled_module] builds from
    generated code: the stage [method] has a call descriptor for [dest]
    exactly when [dest] has a stepper with a loop for that stage, and the
    descriptor is the kernel [method_dest] of the module with the queue,
    two empty size slots and one getter on [dest] per array name, its
    two-letter prefix dropped; it has a hook for [dest] exactly when the
    stepper of [dest] has the method [py_method], and the hook is that
    bound method with [dest]. *)
Theorem compiled_tables (obj : Integrator T) (h h1 : IntegratorOpenCLHelper T)
    (text : string) (module : list string) (ae : Z) (s0 : OpenCLIntegrator T) :
  object h = Some obj ->
  data h = [] -> py_data h = [] -> calls h = [] -> py_calls h = [] ->
  get_code X h = Ok (h1, text) ->
  setup_compiled_module X module ae h1 = Ok s0 ->
  (forall method dest c,
      dict_get dest (stage_calls method s0) = Some c
      <-> In dest (keys (steppers obj))
          /\ In method (get_stepper_method_wrapper_names X obj)
          /\ has_stepper_loop X obj dest method = true
          /\ c = ((method ++ "_" ++ dest)%string,
                  AQueue (_queue (acceleration_eval_helper h)) :: ANone :: ANone
                  :: map (fun x => AGetter dest (str_drop 2 x))
                         (snd (get_array_names X
                                 (stepper_kernel_args X obj dest method))),
                  dest))
  /\ (forall method dest v,
         In method (get_stepper_method_wrapper_names X obj) ->
         dict_get dest (stage_py_calls method s0) = Some v
         <-> exists stepper,
               dict_get dest (steppers obj) = Some stepper
               /\ hasattr stepper ("py_" ++ method) = true
               /\ v = ({| im_self := stepper; im_name := ("py_" ++ method)%string |},
                       dest)).
Proof.
  apply compiled_tables_lookup.
Qed.

(** X11. [setup_compiled_module] on generated code returns exactly when
    every destination with a kernel or a hook is a particle array of the
    evaluator and every kernel [method_dest] is in the module: nothing
    else can make it raise. *)
Theorem setup_compiled_module_returns (obj : Integrator T)
    (h h1 : IntegratorOpenCLHelper T) (text : string) (module : list string)
    (ae : Z) :
  object h = Some obj -> data h = [] -> py_data h = [] ->
  get_code X h = Ok (h1, text) ->
  (exists s0, setup_compiled_module X module ae h1 = Ok s0)
  <-> setup_ready X obj (_array_map (acceleration_eval_helper h)) module.
Proof.
  intros Hobj Hd Hp Hcode.
  destruct (code_tables_lookup h Hobj Hd Hp Hcode) as [Tdata Tpy].
  destruct (get_code_sorted h Hd Hp Hcode)
    as [[Ho [Ha [Hc1 [Hpc1 Hprog]]]] [Nd [Np [Sd Sp]]]].
  set (h2 := set_program (Some module) h1).
  assert (Ho2 : object h2 = Some obj)
    by (unfold h2; cbn; congruence).
  assert (Ha2 : acceleration_eval_helper h2 = acceleration_eval_helper h)
    by (unfold h2; cbn; congruence).
  split.
  - intros [s0 Hsetup]. apply setup_compiled_module_helper in Hsetup.
    fold h2 in Hsetup.
    destruct (setup_call_data_values h2 Hsetup Nd Np Sd Sp) as [Vc Vp].
    change (acceleration_eval_helper h2) with (acceleration_eval_helper h1) in Vc, Vp.
    rewrite Ha in Vc, Vp.
    intros dest method Hdest Hm. split.
    + intros Hl.
      assert (He : dict_get dest (stage_items method (data h1))
                   = Some (kernel_entry X obj dest method))
        by (apply Tdata; auto).
      destruct (Vc _ _ _ He) as [_ [Hin [kernels [Hk Hin2]]]].
      unfold h2 in Hk. destruct h1. cbn in Hk. inversion Hk; subst.
      split; assumption.
    + intros stepper Hs Hh.
      assert (He : dict_get dest (stage_items ("py_" ++ method) (py_data h1))
                   = Some dest).
      { apply Tpy. split; [reflexivity|]. exists method, stepper. auto. }
      destruct (Vp _ _ _ He) as [_ [_ [_ [_ [_ [Hin _]]]]]]. exact Hin.
  - intros Hready.
    destruct (@setup_call_data_returns h2 obj module) as [h3 Hh3].
    + exact Ho2.
    + unfold h2. now destruct h1.
    + intros method u dest e Hu He. rewrite Ha2.
      assert (Hl : dict_get dest (stage_items method (data h1)) = Some e)
        by (eapply dd_In_lookup; eassumption).
      apply Tdata in Hl. destruct Hl as [A [B [C ->]]].
      now apply (Hready dest method A B).
    + intros py_method u dest v Hu He. rewrite Ha2.
      assert (Hl : dict_get dest (stage_items py_method (py_data h1)) = Some v)
        by (eapply dd_In_lookup; eassumption).
      apply Tpy in Hl. destruct Hl as [-> [method [stepper [-> [B [Hs Hh]]]]]].
      split; [|eauto].
      apply (Hready dest method (dict_get_Some_keys _ _ Hs) B) with (stepper := stepper);
        assumption.
    + assert (Ho3 : object h3 = Some obj).
      { unfold _setup_call_data in Hh3.
        apply bind_ok in Hh3. destruct Hh3 as [obj1 [_ Hh3]].
        apply bind_ok in Hh3. destruct Hh3 as [pc [_ Hh3]].
        apply bind_ok in Hh3. destruct Hh3 as [c [_ Hh3]].
        inversion Hh3; subst. exact Ho2. }
      unfold setup_compiled_module. fold h2. rewrite Hh3. cbn [bind].
      unfold OpenCLIntegrator_init, get_timestep_code, getattr_object.
      rewrite Ho3. cbn [bind]. eauto.
Qed.


End Tables.


(** ** The instances [get_stepper_code] translates *)

Section Instances.

Lemma sorted_le_NoDup_lt (l : list string) :
  StronglySorted str_le l -> NoDup l -> StronglySorted str_lt l.
Proof.
  induction 1 as [|x l Hl IH Hx]; intros Hnd; [constructor|].
  inversion Hnd as [|? ? Hnx Hnd']; subst. constructor; [now apply IH|].
  rewrite Forall_forall in *. intros y Hy.
  apply str_le_neq_lt; [now apply Hx|]. intros ->. contradiction.
Qed.

Lemma stepper_classes_snoc (l : dict Stepper) (item : string * Stepper) :
  stepper_classes (l ++ [item])
  = dict_set (cls_name (snd item)) (snd item) (stepper_classes l).
Proof.
  unfold stepper_classes. now rewrite fold_left_app.
Qed.

(** [classes[cls]] is the last stepper of class [cls] in the order of
    [steppers]. *)
Lemma stepper_classes_last (c : string) (s : Stepper) :
  forall steppers0 : dict Stepper,
    dict_get c (stepper_classes steppers0) = Some s
    <-> exists l1 dest l2,
          steppers0 = l1 ++ (dest, s) :: l2
          /\ cls_name s = c
          /\ forall d' s', In (d', s') l2 -> cls_name s' <> c.
Proof.
  induction steppers0 as [|[d0 s0] l IH] using rev_ind.
  - split; [discriminate|]. intros [l1 [dest [l2 [H _]]]].
    destruct l1; discriminate.
  - rewrite stepper_classes_snoc. cbn [snd].
    destruct (string_dec c (cls_name s0)) as [->|Hne].
    + rewrite dict_get_set_same. split.
      * intros H. inversion H; subst. exists l, d0, []. repeat split; auto.
      * intros [l1 [dest [l2 [Heq [Hc Hlast]]]]].
        destruct l2 as [|x l2 _] using rev_ind.
        -- apply app_inj_tail in Heq. destruct Heq as [_ Heq]. congruence.
        -- rewrite app_comm_cons, app_assoc in Heq.
           apply app_inj_tail in Heq. destruct Heq as [_ Heq]. subst x.
           exfalso. apply (Hlast d0 s0); [|reflexivity].
           apply in_or_app. right. now left.
    + rewrite dict_get_set_other by exact Hne. rewrite IH. split.
      * intros [l1 [dest [l2 [-> [Hc Hlast]]]]].
        exists l1, dest, (l2 ++ [(d0, s0)]). split; [|split; [exact Hc|]].
        -- now rewrite <- app_assoc.
        -- intros d' s' Hin. apply in_app_or in Hin. destruct Hin as [Hin|[Hin|[]]].
           ++ eapply Hlast; eassumption.
           ++ inversion Hin; subst. congruence.
      * intros [l1 [dest [l2 [Heq [Hc Hlast]]]]].
        destruct l2 as [|x l2 _] using rev_ind.
        -- apply app_inj_tail in Heq. destruct Heq as [_ Heq].
           inversion Heq; subst. congruence.
        -- rewrite app_comm_cons, app_assoc in Heq.
           apply app_inj_tail in Heq. destruct Heq as [Heq _]. subst l.
           exists l1, dest, l2. repeat split; auto.
           intros d' s' Hin. apply (Hlast d' s'). apply in_or_app. now left.
Qed.

(** X12. [get_stepper_code] translates, in strictly increasing order of
    class name, exactly one stepper per class: the one of the last
    destination of that class in the order of [steppers]. *)
Theorem parsed_instances_last (steppers0 : dict Stepper) :
  StronglySorted str_lt (map cls_name (parsed_instances steppers0))
  /\ forall s,
       In s (parsed_instances steppers0)
       <-> exists l1 dest l2,
             steppers0 = l1 ++ (dest, s) :: l2
             /\ forall d' s', In (d', s') l2 -> cls_name s' <> cls_name s.
Proof.
  destruct (stepper_classes_spec steppers0) as [Hnd [Hcls _]]. split.
  - rewrite parsed_instances_classes. apply sorted_le_NoDup_lt.
    + apply sorted_sorted.
    + eapply Permutation_NoDup; [apply sorted_perm | exact Hnd].
  - intros s. unfold parsed_instances. cbv zeta. rewrite in_flat_map. split.
    + intros [c [_ Hs]].
      destruct (dict_get c (stepper_classes steppers0)) as [s'|] eqn:E; [|destruct Hs].
      destruct Hs as [<-|[]].
      apply stepper_classes_last in E. destruct E as [l1 [dest [l2 [Heq [Hc Hlast]]]]].
      exists l1, dest, l2. split; [exact Heq|]. now rewrite Hc.
    + intros [l1 [dest [l2 [Heq Hlast]]]].
      assert (E : dict_get (cls_name s) (stepper_classes steppers0) = Some s).
      { apply stepper_classes_last. exists l1, dest, l2. auto. }
      exists (cls_name s). split.
      * eapply Permutation_in; [apply sorted_perm|].
        eapply dict_get_Some_keys; eassumption.
      * rewrite E. now left.
Qed.

End Instances.


(** ** What the runtime launches, from what was generated *)

Section Launches.

Variables T W : Type.
Variable X : Externals T W.

Lemma list_setitem_1 (args args1 : list (arg T)) (v : arg T) :
  list_setitem args 1 v = Ok args1 ->
  exists a0 a1 rest, args = a0 :: a1 :: rest /\ args1 = a0 :: v :: rest.
Proof.
  destruct args as [|a0 [|a1 rest]]; simpl; intros H; try discriminate.
  inversion H; subst. eauto.
Qed.

Lemma kernel_loop_shapes (s0 : OpenCLIntegrator T) (method : string)
    (extra : list (arg T)) (items : dict (call_entry T)) :
  forall (s : OpenCLIntegrator T) (w : W) s' w' log,
    kernel_loop X method extra items s w = Ok (s', w', log) ->
    (forall name c, In (name, c) items ->
                    exists c0, In (name, c0) (stage_calls method s0)
                               /\ call_shape c = call_shape c0) ->
    shapes_from s0 s -> shapes_from s0 s'.
Proof.
  induction items as [|[name [[call args] dest]] items IH];
    intros s w s' w' log H Hitems Hs.
  - simpl in H. inversion H; subst. exact Hs.
  - cbn [kernel_loop] in H.
    apply bind_ok in H. destruct H as [args1 [Hset H]].
    apply bind_ok in H. destruct H as [[rest log_rest] [_ H]].
    apply bind_ok in H. destruct H as [[[s2 w2] log2] [H2 H]].
    inversion H; subst; clear H.
    apply list_setitem_1 in Hset. destruct Hset as [a0 [a1 [rest' [-> ->]]]].
    eapply IH; [exact H2 | |].
    + intros name' c Hin. apply Hitems. now right.
    + intros m name' c Hin. unfold stage_calls in Hin.
      cbn [helper set_helper calls set_calls] in Hin.
      rewrite stage_items_setitem in Hin.
      destruct (string_dec m method) as [->|Hne]; [|now apply Hs].
      apply in_dict_set in Hin. destruct Hin as [[-> ->]|Hin]; [|now apply Hs].
      destruct (Hitems name (call, a0 :: a1 :: rest', dest)) as [c0 [Hc0 Hsh]];
        [now left|].
      exists c0. split; [exact Hc0|]. rewrite <- Hsh. reflexivity.
Qed.

Lemma do_stage_shapes (s0 : OpenCLIntegrator T) (method : string)
    (s : OpenCLIntegrator T) (w : W) s' w' log :
  _do_stage X method s w = Ok (s', w', log) ->
  shapes_from s0 s -> shapes_from s0 s'.
Proof.
  intros H Hs. unfold _do_stage in H.
  pose proof (dd_getitem_fst method (calls (helper s))) as E1.
  pose proof (fun m0 => stage_items_dd_getitem method m0 (calls (helper s))) as E3.
  destruct (dd_getitem method (calls (helper s))) as [call_info calls1].
  destruct (dd_getitem _ (py_calls (helper s))) as [py_info py_calls1].
  cbn [fst snd] in E1, E3. subst call_info.
  apply bind_ok in H. destruct H as [t [_ H]].
  apply bind_ok in H. destruct H as [dt [_ H]].
  destruct (py_loop X _ py_info w) as [w1 log1].
  apply bind_ok in H. destruct H as [[[s2 w2] log2] [H2 H]].
  inversion H; subst; clear H.
  eapply kernel_loop_shapes; [exact H2| |].
  - intros name c Hin. now apply Hs.
  - intros m name c Hin. apply Hs. unfold stage_calls in *.
    cbn [helper set_helper calls set_calls set_py_calls] in Hin.
    now rewrite E3 in Hin.
Qed.

Lemma exec_ops_shapes (s0 : OpenCLIntegrator T) (ops : list (op T)) (t dt : T) :
  forall (s : OpenCLIntegrator T) (w : W) s' w' log,
    exec_ops X ops t dt s w = Ok (s', w', log) ->
    shapes_from s0 s -> shapes_from s0 s'.
Proof.
  induction ops as [|o ops IH]; intros s w s' w' log H Hs.
  - simpl in H. inversion H; subst. exact Hs.
  - cbn [exec_ops] in H.
    apply bind_ok in H. destruct H as [[[s1 w1] log1] [H1 H]].
    apply bind_ok in H. destruct H as [[[s2 w2] log2] [H2 H]].
    inversion H; subst; clear H.
    eapply IH; [exact H2|].
    destruct o as [method| |stage_dt stage]; simpl in H1.
    + destruct (existsb _ _); [|discriminate].
      eapply do_stage_shapes; eassumption.
    + apply compute_accelerations_state in H1. now subst.
    + apply do_post_stage_context in H1. destruct H1 as [_ Hh].
      unfold shapes_from, stage_calls in *. now rewrite Hh.
Qed.

Lemma reachable_shapes (s0 s : OpenCLIntegrator T) :
  reachable X s0 s -> shapes_from s0 s.
Proof.
  intros Hr.
  induction Hr as [|s v Hr IH|s v Hr IH|s v Hr IH|s w s' w' log Hr IH H
                   |s method w s' w' log Hr IH H
                   |s stage_dt stage w s' w' log Hr IH H
                   |s t dt w s' w' log Hr IH H]; auto.
  - intros m name c Hin. eauto.
  - apply compute_accelerations_state in H. now subst.
  - eapply do_stage_shapes; eassumption.
  - apply do_post_stage_context in H. destruct H as [_ Hh].
    unfold shapes_from, stage_calls in *. now rewrite Hh.
  - unfold step in H. apply exec_ops_shapes with (s0 := s0) in H; [exact H|].
    exact IH.
Qed.

Lemma map_getter_inj (dest : string) (l1 l2 : list string) :
  map (@AGetter T dest) l1 = map (@AGetter T dest) l2 -> l1 = l2.
Proof.
  revert l2. induction l1 as [|x l1 IH]; intros [|y l2] H; try discriminate.
  - reflexivity.
  - simpl in H. inversion H; subst. f_equal. now apply IH.
Qed.

(** The call descriptors of the runtime built from generated code. *)
Lemma compiled_calls_In (obj : Integrator T) (aeh : AccelerationEvalHelper)
    (h1 : IntegratorOpenCLHelper T) (text : string) (module : list string)
    (ae : Z) (s0 : OpenCLIntegrator T) (method dest : string) (c : call_entry T) :
  get_code X (helper_init (Some obj) aeh) = Ok (h1, text) ->
  setup_compiled_module X module ae h1 = Ok s0 ->
  In (dest, c) (stage_calls method s0) ->
  In dest (keys (steppers obj))
  /\ In method (get_stepper_method_wrapper_names X obj)
  /\ has_stepper_loop X obj dest method = true
  /\ In dest (_array_map aeh)
  /\ In (method ++ "_" ++ dest)%string module
  /\ c = call_descriptor T (_queue aeh) dest (kernel_entry X obj dest method).
Proof.
  intros Hcode Hsetup Hin.
  set (h := helper_init (Some obj) aeh) in *.
  assert (Hobj : object h = Some obj) by reflexivity.
  assert (Hd : data h = []) by reflexivity.
  assert (Hp : py_data h = []) by reflexivity.
  destruct (code_tables_lookup X h Hobj Hd Hp Hcode) as [Tdata _].
  destruct (get_code_sorted X h Hd Hp Hcode)
    as [[Ho [Ha [Hc1 [Hpc1 Hprog]]]] [Nd [Np [Sd Sp]]]].
  apply setup_compiled_module_helper in Hsetup.
  set (h2 := set_program (Some module) h1) in *.
  assert (Hc2 : calls h2 = []) by (unfold h2; cbn; rewrite Hc1; reflexivity).
  assert (Hpc2 : py_calls h2 = []) by (unfold h2; cbn; rewrite Hpc1; reflexivity).
  destruct (@setup_call_data_tables T h2 (helper s0) Hsetup Hc2 Hpc2 Nd Np Sd Sp)
    as [Kc _].
  destruct (setup_call_data_values h2 Hsetup Nd Np Sd Sp) as [Vc _].
  change (acceleration_eval_helper h2) with (acceleration_eval_helper h1) in Vc.
  rewrite Ha in Vc. change (acceleration_eval_helper h) with aeh in Vc.
  unfold stage_calls in Hin.
  assert (Hnd : NoDup (keys (stage_items method (calls (helper s0))))).
  { rewrite Kc. apply sorted_lt_NoDup. apply Sd. }
  assert (Hk : In dest (keys (stage_items method (data h1)))).
  { change (data h1) with (data h2). rewrite <- Kc. unfold keys.
    change dest with (fst (dest, c)). now apply in_map. }
  destruct (dict_get_of_key _ _ Hk) as [e He].
  destruct (Vc _ _ _ He) as [Hv [Ham [kernels [Hkern Hmod]]]].
  apply (dict_get_of_In_NoDup _ _ _ Hnd) in Hin. rewrite Hv in Hin.
  inversion Hin; subst c.
  apply Tdata in He. destruct He as [A [B [C ->]]].
  cbn in Hkern. inversion Hkern; subst kernels.
  repeat split; assumption.
Qed.

(** X13. In the runtime built from generated code, whatever was called
    before, every kernel a stage launches is the kernel [method_dest] of
    the module, for a destination [dest] whose stepper has a loop for that
    stage; its arguments are the queue, the particle count of [dest] at
    that moment, an empty local size, the device buffers of [dest] at that
    moment for the array arguments of the stage method, prefix dropped,
    and the scalars [t] and [dt]. *)
Theorem generated_stage_launch (obj : Integrator T) (aeh : AccelerationEvalHelper)
    (h1 : IntegratorOpenCLHelper T) (text : string) (module : list string)
    (ae : Z) (s0 s : OpenCLIntegrator T) (method : string) (w : W) s' w' log
    (pre post : list (event T)) (call : string) (args : list (arg T)) :
  get_code X (helper_init (Some obj) aeh) = Ok (h1, text) ->
  setup_compiled_module X module ae h1 = Ok s0 ->
  reachable X s0 s ->
  _do_stage X method s w = Ok (s', w', log) ->
  log = pre ++ EvKernel call args :: post ->
  exists dest t dt,
    In dest (keys (steppers obj))
    /\ In method (get_stepper_method_wrapper_names X obj)
    /\ has_stepper_loop X obj dest method = true
    /\ call = (method ++ "_" ++ dest)%string
    /\ In call module
    /\ self_t s = Some t /\ self_dt s = Some dt
    /\ args
       = [AQueue (_queue aeh);
          AGlobalSize (get_number_of_particles X (replay X w pre) dest);
          ANone]
         ++ map (fun x => ABuffer (dev_data X (replay X w pre) dest (str_drop 2 x)))
                (snd (get_array_names X (stepper_kernel_args X obj dest method)))
         ++ [AScalar (scalar_dtype s) t; AScalar (scalar_dtype s) dt].
Proof.
  intros Hcode Hsetup Hreach Hstage Hlog.
  assert (Hwf : wf_runtime s = true).
  { eapply (@runtime_wf _ _ X h1); [| |exact Hsetup|exact Hreach].
    - apply get_code_inv in Hcode; [|reflexivity|reflexivity].
      destruct Hcode as [[_ [_ [Hc _]]] _]. now rewrite Hc.
    - apply get_code_inv in Hcode; [|reflexivity|reflexivity].
      destruct Hcode as [[_ [_ [_ [Hp _]]]] _]. now rewrite Hp. }
  assert (Ht : exists t dt, self_t s = Some t /\ self_dt s = Some dt).
  { unfold _do_stage in Hstage.
    destruct (dd_getitem method _) as [call_info calls1].
    destruct (dd_getitem _ (py_calls _)) as [py_call_info py_calls1].
    destruct (self_t s); [|discriminate]. destruct (self_dt s); [|discriminate].
    eauto. }
  destruct Ht as [t [dt [Ht Hdt]]].
  destruct (@do_stage_launch _ _ X method s w t dt s' w' log pre post call args
              Hwf Ht Hdt Hstage Hlog)
    as [args0 [dest [q [a1 [fields [pre' [Hin [Hargs0 [_ Hargs]]]]]]]]].
  destruct (reachable_shapes Hreach _ _ _ Hin) as [c0 [Hc0 Hsh]].
  destruct (@compiled_calls_In obj aeh h1 text module ae s0 method dest c0
              Hcode Hsetup Hc0) as [A [B [C [D [E ->]]]]].
  subst args0. unfold call_shape, call_descriptor, kernel_entry in Hsh.
  cbn [fst snd] in Hsh.
  rewrite <- (map_map (str_drop 2) (@AGetter T dest)) in Hsh.
  injection Hsh as Hcall Hq Hfields. apply map_getter_inj in Hfields.
  subst call q fields.
  exists dest, t, dt. do 7 (split; [assumption || reflexivity|]).
  rewrite Hargs, map_map. reflexivity.
Qed.

(** X14. In the runtime built from generated code, whatever was called
    before, a stage launches a kernel for exactly the destinations whose
    stepper has a loop for that stage, and calls a hook for exactly the
    destinations whose stepper has the method [py_method]. *)
Theorem generated_stage_dests (obj : Integrator T) (aeh : AccelerationEvalHelper)
    (h1 : IntegratorOpenCLHelper T) (text : string) (module : list string)
    (ae : Z) (s0 s : OpenCLIntegrator T) (method : string) (w : W) s' w' log :
  get_code X (helper_init (Some obj) aeh) = Ok (h1, text) ->
  setup_compiled_module X module ae h1 = Ok s0 ->
  reachable X s0 s ->
  In method (get_stepper_method_wrapper_names X obj) ->
  _do_stage X method s w = Ok (s', w', log) ->
  (forall dest,
      In dest (launch_dests log)
      <-> In dest (keys (steppers obj))
          /\ has_stepper_loop X obj dest method = true)
  /\ (forall dest,
         In dest (hook_dests log)
         <-> exists stepper,
               dict_get dest (steppers obj) = Some stepper
               /\ hasattr stepper ("py_" ++ method) = true).
Proof.
  intros Hcode Hsetup Hreach Hm Hstage.
  assert (Hwf0 : wf_runtime s0 = true).
  { eapply (@runtime_wf _ _ X h1); [| |exact Hsetup|apply reach_setup].
    - apply get_code_inv in Hcode; [|reflexivity|reflexivity].
      destruct Hcode as [[_ [_ [Hc _]]] _]. now rewrite Hc.
    - apply get_code_inv in Hcode; [|reflexivity|reflexivity].
      destruct Hcode as [[_ [_ [_ [Hp _]]]] _]. now rewrite Hp. }
  destruct (reachable_tables Hreach Hwf0) as [Hwf [Kc Kp]].
  destruct (do_stage_dests X _ _ _ Hwf Hstage) as [Hh Hl].
  rewrite Hh, Hl, Kc, Kp.
  destruct (@compiled_tables_lookup _ _ X obj (helper_init (Some obj) aeh) h1 text
              module ae s0 eq_refl eq_refl eq_refl eq_refl eq_refl Hcode Hsetup)
    as [Tc Tp].
  split.
  - intros dest. split.
    + intros Hin. destruct (dict_get_of_key _ _ Hin) as [c Hc].
      apply Tc in Hc. tauto.
    + intros [A C]. eapply dict_get_Some_keys. apply Tc. eauto.
  - intros dest. split.
    + intros Hin. destruct (dict_get_of_key _ _ Hin) as [v Hv].
      apply (Tp method dest v Hm) in Hv. destruct Hv as [stepper [Hs [Hh' _]]]. eauto.
    + intros [stepper [Hs Hh']]. eapply dict_get_Some_keys.
      apply (Tp method dest _ Hm). eauto.
Qed.

End Launches.

(** ** Stages that no destination defines *)

Section UndefinedStages.

Variables T W : Type.
Variable X : Externals T W.






End UndefinedStages.

(** ** The properties at the concrete configuration *)

Lemma step_assigns_then_runs_witness :
  exists s' w' log,
    step Demo.ext 0%Z 1%Z Demo.runtime1 Demo.world0 = Ok (s', w', log)
    /\ log = [EvGetNumberOfParticles "fluid" 5;
              EvGetter "fluid" "x" 51; EvGetter "fluid" "u" 51;
              EvKernel "initialize_fluid"
                [AQueue 7; AGlobalSize 5; ANone; ABuffer 51; ABuffer 51;
                 AScalar float64 0%Z; AScalar float64 1%Z];
              EvNNPSUpdate 5; EvCompute 3%Z 0%Z 1%Z;
              EvPyMeth {| im_self := Demo.fluid_stepper; im_name := "py_stage1" |}
                       "fluid" [AScalar float64 0%Z; AScalar float64 1%Z];
              EvGetNumberOfParticles "boundary" 19;
              EvGetter "boundary" "x" 1081; EvGetter "boundary" "u" 1081;
              EvKernel "stage1_boundary"
                [AQueue 7; AGlobalSize 19; ANone; ABuffer 1081; ABuffer 1081;
                 AScalar float64 0%Z; AScalar float64 1%Z];
              EvGetNumberOfParticles "fluid" 17;
              EvGetter "fluid" "x" 2051; EvGetter "fluid" "u" 2051;
              EvKernel "stage1_fluid"
                [AQueue 7; AGlobalSize 17; ANone; ABuffer 2051; ABuffer 2051;
                 AScalar float64 0%Z; AScalar float64 1%Z];
              EvGetNumberOfParticles "fluid" 18;
              EvGetter "fluid" "x" 3051; EvGetter "fluid" "u" 3051;
              EvKernel "stage2_fluid"
                [AQueue 7; AGlobalSize 18; ANone; ABuffer 3051; ABuffer 3051;
                 AScalar float64 1%Z; AScalar float64 1%Z]]
    /\ runs_in_order Demo.ext 0%Z 1%Z (one_timestep Demo.runtime1)
         (set_dt 1%Z (set_t 0%Z (set_orig_t 0%Z Demo.runtime1))) Demo.world0
         s' w' log
    /\ self_orig_t s' = Some 0%Z /\ self_dt s' = Some 1%Z
    /\ one_timestep s' = one_timestep Demo.runtime1
    /\ w' = replay Demo.ext Demo.world0 log.
Proof.
  eexists _, _, _. split; [vm_compute; reflexivity|]. split; [reflexivity|].
  pose proof (step_assigns_then_runs Demo.ext 0%Z 1%Z Demo.runtime1 Demo.world0) as H.
  cbv zeta in H. destruct H as [_ [Hruns [_ Hframe]]].
  split; [apply Hruns; vm_compute; reflexivity|].
  apply Hframe. vm_compute; reflexivity.
Defined.

Lemma do_post_stage_sets_t_then_calls_back_witness :
  do_post_stage Demo.ext 1%Z 2%Z Demo.running_with_callback Demo.world0
  = Ok (set_t 1%Z Demo.running_with_callback, Demo.world0,
        [EvPostStageCallback 9%Z 1%Z 1%Z 2%Z]).
Proof.
  apply (@do_post_stage_sets_t_then_calls_back Z Demo.world Demo.ext 1%Z 2%Z
           Demo.running_with_callback Demo.world0 0%Z 1%Z eq_refl eq_refl).
Defined.



Lemma do_stage_steps_in_order_witness :
  exists s' w' log,
    _do_stage Demo.ext "stage1" Demo.running Demo.world0 = Ok (s', w', log)
    /\ forall name call args dest,
         In (name, (call, args, dest)) (stage_calls "stage1" Demo.running) ->
         exists q a1 fields pre post,
           let extra_args := [AScalar float64 0%Z; AScalar float64 1%Z] in
           let w1 := replay Demo.ext Demo.world0 pre in
           let n := get_number_of_particles Demo.ext w1 dest in
           args = AQueue q :: a1 :: ANone :: map (AGetter dest) fields
           /\ (forall key py_meth,
                 In (key, (py_meth, dest)) (stage_py_calls "stage1" Demo.running) ->
                 In (EvPyMeth py_meth dest extra_args) pre)
           /\ log = pre
                    ++ EvGetNumberOfParticles dest n
                    :: map (fun x => EvGetter dest x (dev_data Demo.ext w1 dest x)) fields
                    ++ EvKernel call
                         ([AQueue q; AGlobalSize n; ANone]
                          ++ map (fun x => ABuffer (dev_data Demo.ext w1 dest x)) fields
                          ++ extra_args)
                    :: post.
Proof.
  apply (@do_stage_steps_in_order Z Demo.world Demo.ext "stage1" Demo.running
           Demo.world0 0%Z 1%Z); reflexivity.
Defined.

Lemma launch_count_is_fresh_witness :
  exists s1 w1 log1,
    _do_stage Demo.ext "stage1" Demo.running Demo.world0 = Ok (s1, w1, log1)
    /\ log1 = [EvPyMeth {| im_self := Demo.fluid_stepper; im_name := "py_stage1" |}
                        "fluid" [AScalar float64 0%Z; AScalar float64 1%Z];
               EvGetNumberOfParticles "boundary" 18;
               EvGetter "boundary" "x" 81; EvGetter "boundary" "u" 81;
               EvKernel "stage1_boundary"
                 [AQueue 7; AGlobalSize 18; ANone; ABuffer 81; ABuffer 81;
                  AScalar float64 0%Z; AScalar float64 1%Z];
               EvGetNumberOfParticles "fluid" 16;
               EvGetter "fluid" "x" 1051; EvGetter "fluid" "u" 1051;
               EvKernel "stage1_fluid"
                 [AQueue 7; AGlobalSize 16; ANone; ABuffer 1051; ABuffer 1051;
                  AScalar float64 0%Z; AScalar float64 1%Z]]
    /\ dict_get "fluid" (stage_calls "stage1" s1)
       = Some ("stage1_fluid"%string,
               [AQueue 7; AGlobalSize 16; ANone;
                AGetter "fluid" "x"; AGetter "fluid" "u"],
               "fluid"%string)
    /\ (exists s2 w2,
          _do_stage Demo.ext "stage2" s1 (Demo.grow w1)
          = Ok (s2, w2,
                [EvGetNumberOfParticles "fluid" 117;
                 EvGetter "fluid" "x" 102051; EvGetter "fluid" "u" 102051;
                 EvKernel "stage2_fluid"
                   [AQueue 7; AGlobalSize 117; ANone;
                    ABuffer 102051; ABuffer 102051;
                    AScalar float64 0%Z; AScalar float64 1%Z]]))
    /\ (exists s2 w2,
          _do_stage Demo.ext "stage1" s1 (Demo.grow w1)
          = Ok (s2, w2,
                [EvPyMeth {| im_self := Demo.fluid_stepper; im_name := "py_stage1" |}
                          "fluid" [AScalar float64 0%Z; AScalar float64 1%Z];
                 EvGetNumberOfParticles "boundary" 130;
                 EvGetter "boundary" "x" 102081; EvGetter "boundary" "u" 102081;
                 EvKernel "stage1_boundary"
                   [AQueue 7; AGlobalSize 130; ANone;
                    ABuffer 102081; ABuffer 102081;
                    AScalar float64 0%Z; AScalar float64 1%Z];
                 EvGetNumberOfParticles "fluid" 128;
                 EvGetter "fluid" "x" 103051; EvGetter "fluid" "u" 103051;
                 EvKernel "stage1_fluid"
                   [AQueue 7; AGlobalSize 128; ANone;
                    ABuffer 103051; ABuffer 103051;
                    AScalar float64 0%Z; AScalar float64 1%Z]]))
    /\ (launches_read_fresh_counts Demo.ext Demo.world0
          (stage_calls "stage1" Demo.running) log1
        /\ entries_launch_fresh_counts Demo.ext Demo.world0
             (stage_calls "stage1" Demo.running) log1
        /\ exists s2 w2 log2,
             _do_stage Demo.ext "stage2" s1 (Demo.grow w1) = Ok (s2, w2, log2)
             /\ launches_read_fresh_counts Demo.ext (Demo.grow w1)
                  (stage_calls "stage2" s1) log2
             /\ entries_launch_fresh_counts Demo.ext (Demo.grow w1)
                  (stage_calls "stage2" s1) log2)
    /\ (launches_read_fresh_counts Demo.ext Demo.world0
          (stage_calls "stage1" Demo.running) log1
        /\ entries_launch_fresh_counts Demo.ext Demo.world0
             (stage_calls "stage1" Demo.running) log1
        /\ exists s2 w2 log2,
             _do_stage Demo.ext "stage1" s1 (Demo.grow w1) = Ok (s2, w2, log2)
             /\ launches_read_fresh_counts Demo.ext (Demo.grow w1)
                  (stage_calls "stage1" s1) log2
             /\ entries_launch_fresh_counts Demo.ext (Demo.grow w1)
                  (stage_calls "stage1" s1) log2).
Proof.
  eexists _, _, _. split; [vm_compute; reflexivity|].
  split; [reflexivity|]. split; [vm_compute; reflexivity|].
  split; [eexists _, _; vm_compute; reflexivity|].
  split; [eexists _, _; vm_compute; reflexivity|].
  split.
  - apply (@launch_count_is_fresh Z Demo.world Demo.ext "stage1" "stage2"
             Demo.running Demo.world0 0%Z 1%Z); vm_compute; reflexivity.
  - apply (@launch_count_is_fresh Z Demo.world Demo.ext "stage1" "stage1"
             Demo.running Demo.world0 0%Z 1%Z); vm_compute; reflexivity.
Defined.

Lemma launch_buffers_are_late_bound_witness :
  exists s1 w1 log1,
    _do_stage Demo.ext "stage1" Demo.running Demo.world0 = Ok (s1, w1, log1)
    /\ log1 = [EvPyMeth {| im_self := Demo.fluid_stepper; im_name := "py_stage1" |}
                        "fluid" [AScalar float64 0%Z; AScalar float64 1%Z];
               EvGetNumberOfParticles "boundary" 18;
               EvGetter "boundary" "x" 81; EvGetter "boundary" "u" 81;
               EvKernel "stage1_boundary"
                 [AQueue 7; AGlobalSize 18; ANone; ABuffer 81; ABuffer 81;
                  AScalar float64 0%Z; AScalar float64 1%Z];
               EvGetNumberOfParticles "fluid" 16;
               EvGetter "fluid" "x" 1051; EvGetter "fluid" "u" 1051;
               EvKernel "stage1_fluid"
                 [AQueue 7; AGlobalSize 16; ANone; ABuffer 1051; ABuffer 1051;
                  AScalar float64 0%Z; AScalar float64 1%Z]]
    /\ dev_data Demo.ext w1 "fluid" "x" = 2051%Z
    /\ dev_data Demo.ext (Demo.grow w1) "fluid" "x" = 102051%Z
    /\ (exists s2 w2,
          _do_stage Demo.ext "stage2" s1 (Demo.grow w1)
          = Ok (s2, w2,
                [EvGetNumberOfParticles "fluid" 117;
                 EvGetter "fluid" "x" 102051; EvGetter "fluid" "u" 102051;
                 EvKernel "stage2_fluid"
                   [AQueue 7; AGlobalSize 117; ANone;
                    ABuffer 102051; ABuffer 102051;
                    AScalar float64 0%Z; AScalar float64 1%Z]]))
    /\ launches_read_current_buffers Demo.ext Demo.world0
         (stage_calls "stage1" Demo.running)
         (stage_extra_args Demo.running 0%Z 1%Z) log1
    /\ entries_launch_current_buffers Demo.ext Demo.world0
         (stage_calls "stage1" Demo.running)
         (stage_extra_args Demo.running 0%Z 1%Z) log1
    /\ wf_runtime s1 = true
    /\ exists s2 w2 log2,
         _do_stage Demo.ext "stage2" s1 (Demo.grow w1) = Ok (s2, w2, log2)
         /\ launches_read_current_buffers Demo.ext (Demo.grow w1)
              (stage_calls "stage2" s1)
              (stage_extra_args Demo.running 0%Z 1%Z) log2
         /\ entries_launch_current_buffers Demo.ext (Demo.grow w1)
              (stage_calls "stage2" s1)
              (stage_extra_args Demo.running 0%Z 1%Z) log2
         /\ wf_runtime s2 = true.
Proof.
  eexists _, _, _. split; [vm_compute; reflexivity|].
  split; [reflexivity|]. split; [vm_compute; reflexivity|].
  split; [vm_compute; reflexivity|].
  split; [eexists _, _; vm_compute; reflexivity|].
  apply (@launch_buffers_are_late_bound Z Demo.world Demo.ext "stage1" "stage2"
           Demo.running Demo.world0 0%Z 1%Z); vm_compute; reflexivity.
Defined.



(** The log of [stage1] at the concrete configuration: the hook of
    [fluid], then the launch for [boundary], then the launch for [fluid],
    each with the count and the buffers of its moment. *)
Example stage1_log :
  exists s',
    _do_stage Demo.ext "stage1" Demo.running Demo.world0
    = Ok (s', (12, 2)%Z,
          [EvPyMeth {| im_self := Demo.fluid_stepper; im_name := "py_stage1" |}
                    "fluid" [AScalar float64 0%Z; AScalar float64 1%Z];
           EvGetNumberOfParticles "boundary" 18;
           EvGetter "boundary" "x" 81; EvGetter "boundary" "u" 81;
           EvKernel "stage1_boundary"
             [AQueue 7; AGlobalSize 18; ANone; ABuffer 81; ABuffer 81;
              AScalar float64 0%Z; AScalar float64 1%Z];
           EvGetNumberOfParticles "fluid" 16;
           EvGetter "fluid" "x" 1051; EvGetter "fluid" "u" 1051;
           EvKernel "stage1_fluid"
             [AQueue 7; AGlobalSize 16; ANone; ABuffer 1051; ABuffer 1051;
              AScalar float64 0%Z; AScalar float64 1%Z]]).
Proof. eexists. vm_compute. reflexivity. Qed.

Lemma stage_order_is_lexicographic_witness :
  exists h1 text s0 s1 w1 log1 s' w' log,
    get_code Demo.ext (helper_init (Some Demo.integrator) Demo.aeh) = Ok (h1, text)
    /\ setup_compiled_module Demo.ext Demo.module 3 h1 = Ok s0
    /\ step Demo.ext 0%Z 1%Z (set_nnps 5 s0) Demo.world0 = Ok (s1, w1, log1)
    /\ _do_stage Demo.ext "stage1" s1 Demo.world0 = Ok (s', w', log)
    /\ StronglySorted str_lt (hook_dests log)
    /\ StronglySorted str_lt (launch_dests log)
    /\ hook_dests log = keys (stage_py_calls "stage1" s0)
    /\ launch_dests log = keys (stage_calls "stage1" s0)
    /\ exists hooks launches,
         log = hooks ++ launches
         /\ launch_dests hooks = [] /\ hook_dests launches = [].
Proof.
  eexists _, _, _, _, _, _, _, _, _.
  split; [vm_compute; reflexivity|].
  split; [vm_compute; reflexivity|].
  split; [vm_compute; reflexivity|].
  split; [vm_compute; reflexivity|].
  eapply (@stage_order_is_lexicographic Z Demo.world Demo.ext Demo.integrator
            Demo.aeh _ _ Demo.module 3%Z _ _ "stage1" Demo.world0).
  - vm_compute; reflexivity.
  - vm_compute; reflexivity.
  - eapply (@reach_step Z Demo.world Demo.ext _ _ 0%Z 1%Z Demo.world0).
    + eapply (@reach_set_nnps Z Demo.world Demo.ext _ _ 5%Z). apply reach_setup.
    + vm_compute; reflexivity.
  - vm_compute; reflexivity.
Defined.

Lemma kernel_generation_dedup_witness :
  count_occ string_dec
    (map cls_name (parsed_instances (steppers Demo.integrator))) "EulerStep" = 1%nat
  /\ exists h1 h2 text1 text2,
       get_stepper_kernel Demo.ext "fluid" "stage1" Demo.helper0 = Ok (h1, text1)
       /\ get_stepper_kernel Demo.ext "boundary" "stage1" h1 = Ok (h2, text2)
       /\ dict_get "fluid" (stage_items "stage1" (data h2))
          = Some ("stage1_fluid", ["d_x"; "d_u"])
       /\ dict_get "boundary" (stage_items "stage1" (data h2))
          = Some ("stage1_boundary", ["d_x"; "d_u"]).
Proof.
  destruct (@kernel_generation_dedup Z Demo.world Demo.ext Demo.helper0
              Demo.integrator "fluid" "boundary" "stage1"
              Demo.fluid_stepper Demo.boundary_stepper
              eq_refl eq_refl eq_refl eq_refl eq_refl ltac:(discriminate))
    as [[_ [_ Hc]] [h1 [h2 [H1 [H2 [H3 [H4 _]]]]]]].
  split; [exact Hc|].
  exists h1, h2. eexists _, _.
  split; [exact H1|]. split; [exact H2|]. split; [exact H3 | exact H4].
Defined.

Lemma step_total_witness :
  exists s' w' log,
    step Demo.ext 0%Z 1%Z Demo.runtime1 Demo.world0 = Ok (s', w', log).
Proof.
  apply (@step_total Z Demo.world Demo.ext 0%Z 1%Z Demo.runtime1 Demo.world0 5%Z);
    vm_compute; reflexivity.
Defined.

Lemma step_unbound_stage_witness :
  step Demo.ext 0%Z 1%Z (Demo.runtime Demo.helper9) Demo.world0
  = Raise (AttributeError "OpenCLIntegrator" "stage9").
Proof.
  apply (@step_unbound_stage Z Demo.world Demo.ext 0%Z 1%Z
           (Demo.runtime Demo.helper9) Demo.world0 5%Z
           [OpStage "stage1"] [] "stage9");
    vm_compute; reflexivity.
Defined.

Lemma step_calls_counted_witness :
  exists s' w' log,
    step Demo.ext 0%Z 1%Z Demo.running_with_callback Demo.world0 = Ok (s', w', log)
    /\ count (@is_compute_event Z) log = 1%nat
    /\ count (@is_nnps_event Z) log = 1%nat
    /\ count (@is_parallel_manager_event Z) log = 1%nat
    /\ count (@is_callback Z) log = 2%nat.
Proof.
  eexists _, _, _. split; [vm_compute; reflexivity|].
  eapply (@step_calls_counted Z Demo.world Demo.ext 0%Z 1%Z
            Demo.running_with_callback Demo.world0 _ _ _).
  vm_compute; reflexivity.
Defined.

Lemma step_final_time_witness :
  exists s' w' log,
    step Demo.ext 0%Z 1%Z Demo.runtime1 Demo.world0 = Ok (s', w', log)
    /\ self_t s' = Some 1%Z.
Proof.
  eexists _, _, _. split; [vm_compute; reflexivity|].
  refine (proj2 (@step_final_time Z Demo.world Demo.ext 0%Z 1%Z Demo.runtime1
                   Demo.world0 _ _ _ _)
            [OpStage "initialize"; OpComputeAccelerations; OpStage "stage1";
             OpDoPostStage (fun _ dt => dt) 1; OpStage "stage2"]
            (fun _ dt => dt) 2%Z [] _ _).
  - vm_compute; reflexivity.
  - reflexivity.
  - reflexivity.
Defined.

Lemma methods_before_first_step_witness :
  exists s0,
    setup_compiled_module Demo.ext Demo.module 3 Demo.helper1 = Ok s0
    /\ (forall method w,
          _do_stage Demo.ext method s0 w
          = Raise (AttributeError "OpenCLIntegrator" "t"))
    /\ (forall stage_dt stage w,
          do_post_stage Demo.ext stage_dt stage s0 w
          = Raise (AttributeError "OpenCLIntegrator" "orig_t"))
    /\ (forall w,
          compute_accelerations Demo.ext s0 w
          = Raise (AttributeError "NoneType" "update"))
    /\ (forall v w,
          compute_accelerations Demo.ext (set_nnps v s0) w
          = Raise (AttributeError "OpenCLIntegrator" "t")).
Proof.
  eexists. split; [vm_compute; reflexivity|].
  apply (@methods_before_first_step Z Demo.world Demo.ext Demo.helper1
           Demo.module 3%Z).
  vm_compute; reflexivity.
Defined.

Lemma stage_after_post_stage_witness :
  exists s1 w1 log1 s2 w2 log2,
    do_post_stage Demo.ext 1%Z 1%Z Demo.running Demo.world0 = Ok (s1, w1, log1)
    /\ _do_stage Demo.ext "stage2" s1 w1 = Ok (s2, w2, log2)
    /\ Forall (fun e => match e with
                        | EvKernel _ args =>
                            last_two args = [AScalar float64 1%Z; AScalar float64 1%Z]
                        | EvPyMeth _ _ extra_args =>
                            extra_args = [AScalar float64 1%Z; AScalar float64 1%Z]
                        | _ => True
                        end) log2.
Proof.
  eexists _, _, _, _, _, _.
  split; [vm_compute; reflexivity|]. split; [vm_compute; reflexivity|].
  eapply (@stage_after_post_stage Z Demo.world Demo.ext 1%Z 1%Z "stage2"
            Demo.running Demo.world0 0%Z 1%Z _ _ _ _ _ _);
    vm_compute; reflexivity.
Defined.

Lemma do_stage_frame_witness :
  exists s' w' log,
    _do_stage Demo.ext "stage1" Demo.running Demo.world0 = Ok (s', w', log)
    /\ same_context Demo.running s' /\ self_t s' = self_t Demo.running
    /\ (forall m', stage_py_calls m' s' = stage_py_calls m' Demo.running)
    /\ (forall m', m' <> "stage1"%string ->
                   stage_calls m' s' = stage_calls m' Demo.running)
    /\ keys (stage_calls "stage1" s') = keys (stage_calls "stage1" Demo.running)
    /\ same_helper_data (helper Demo.running) (helper s')
    /\ wf_runtime s' = true.
Proof.
  eexists _, _, _. split; [vm_compute; reflexivity|].
  eapply (@do_stage_frame Z Demo.world Demo.ext "stage1" Demo.running Demo.world0);
    vm_compute; reflexivity.
Defined.


Lemma compiled_tables_witness :
  exists h1 text s0,
    get_code Demo.ext Demo.helper0 = Ok (h1, text)
    /\ setup_compiled_module Demo.ext Demo.module 3 h1 = Ok s0
    /\ (forall method dest c,
          dict_get dest (stage_calls method s0) = Some c
          <-> In dest (keys (steppers Demo.integrator))
              /\ In method (get_stepper_method_wrapper_names Demo.ext Demo.integrator)
              /\ has_stepper_loop Demo.ext Demo.integrator dest method = true
              /\ c = ((method ++ "_" ++ dest)%string,
                      AQueue (_queue (acceleration_eval_helper Demo.helper0))
                      :: ANone :: ANone
                      :: map (fun x => AGetter dest (str_drop 2 x))
                             (snd (get_array_names Demo.ext
                                     (stepper_kernel_args Demo.ext Demo.integrator
                                        dest method))),
                      dest))
    /\ (forall method dest v,
          In method (get_stepper_method_wrapper_names Demo.ext Demo.integrator) ->
          dict_get dest (stage_py_calls method s0) = Some v
          <-> exists stepper,
                dict_get dest (steppers Demo.integrator) = Some stepper
                /\ hasattr stepper ("py_" ++ method) = true
                /\ v = ({| im_self := stepper;
                           im_name := ("py_" ++ method)%string |}, dest)).
Proof.
  eexists _, _, _. split; [vm_compute; reflexivity|].
  split; [vm_compute; reflexivity|].
  eapply (@compiled_tables Z Demo.world Demo.ext Demo.integrator Demo.helper0
           _ _ Demo.module 3%Z);
    vm_compute; reflexivity.
Defined.

Lemma setup_compiled_module_returns_witness :
  exists h1 text,
    get_code Demo.ext Demo.helper0 = Ok (h1, text)
    /\ ((exists s0, setup_compiled_module Demo.ext Demo.module 3 h1 = Ok s0)
        <-> setup_ready Demo.ext Demo.integrator
              (_array_map (acceleration_eval_helper Demo.helper0)) Demo.module).
Proof.
  eexists _, _. split; [vm_compute; reflexivity|].
  eapply (@setup_compiled_module_returns Z Demo.world Demo.ext Demo.integrator
           Demo.helper0 _ _ Demo.module 3%Z);
    vm_compute; reflexivity.
Defined.

Lemma generated_stage_launch_witness :
  exists h1 text s0 s1 w1 log1 s' w' log post,
    get_code Demo.ext (helper_init (Some Demo.integrator) Demo.aeh) = Ok (h1, text)
    /\ setup_compiled_module Demo.ext Demo.module 3 h1 = Ok s0
    /\ step Demo.ext 0%Z 1%Z (set_nnps 5 s0) Demo.world0 = Ok (s1, w1, log1)
    /\ _do_stage Demo.ext "stage2" s1 Demo.world0 = Ok (s', w', log)
    /\ log = [EvGetNumberOfParticles "fluid" 5; EvGetter "fluid" "x" 51;
              EvGetter "fluid" "u" 51]
             ++ EvKernel "stage2_fluid"
                  [AQueue 7; AGlobalSize 5; ANone; ABuffer 51; ABuffer 51;
                   AScalar float64 1%Z; AScalar float64 1%Z]
             :: post
    /\ exists dest t dt,
         In dest (keys (steppers Demo.integrator))
         /\ In "stage2"%string
              (get_stepper_method_wrapper_names Demo.ext Demo.integrator)
         /\ has_stepper_loop Demo.ext Demo.integrator dest "stage2" = true
         /\ "stage2_fluid"%string = ("stage2" ++ "_" ++ dest)%string
         /\ In "stage2_fluid"%string Demo.module
         /\ self_t s1 = Some t /\ self_dt s1 = Some dt
         /\ [AQueue 7; AGlobalSize 5; ANone; ABuffer 51; ABuffer 51;
             AScalar float64 1%Z; AScalar float64 1%Z]
            = [AQueue (_queue Demo.aeh);
               AGlobalSize
                 (get_number_of_particles Demo.ext
                    (replay Demo.ext Demo.world0
                       [EvGetNumberOfParticles "fluid" 5; EvGetter "fluid" "x" 51;
                        EvGetter "fluid" "u" 51]) dest);
               ANone]
              ++ map (fun x =>
                        ABuffer
                          (dev_data Demo.ext
                             (replay Demo.ext Demo.world0
                                [EvGetNumberOfParticles "fluid" 5;
                                 EvGetter "fluid" "x" 51; EvGetter "fluid" "u" 51])
                             dest (str_drop 2 x)))
                     (snd (get_array_names Demo.ext
                             (stepper_kernel_args Demo.ext Demo.integrator dest
                                "stage2")))
              ++ [AScalar (scalar_dtype s1) t; AScalar (scalar_dtype s1) dt].
Proof.
  eexists _, _, _, _, _, _, _, _, _, _.
  split; [vm_compute; reflexivity|].
  split; [vm_compute; reflexivity|].
  split; [vm_compute; reflexivity|].
  split; [vm_compute; reflexivity|].
  split; [reflexivity|].
  eapply (@generated_stage_launch Z Demo.world Demo.ext Demo.integrator
            Demo.aeh _ _ Demo.module 3%Z _ _ "stage2" Demo.world0).
  - vm_compute; reflexivity.
  - vm_compute; reflexivity.
  - eapply (@reach_step Z Demo.world Demo.ext _ _ 0%Z 1%Z Demo.world0).
    + eapply (@reach_set_nnps Z Demo.world Demo.ext _ _ 5%Z). apply reach_setup.
    + vm_compute; reflexivity.
  - vm_compute; reflexivity.
  - reflexivity.
Defined.

Lemma generated_stage_dests_witness :
  exists h1 text s0 s1 w1 log1 s' w' log,
    get_code Demo.ext (helper_init (Some Demo.integrator) Demo.aeh) = Ok (h1, text)
    /\ setup_compiled_module Demo.ext Demo.module 3 h1 = Ok s0
    /\ step Demo.ext 0%Z 1%Z (set_nnps 5 s0) Demo.world0 = Ok (s1, w1, log1)
    /\ _do_stage Demo.ext "stage1" s1 Demo.world0 = Ok (s', w', log)
    /\ (forall dest,
          In dest (launch_dests log)
          <-> In dest (keys (steppers Demo.integrator))
              /\ has_stepper_loop Demo.ext Demo.integrator dest "stage1" = true)
    /\ (forall dest,
          In dest (hook_dests log)
          <-> exists stepper,
                dict_get dest (steppers Demo.integrator) = Some stepper
                /\ hasattr stepper ("py_" ++ "stage1") = true).
Proof.
  eexists _, _, _, _, _, _, _, _, _.
  split; [vm_compute; reflexivity|].
  split; [vm_compute; reflexivity|].
  split; [vm_compute; reflexivity|].
  split; [vm_compute; reflexivity|].
  eapply (@generated_stage_dests Z Demo.world Demo.ext Demo.integrator
            Demo.aeh _ _ Demo.module 3%Z _ _ "stage1" Demo.world0).
  - vm_compute; reflexivity.
  - vm_compute; reflexivity.
  - eapply (@reach_step Z Demo.world Demo.ext _ _ 0%Z 1%Z Demo.world0).
    + eapply (@reach_set_nnps Z Demo.world Demo.ext _ _ 5%Z). apply reach_setup.
    + vm_compute; reflexivity.
  - vm_compute. auto.
  - vm_compute; reflexivity.
Defined.
